(** * Hap frame codec (hap.c): a shallow embedding and its properties

    The development follows [XCodePlugin/hap/hap.c].  Buffers are lists of
    bytes, pointers into a buffer are offsets, a null pointer is [None].
    Every memory access is bounds-checked against the list that backs the
    buffer: a C access outside the object is [Undefined] here.

    Integer widths are those of the LP64 targets the plugin is built for:
    [unsigned int], [uint32_t] and [int] have 32 bits, [unsigned long] and
    [size_t] have 64 bits.  Conversions and wrap-around are written out. *)

From Stdlib Require Import ZArith List Lia Bool.
From coqutil Require Import Byte.
Import ListNotations.
Local Open Scope Z_scope.

(** ** Execution results *)

Inductive exec (A : Type) : Type :=
| Done (a : A)
| Undefined.
Arguments Done {A} a.
Arguments Undefined {A}.

Definition bind {A B : Type} (c : exec A) (k : A -> exec B) : exec B :=
  match c with
  | Done a => k a
  | Undefined => Undefined
  end.

Notation "x <- c ;; k" := (bind c (fun x => k))
  (at level 61, c at next level, right associativity).
Notation "' p <- c ;; k" := (bind c (fun x => let 'p := x in k))
  (at level 61, p pattern, c at next level, right associativity).

(** ** C integer conversions *)

Definition to_uint32 (z : Z) : Z := z mod 2 ^ 32.
Definition to_int (z : Z) : Z := (z + 2 ^ 31) mod 2 ^ 32 - 2 ^ 31.
Definition to_size_t (z : Z) : Z := z mod 2 ^ 64.

Definition len (l : list byte) : Z := Z.of_nat (length l).

(** ** Memory accesses *)

(** [*((uint8_t * )mem + p)] *)
Definition load (mem : list byte) (p : Z) : exec Z :=
  if p <? 0 then Undefined
  else match nth_error mem (Z.to_nat p) with
       | Some b => Done (byte.unsigned b)
       | None => Undefined
       end.

(** [*((uint8_t * )mem + p) = v] *)
Definition store (mem : list byte) (p : Z) (v : Z) : exec (list byte) :=
  if (0 <=? p) && (p <? len mem)
  then Done (firstn (Z.to_nat p) mem ++ byte.of_Z v :: skipn (S (Z.to_nat p)) mem)
  else Undefined.

(** The [n] bytes at [p], as [memcpy] or the compressor reads them. *)
Definition load_bytes (mem : list byte) (p n : Z) : exec (list byte) :=
  if (0 <=? p) && (0 <=? n) && (p + n <=? len mem)
  then Done (firstn (Z.to_nat n) (skipn (Z.to_nat p) mem))
  else Undefined.

(** [data] written at [p], as [memcpy] or the compressor writes it. *)
Definition store_bytes (mem : list byte) (p : Z) (data : list byte) : exec (list byte) :=
  if (0 <=? p) && (p + len data <=? len mem)
  then Done (firstn (Z.to_nat p) mem ++ data ++ skipn (Z.to_nat (p + len data)) mem)
  else Undefined.

(** ** Constants of hap.c *)

Definition kHapUInt24Max : Z := 0x00FFFFFF.

Definition kHapCompressorNone : Z := 0xA.
Definition kHapCompressorSnappy : Z := 0xB.
Definition kHapCompressorComplex : Z := 0xC.

Definition kHapFormatRGBDXT1 : Z := 0xB.
Definition kHapFormatRGBADXT5 : Z := 0xE.
Definition kHapFormatYCoCgDXT5 : Z := 0xF.

Definition kHapSectionDecodeInstructionsContainer : Z := 0x01.
Definition kHapSectionChunkSecondStageCompressorTable : Z := 0x02.
Definition kHapSectionChunkSizeTable : Z := 0x03.
Definition kHapSectionChunkOffsetTable : Z := 0x04.

(** ** Declarations of hap.h and snappy-c.h *)

(** Modelled from the spec: the status enumeration of hap.h, which lists
    No_Error, Bad_Arguments, Bad_Frame, Buffer_Too_Small and
    Internal_Error. *)
Inductive HapResult : Set :=
| HapResult_No_Error
| HapResult_Bad_Arguments
| HapResult_Bad_Frame
| HapResult_Buffer_Too_Small
| HapResult_Internal_Error.

Definition HapResult_eqb (a b : HapResult) : bool :=
  match a, b with
  | HapResult_No_Error, HapResult_No_Error
  | HapResult_Bad_Arguments, HapResult_Bad_Arguments
  | HapResult_Bad_Frame, HapResult_Bad_Frame
  | HapResult_Buffer_Too_Small, HapResult_Buffer_Too_Small
  | HapResult_Internal_Error, HapResult_Internal_Error => true
  | _, _ => false
  end.

(** The enumerators of hap.h that hap.c names: the values of the texture
    formats and of the compressor preferences are parameters. *)
Class hap_h : Type := {
  HapTextureFormat_RGB_DXT1 : Z;
  HapTextureFormat_RGBA_DXT5 : Z;
  HapTextureFormat_YCoCg_DXT5 : Z;
  HapCompressorNone : Z;
  HapCompressorSnappy : Z
}.

(** What hap.c relies on: the [case] labels are distinct (or the file does
    not compile) and no texture format is the "not recognised" value 0. *)
Definition hap_h_ok (H : hap_h) : bool :=
  negb (HapTextureFormat_RGB_DXT1 =? 0) &&
  negb (HapTextureFormat_RGBA_DXT5 =? 0) &&
  negb (HapTextureFormat_YCoCg_DXT5 =? 0) &&
  negb (HapTextureFormat_RGB_DXT1 =? HapTextureFormat_RGBA_DXT5) &&
  negb (HapTextureFormat_RGB_DXT1 =? HapTextureFormat_YCoCg_DXT5) &&
  negb (HapTextureFormat_RGBA_DXT5 =? HapTextureFormat_YCoCg_DXT5) &&
  negb (HapCompressorNone =? HapCompressorSnappy).

Inductive snappy_status : Set :=
| SNAPPY_OK
| SNAPPY_INVALID_INPUT
| SNAPPY_BUFFER_TOO_SMALL.

Definition snappy_is_ok (s : snappy_status) : bool :=
  match s with SNAPPY_OK => true | _ => false end.

(** The second-stage compressor is an external library.  Each operation
    is a function of the bytes it reads and of the capacity it is given;
    it returns its status with the bytes it wrote (or the length it
    reports). *)
Class snappy_c : Type := {
  snappy_max_compressed_length : Z -> Z;
  snappy_compress : list byte -> Z -> snappy_status * list byte;
  snappy_uncompressed_length : list byte -> snappy_status * Z;
  snappy_uncompress : list byte -> Z -> snappy_status * list byte
}.

(** ** Little-endian reads and writes *)

Definition hap_read_3_byte_uint (mem : list byte) (buffer : Z) : exec Z :=
  b0 <- load mem buffer ;;
  b1 <- load mem (buffer + 1) ;;
  b2 <- load mem (buffer + 2) ;;
  Done (to_uint32 (b0 + Z.shiftl b1 8 + Z.shiftl b2 16)).

Definition hap_write_3_byte_uint (mem : list byte) (buffer : Z) (value : Z) : exec (list byte) :=
  mem <- store mem buffer (Z.land value 0xFF) ;;
  mem <- store mem (buffer + 1) (Z.land (Z.shiftr value 8) 0xFF) ;;
  store mem (buffer + 2) (Z.land (Z.shiftr value 16) 0xFF).

Definition hap_read_4_byte_uint (mem : list byte) (buffer : Z) : exec Z :=
  b0 <- load mem buffer ;;
  b1 <- load mem (buffer + 1) ;;
  b2 <- load mem (buffer + 2) ;;
  b3 <- load mem (buffer + 3) ;;
  Done (to_uint32 (b0 + Z.shiftl b1 8 + Z.shiftl b2 16 + Z.shiftl b3 24)).

Definition hap_write_4_byte_uint (mem : list byte) (buffer : Z) (value : Z) : exec (list byte) :=
  mem <- store mem buffer (Z.land value 0xFF) ;;
  mem <- store mem (buffer + 1) (Z.land (Z.shiftr value 8) 0xFF) ;;
  mem <- store mem (buffer + 2) (Z.land (Z.shiftr value 16) 0xFF) ;;
  store mem (buffer + 3) (Z.land (Z.shiftr value 24) 0xFF).

Definition hap_top_4_bits (x : Z) : Z := Z.shiftr (Z.land x 0xF0) 4.

Definition hap_bottom_4_bits (x : Z) : Z := Z.land x 0x0F.

Definition hap_4_bit_packed_byte (top_bits bottom_bits : Z) : Z :=
  Z.lor (Z.shiftl top_bits 4) (Z.land bottom_bits 0x0F).

(** ** Section headers *)

(** The three locals every header read writes through its out-pointers. *)
Record section_vars : Type := {
  sectionHeaderLength : Z;
  sectionLength : Z;
  sectionType : Z
}.

(** [buffer_length] is a [uint32_t]; the sum of the two lengths in the
    last test is a [uint32_t] sum. *)
Definition hap_read_section_header (mem : list byte) (buffer : Z) (buffer_length : Z)
    (out : section_vars) : exec (HapResult * section_vars) :=
  if buffer_length <? 4 then Done (HapResult_Bad_Frame, out)
  else
    l3 <- hap_read_3_byte_uint mem buffer ;;
    if l3 =? 0 then
      if buffer_length <? 8
      then Done (HapResult_Bad_Frame,
                 {| sectionHeaderLength := sectionHeaderLength out;
                    sectionLength := l3;
                    sectionType := sectionType out |})
      else
        l4 <- hap_read_4_byte_uint mem (buffer + 4) ;;
        ty <- load mem (buffer + 3) ;;
        let out' := {| sectionHeaderLength := 8; sectionLength := l4; sectionType := ty |} in
        if to_uint32 (8 + l4) >? buffer_length
        then Done (HapResult_Bad_Frame, out')
        else Done (HapResult_No_Error, out')
    else
      ty <- load mem (buffer + 3) ;;
      let out' := {| sectionHeaderLength := 4; sectionLength := l3; sectionType := ty |} in
      if to_uint32 (4 + l3) >? buffer_length
      then Done (HapResult_Bad_Frame, out')
      else Done (HapResult_No_Error, out').

(** [section_length] is a [uint32_t] parameter: the caller's value is
    converted at the call. *)
Definition hap_write_section_header (mem : list byte) (buffer : Z) (header_length : Z)
    (section_length : Z) (section_type : Z) : exec (list byte) :=
  mem <- (if header_length =? 4
          then hap_write_3_byte_uint mem buffer section_length
          else
            mem <- hap_write_3_byte_uint mem buffer 0 ;;
            hap_write_4_byte_uint mem (buffer + 4) section_length) ;;
  store mem (buffer + 3) section_type.

(** ** Format identifiers *)

Section FormatTable.
Context {H : hap_h}.

Definition hap_texture_format_constant_for_format_identifier (identifier : Z) : Z :=
  if identifier =? kHapFormatRGBDXT1 then HapTextureFormat_RGB_DXT1
  else if identifier =? kHapFormatRGBADXT5 then HapTextureFormat_RGBA_DXT5
  else if identifier =? kHapFormatYCoCgDXT5 then HapTextureFormat_YCoCg_DXT5
  else 0.

Definition hap_texture_format_identifier_for_format_constant (constant : Z) : Z :=
  if constant =? HapTextureFormat_RGB_DXT1 then kHapFormatRGBDXT1
  else if constant =? HapTextureFormat_RGBA_DXT5 then kHapFormatRGBADXT5
  else if constant =? HapTextureFormat_YCoCg_DXT5 then kHapFormatYCoCgDXT5
  else 0.
End FormatTable.

(** The C library: whether [malloc] of a given size succeeds is up to the
    environment. *)
Class stdlib_h : Type := {
  malloc_succeeds : Z -> bool
}.

(** [sizeof(HapChunkDecodeInfo)]: two [unsigned int], two pointers and two
    [size_t]. *)
Definition sizeof_HapChunkDecodeInfo : Z := 40.

(** ** Encoder *)

Section Encoder.
Context {H : hap_h} {S : snappy_c}.

Definition HapMaxEncodedLength (inputBytes : Z) : Z :=
  let compressedLength := to_size_t (snappy_max_compressed_length inputBytes) in
  let compressedLength :=
    if compressedLength <? inputBytes then inputBytes else compressedLength in
  to_size_t (compressedLength + 8).

(** The end of [HapEncode], from the test that stores the input
    uncompressed on.  [storedCompressor] is [None] while the C variable
    has not been assigned. *)
Definition HapEncode_store (input : list byte) (inputBufferBytes textureFormat : Z)
    (output : list byte) (headerLength storedLength : Z) (storedCompressor : option Z)
    (outputBufferBytesUsed : option Z)
  : exec (HapResult * option (list byte) * option Z) :=
  let compressedStart := headerLength in
  '(output, storedLength, storedCompressor) <-
    (if (storedLength =? 0) || (storedLength >=? inputBufferBytes)
     then
       x <- load_bytes input 0 inputBufferBytes ;;
       output <- store_bytes output compressedStart x ;;
       Done (output, inputBufferBytes, Some kHapCompressorNone)
     else Done (output, storedLength, storedCompressor)) ;;
  match storedCompressor with
  | None => Undefined
  | Some storedCompressor =>
    let storedFormat := hap_texture_format_identifier_for_format_constant textureFormat in
    output <- hap_write_section_header output 0 headerLength (to_uint32 storedLength)
                (hap_4_bit_packed_byte storedCompressor storedFormat) ;;
    Done (HapResult_No_Error, Some output,
          option_map (fun _ => to_size_t (storedLength + headerLength)) outputBufferBytesUsed)
  end.

(** The value of the local [maxCompressedLength] of [HapEncode] at the
    size test: the compressor's bound, or the input length when that is
    larger or no compression is asked for. *)
Definition HapEncode_maxCompressedLength (compressor inputBufferBytes : Z) : Z :=
  let maxCompressedLength :=
    if compressor =? HapCompressorSnappy
    then to_size_t (snappy_max_compressed_length inputBufferBytes)
    else inputBufferBytes in
  if maxCompressedLength <? inputBufferBytes then inputBufferBytes
  else maxCompressedLength.

(** The value of the local [headerLength] of [HapEncode]. *)
Definition HapEncode_headerLength (inputBufferBytes : Z) : Z :=
  if inputBufferBytes >? kHapUInt24Max then 8 else 4.

(** A buffer argument is [None] for a null pointer, else the bytes of
    the object it points to; [outputBufferBytesUsed] is [None] for a null
    pointer, else the value of the cell.  The result carries the final
    contents of both. *)
Definition HapEncode (inputBuffer : option (list byte)) (inputBufferBytes : Z)
    (textureFormat compressor : Z)
    (outputBuffer : option (list byte)) (outputBufferBytes : Z)
    (outputBufferBytesUsed : option Z)
  : exec (HapResult * option (list byte) * option Z) :=
  match inputBuffer with
  | None => Done (HapResult_Bad_Arguments, outputBuffer, outputBufferBytesUsed)
  | Some input =>
    if (inputBufferBytes =? 0)
       || (negb (textureFormat =? HapTextureFormat_RGB_DXT1)
           && negb (textureFormat =? HapTextureFormat_RGBA_DXT5)
           && negb (textureFormat =? HapTextureFormat_YCoCg_DXT5))
       || (negb (compressor =? HapCompressorNone)
           && negb (compressor =? HapCompressorSnappy))
    then Done (HapResult_Bad_Arguments, outputBuffer, outputBufferBytesUsed)
    else
      let maxCompressedLength := HapEncode_maxCompressedLength compressor inputBufferBytes in
      let headerLength := HapEncode_headerLength inputBufferBytes in
      let maxOutputBufferLength := to_size_t (maxCompressedLength + headerLength) in
      match outputBufferBytes <? maxOutputBufferLength, outputBuffer with
      | false, Some output =>
        let compressedStart := headerLength in
        if compressor =? HapCompressorSnappy
        then
          x <- load_bytes input 0 inputBufferBytes ;;
          let '(result, compressed) := snappy_compress x outputBufferBytes in
          output <- store_bytes output compressedStart compressed ;;
          if negb (snappy_is_ok result)
          then Done (HapResult_Internal_Error, Some output, outputBufferBytesUsed)
          else HapEncode_store input inputBufferBytes textureFormat output headerLength
                 (len compressed) (Some kHapCompressorSnappy) outputBufferBytesUsed
        else
          HapEncode_store input inputBufferBytes textureFormat output headerLength
            0 None outputBufferBytesUsed
      | _, _ => Done (HapResult_Buffer_Too_Small, outputBuffer, outputBufferBytesUsed)
      end
  end.
End Encoder.

(** ** Decoder *)

(** [result] is [None] until [hap_decode_chunk] assigns it: the table comes
    from [malloc].  The two data pointers are offsets, into the input
    buffer and into the output buffer. *)
Record HapChunkDecodeInfo : Type := {
  result : option HapResult;
  compressor : Z;
  compressed_chunk_data : Z;
  compressed_chunk_size : Z;
  uncompressed_chunk_data : Z;
  uncompressed_chunk_size : Z
}.

(** What the work function and the dispatch callback act on: the chunk
    table [p] and the output buffer. *)
Record decode_store : Type := {
  chunk_info : list HapChunkDecodeInfo;
  output : list byte
}.

Definition HapDecodeWorkFunction : Type := decode_store -> Z -> exec decode_store.

Definition HapDecodeCallback (Info : Type) : Type :=
  HapDecodeWorkFunction -> decode_store -> Z -> Info -> exec (decode_store * Info).

(** The caller's objects a decode can write: the output buffer, the two
    out-parameters ([None] for a null pointer) and the callback's [info]. *)
Record decode_memory (Info : Type) : Type := {
  outputBuffer : option (list byte);
  outputBufferBytesUsed : option Z;
  outputBufferTextureFormat : option Z;
  info : Info
}.
Arguments outputBuffer {Info} d.
Arguments outputBufferBytesUsed {Info} d.
Arguments outputBufferTextureFormat {Info} d.
Arguments info {Info} d.

(** The variables of the loop over the Decode Instructions Container. *)
Record instruction_vars : Type := {
  sectionStart : Z;
  bytes_remaining : Z;
  chunk_count : Z;
  compressors : option Z;
  chunk_sizes : option Z;
  chunk_offsets : option Z;
  section : section_vars
}.

Definition get_chunk (chunks : list HapChunkDecodeInfo) (index : Z) : exec HapChunkDecodeInfo :=
  if index <? 0 then Undefined
  else match nth_error chunks (Z.to_nat index) with
       | Some c => Done c
       | None => Undefined
       end.

Definition set_chunk (chunks : list HapChunkDecodeInfo) (index : Z) (c : HapChunkDecodeInfo)
  : list HapChunkDecodeInfo :=
  firstn (Z.to_nat index) chunks ++ c :: skipn (Datatypes.S (Z.to_nat index)) chunks.

Section Decoder.
Context {H : hap_h} {S : snappy_c} {L : stdlib_h}.
Variable Info : Type.

Definition hap_decode_chunk (input : list byte) (st : decode_store) (index : Z)
  : exec decode_store :=
  c <- get_chunk (chunk_info st) index ;;
  if compressor c =? kHapCompressorSnappy
  then
    data <- load_bytes input (compressed_chunk_data c) (compressed_chunk_size c) ;;
    let '(snappy_result, bytes) := snappy_uncompress data (uncompressed_chunk_size c) in
    out <- store_bytes (output st) (uncompressed_chunk_data c) bytes ;;
    let r := match snappy_result with
             | SNAPPY_INVALID_INPUT => HapResult_Bad_Frame
             | SNAPPY_OK => HapResult_No_Error
             | _ => HapResult_Internal_Error
             end in
    let c' := {| result := Some r;
                 compressor := compressor c;
                 compressed_chunk_data := compressed_chunk_data c;
                 compressed_chunk_size := compressed_chunk_size c;
                 uncompressed_chunk_data := uncompressed_chunk_data c;
                 uncompressed_chunk_size :=
                   if snappy_is_ok snappy_result then len bytes
                   else uncompressed_chunk_size c |} in
    Done {| chunk_info := set_chunk (chunk_info st) index c'; output := out |}
  else
    let set_result r :=
      {| result := Some r;
         compressor := compressor c;
         compressed_chunk_data := compressed_chunk_data c;
         compressed_chunk_size := compressed_chunk_size c;
         uncompressed_chunk_data := uncompressed_chunk_data c;
         uncompressed_chunk_size := uncompressed_chunk_size c |} in
    if compressor c =? kHapCompressorNone
    then
      data <- load_bytes input (compressed_chunk_data c) (compressed_chunk_size c) ;;
      out <- store_bytes (output st) (uncompressed_chunk_data c) data ;;
      Done {| chunk_info := set_chunk (chunk_info st) index (set_result HapResult_No_Error);
              output := out |}
    else
      Done {| chunk_info := set_chunk (chunk_info st) index (set_result HapResult_Bad_Frame);
              output := output st |}.

(** The [while (bytes_remaining > 0)] loop.  [buffer_length] of the
    header read is a [uint32_t], [chunk_count] is an [int] and
    [section_chunk_count] an [unsigned int].  Each turn moves
    [sectionStart] forward by four bytes or more, so the loop leaves the
    input within [length input] turns; [fuel] bounds the turns. *)
Fixpoint hap_scan_instructions (fuel : nat) (input : list byte) (v : instruction_vars)
  : exec (HapResult * instruction_vars) :=
  if bytes_remaining v >? 0 then
    match fuel with
    | O => Undefined
    | Datatypes.S fuel =>
      '(result, sv) <- hap_read_section_header input (sectionStart v)
                         (to_uint32 (bytes_remaining v)) (section v) ;;
      if negb (HapResult_eqb result HapResult_No_Error)
      then Done (result,
                 {| sectionStart := sectionStart v; bytes_remaining := bytes_remaining v;
                    chunk_count := chunk_count v; compressors := compressors v;
                    chunk_sizes := chunk_sizes v; chunk_offsets := chunk_offsets v;
                    section := sv |})
      else
        let start := sectionStart v + sectionHeaderLength sv in
        let '(tables, section_chunk_count) :=
          if sectionType sv =? kHapSectionChunkSecondStageCompressorTable
          then ((Some start, chunk_sizes v, chunk_offsets v), sectionLength sv)
          else if sectionType sv =? kHapSectionChunkSizeTable
          then ((compressors v, Some start, chunk_offsets v), sectionLength sv / 4)
          else if sectionType sv =? kHapSectionChunkOffsetTable
          then ((compressors v, chunk_sizes v, Some start), sectionLength sv / 4)
          else ((compressors v, chunk_sizes v, chunk_offsets v), 0) in
        let '(cs, szs, offs) := tables in
        if negb (section_chunk_count =? 0)
           && negb (chunk_count v =? 0)
           && negb (section_chunk_count =? to_uint32 (chunk_count v))
        then Done (HapResult_Bad_Frame,
                   {| sectionStart := start; bytes_remaining := bytes_remaining v;
                      chunk_count := chunk_count v; compressors := cs;
                      chunk_sizes := szs; chunk_offsets := offs; section := sv |})
        else
          hap_scan_instructions fuel input
            {| sectionStart := start + sectionLength sv;
               bytes_remaining :=
                 to_size_t (bytes_remaining v
                            - to_uint32 (sectionHeaderLength sv + sectionLength sv));
               chunk_count :=
                 if negb (section_chunk_count =? 0) then to_int section_chunk_count
                 else chunk_count v;
               compressors := cs; chunk_sizes := szs; chunk_offsets := offs;
               section := sv |}
    end
  else Done (HapResult_No_Error, v).

(** The [for] loop that fills the chunk table, [n] turns from index [i]
    on.  It returns [result], the table and
    [running_uncompressed_chunk_size].  [i * 4] is an [int] product. *)
Fixpoint hap_build_chunks (n : nat) (i : Z) (input : list byte)
    (compressors chunk_sizes : Z) (chunk_offsets : option Z) (frame_data : Z)
    (chunks : list HapChunkDecodeInfo)
    (running_compressed_chunk_size running_uncompressed_chunk_size : Z)
  : exec (HapResult * list HapChunkDecodeInfo * Z) :=
  match n with
  | O => Done (HapResult_No_Error, chunks, running_uncompressed_chunk_size)
  | Datatypes.S n =>
    c <- load input (compressors + i) ;;
    i4 <- (if i * 4 <? 2 ^ 31 then Done (i * 4) else Undefined) ;;
    size <- hap_read_4_byte_uint input (chunk_sizes + i4) ;;
    data <- match chunk_offsets with
            | Some offsets =>
              o <- hap_read_4_byte_uint input (offsets + i4) ;;
              Done (frame_data + o)
            | None => Done (frame_data + running_compressed_chunk_size)
            end ;;
    let running_compressed_chunk_size := to_size_t (running_compressed_chunk_size + size) in
    let next usize :=
      hap_build_chunks n (i + 1) input compressors chunk_sizes chunk_offsets frame_data
        (chunks ++ [ {| result := None;
                        compressor := c;
                        compressed_chunk_data := data;
                        compressed_chunk_size := size;
                        uncompressed_chunk_data := running_uncompressed_chunk_size;
                        uncompressed_chunk_size := usize |} ])
        running_compressed_chunk_size
        (to_size_t (running_uncompressed_chunk_size + usize)) in
    if c =? kHapCompressorSnappy
    then
      bytes <- load_bytes input data size ;;
      let '(snappy_result, n_uncompressed) := snappy_uncompressed_length bytes in
      match snappy_result with
      | SNAPPY_OK => next (to_size_t n_uncompressed)
      | SNAPPY_INVALID_INPUT =>
        Done (HapResult_Bad_Frame, chunks, running_uncompressed_chunk_size)
      | _ => Done (HapResult_Internal_Error, chunks, running_uncompressed_chunk_size)
      end
    else next size
  end.

(** The loop that reports the first chunk whose result is an error. *)
Fixpoint hap_first_error (n : nat) (i : Z) (chunks : list HapChunkDecodeInfo)
  : exec HapResult :=
  match n with
  | O => Done HapResult_No_Error
  | Datatypes.S n =>
    c <- get_chunk chunks i ;;
    match result c with
    | None => Undefined
    | Some HapResult_No_Error => hap_first_error n (i + 1) chunks
    | Some r => Done r
    end
  end.

Definition set_texture_format (m : decode_memory Info) (v : Z) : decode_memory Info :=
  {| outputBuffer := outputBuffer m;
     outputBufferBytesUsed := outputBufferBytesUsed m;
     outputBufferTextureFormat := option_map (fun _ => v) (outputBufferTextureFormat m);
     info := info m |}.

(** The end of [HapDecode]: "Fill out the remaining return value". *)
Definition HapDecode_return (m : decode_memory Info) (out : list byte) (i : Info)
    (bytesUsed : Z) : exec (HapResult * decode_memory Info) :=
  Done (HapResult_No_Error,
        {| outputBuffer := Some out;
           outputBufferBytesUsed := option_map (fun _ => bytesUsed) (outputBufferBytesUsed m);
           outputBufferTextureFormat := outputBufferTextureFormat m;
           info := i |}).

Definition set_output (m : decode_memory Info) (out : list byte) (i : Info)
  : decode_memory Info :=
  {| outputBuffer := Some out;
     outputBufferBytesUsed := outputBufferBytesUsed m;
     outputBufferTextureFormat := outputBufferTextureFormat m;
     info := i |}.

(** The locals [sectionHeaderLength], [sectionLength] and [sectionType]
    before the first header read: no path reads them before a read has
    assigned them. *)
Definition section_vars_unset : section_vars :=
  {| sectionHeaderLength := 0; sectionLength := 0; sectionType := 0 |}.

(** The first part of the [kHapCompressorComplex] branch: the header
    of the Decode Instructions Container, the loop over its sections and
    the test that both required tables were found.  [sv] holds the
    top-level header.  The result carries the loop variables and
    [frame_data]. *)
Definition HapDecode_instructions (input : list byte) (inputBufferBytes : Z)
    (sv : section_vars) : exec (HapResult * instruction_vars * Z) :=
  let top := sectionHeaderLength sv in
  '(result, sv) <- hap_read_section_header input top
                     (to_uint32 (to_size_t (inputBufferBytes - sectionHeaderLength sv))) sv ;;
  let result :=
    if HapResult_eqb result HapResult_No_Error
       && negb (sectionType sv =? kHapSectionDecodeInstructionsContainer)
    then HapResult_Bad_Frame else result in
  let frame_data := top + sectionHeaderLength sv + sectionLength sv in
  let v := {| sectionStart := top + sectionHeaderLength sv;
              bytes_remaining := sectionLength sv;
              chunk_count := 0;
              compressors := None;
              chunk_sizes := None;
              chunk_offsets := None;
              section := sv |} in
  if negb (HapResult_eqb result HapResult_No_Error) then Done (result, v, frame_data)
  else
    '(result, v) <- hap_scan_instructions (Datatypes.S (length input)) input v ;;
    if negb (HapResult_eqb result HapResult_No_Error) then Done (result, v, frame_data)
    else
      match compressors v, chunk_sizes v with
      | Some _, Some _ => Done (HapResult_No_Error, v, frame_data)
      | _, _ => Done (HapResult_Bad_Frame, v, frame_data)
      end.

(** The body of [if (chunk_count > 0)]: the chunk table is allocated
    and filled, the total is compared with the capacity, the callback
    runs and the chunk results are collected. *)
Definition HapDecode_chunks (input : list byte) (callback : HapDecodeCallback Info)
    (out : list byte) (outputBufferBytes : Z) (m : decode_memory Info)
    (v : instruction_vars) (frame_data : Z)
  : exec (HapResult * decode_memory Info) :=
  match compressors v, chunk_sizes v with
  | Some cs, Some szs =>
    if negb (malloc_succeeds (to_size_t (sizeof_HapChunkDecodeInfo * chunk_count v)))
    then Done (HapResult_Internal_Error, m)
    else
      '(result, chunks, running_uncompressed_chunk_size) <-
        hap_build_chunks (Z.to_nat (chunk_count v)) 0 input cs szs (chunk_offsets v)
          frame_data [] 0 0 ;;
      let result :=
        if HapResult_eqb result HapResult_No_Error
           && (running_uncompressed_chunk_size >? outputBufferBytes)
        then HapResult_Buffer_Too_Small else result in
      if HapResult_eqb result HapResult_No_Error
      then
        let bytesUsed := running_uncompressed_chunk_size in
        '(st, i) <- callback (hap_decode_chunk input)
                      {| chunk_info := chunks; output := out |}
                      (to_uint32 (chunk_count v)) (info m) ;;
        result <- hap_first_error (Z.to_nat (chunk_count v)) 0 (chunk_info st) ;;
        if negb (HapResult_eqb result HapResult_No_Error)
        then Done (result, set_output m (output st) i)
        else HapDecode_return m (output st) i bytesUsed
      else Done (result, m)
  | _, _ => Undefined
  end.

(** The [kHapCompressorComplex] branch of [HapDecode]. *)
Definition HapDecode_complex (input : list byte) (inputBufferBytes : Z)
    (callback : HapDecodeCallback Info) (out : list byte) (outputBufferBytes : Z)
    (m : decode_memory Info) (sv : section_vars)
  : exec (HapResult * decode_memory Info) :=
  '(result, v, frame_data) <- HapDecode_instructions input inputBufferBytes sv ;;
  if negb (HapResult_eqb result HapResult_No_Error) then Done (result, m)
  else if chunk_count v >? 0
  then HapDecode_chunks input callback out outputBufferBytes m v frame_data
  else HapDecode_return m out (info m) 0.

(** [callback] is [None] for a null function pointer; [m] holds the
    caller's objects before the call, the result holds them after it. *)
Definition HapDecode (inputBuffer : option (list byte)) (inputBufferBytes : Z)
    (callback : option (HapDecodeCallback Info)) (outputBufferBytes : Z)
    (m : decode_memory Info)
  : exec (HapResult * decode_memory Info) :=
  match inputBuffer, callback, outputBuffer m, outputBufferTextureFormat m with
  | Some input, Some callback, Some out, Some _ =>
    '(result, sv) <- hap_read_section_header input 0 (to_uint32 inputBufferBytes)
                       section_vars_unset ;;
    if negb (HapResult_eqb result HapResult_No_Error) then Done (result, m)
    else
      let compressor := hap_top_4_bits (sectionType sv) in
      let textureFormat := hap_bottom_4_bits (sectionType sv) in
      let m :=
        set_texture_format m
          (hap_texture_format_constant_for_format_identifier textureFormat) in
      if hap_texture_format_constant_for_format_identifier textureFormat =? 0
      then Done (HapResult_Bad_Frame, m)
      else
        let sectionStart := sectionHeaderLength sv in
        if compressor =? kHapCompressorComplex
        then HapDecode_complex input inputBufferBytes callback out outputBufferBytes m sv
        else if compressor =? kHapCompressorSnappy
        then
          data <- load_bytes input sectionStart (sectionLength sv) ;;
          let '(snappy_result, n) := snappy_uncompressed_length data in
          if negb (snappy_is_ok snappy_result) then Done (HapResult_Internal_Error, m)
          else
            let bytesUsed := to_size_t n in
            if bytesUsed >? outputBufferBytes then Done (HapResult_Buffer_Too_Small, m)
            else
              let '(snappy_result, bytes) := snappy_uncompress data bytesUsed in
              out <- store_bytes out 0 bytes ;;
              if negb (snappy_is_ok snappy_result)
              then Done (HapResult_Internal_Error, set_output m out (info m))
              else HapDecode_return m out (info m) (len bytes)
        else if compressor =? kHapCompressorNone
        then
          let bytesUsed := sectionLength sv in
          if sectionLength sv >? outputBufferBytes
          then Done (HapResult_Buffer_Too_Small, m)
          else
            data <- load_bytes input sectionStart (sectionLength sv) ;;
            out <- store_bytes out 0 data ;;
            HapDecode_return m out (info m) bytesUsed
        else Done (HapResult_Bad_Frame, m)
  | _, _, _, _ => Done (HapResult_Bad_Arguments, m)
  end.

Definition HapGetFrameTextureFormat (inputBuffer : option (list byte))
    (inputBufferBytes : Z) (outputBufferTextureFormat : option Z)
  : exec (HapResult * option Z) :=
  match inputBuffer, outputBufferTextureFormat with
  | Some input, Some _ =>
    '(result, sv) <- hap_read_section_header input 0 (to_uint32 inputBufferBytes)
                       section_vars_unset ;;
    if HapResult_eqb result HapResult_No_Error
    then
      let format :=
        hap_texture_format_constant_for_format_identifier
          (hap_bottom_4_bits (sectionType sv)) in
      if format =? 0 then Done (HapResult_Bad_Frame, Some format)
      else Done (result, Some format)
    else Done (result, outputBufferTextureFormat)
  | _, _ => Done (HapResult_Bad_Arguments, outputBufferTextureFormat)
  end.
End Decoder.
Arguments HapDecode {H S L Info}.
Arguments HapDecode_complex {S L Info}.
Arguments HapDecode_chunks {S L Info}.
Arguments HapDecode_return {Info}.
Arguments set_texture_format {Info}.
Arguments set_output {Info}.

(** * Vocabulary of the statements *)

(** ** The bytes of a section header

    [section_header_bytes] lists what [hap_write_section_header] stores:
    three length bytes and the type, or three zero bytes, the type and
    four length bytes. *)

Definition section_header_bytes (header_length section_length section_type : Z) : list byte :=
  if header_length =? 4
  then [ byte.of_Z (Z.land section_length 0xFF);
         byte.of_Z (Z.land (Z.shiftr section_length 8) 0xFF);
         byte.of_Z (Z.land (Z.shiftr section_length 16) 0xFF);
         byte.of_Z section_type ]
  else [ byte.of_Z (Z.land 0 0xFF);
         byte.of_Z (Z.land (Z.shiftr 0 8) 0xFF);
         byte.of_Z (Z.land (Z.shiftr 0 16) 0xFF);
         byte.of_Z section_type;
         byte.of_Z (Z.land section_length 0xFF);
         byte.of_Z (Z.land (Z.shiftr section_length 8) 0xFF);
         byte.of_Z (Z.land (Z.shiftr section_length 16) 0xFF);
         byte.of_Z (Z.land (Z.shiftr section_length 24) 0xFF) ].

(** A length a header of [hl] bytes can hold: the short form holds 1 to
    [kHapUInt24Max], the long form any [uint32_t]. *)
Definition header_fits (hl sl : Z) : Prop :=
  (hl = 4 /\ 0 < sl <= kHapUInt24Max) \/ (hl = 8 /\ 0 <= sl < 2 ^ 32).

Definition is_compressor_code (c : Z) : Prop :=
  c = kHapCompressorNone \/ c = kHapCompressorSnappy \/ c = kHapCompressorComplex.

Definition is_format_code (f : Z) : Prop :=
  f = kHapFormatRGBDXT1 \/ f = kHapFormatRGBADXT5 \/ f = kHapFormatYCoCgDXT5.

Section Vocabulary.
Context {H : hap_h} {S : snappy_c}.

Definition is_texture_format (t : Z) : Prop :=
  t = HapTextureFormat_RGB_DXT1 \/ t = HapTextureFormat_RGBA_DXT5
  \/ t = HapTextureFormat_YCoCg_DXT5.

(** What a successful [HapEncode] stores behind the header, and the
    compressor code it records: the input itself unless the compressor
    was asked for and made it smaller. *)
Definition stored_frame (compressor : Z) (x : list byte) (capacity : Z) : Z * list byte :=
  if compressor =? HapCompressorSnappy
  then
    let c := snd (snappy_compress x capacity) in
    if (len c =? 0) || (len c >=? len x)
    then (kHapCompressorNone, x)
    else (kHapCompressorSnappy, c)
  else (kHapCompressorNone, x).

(** The compressor, given the whole capacity, succeeds and stays within
    the worst case the encoder reserved. *)
Definition compressor_obliges (compressor : Z) (x : list byte) (capacity : Z) : Prop :=
  compressor = HapCompressorSnappy ->
  fst (snappy_compress x capacity) = SNAPPY_OK /\
  len (snd (snappy_compress x capacity))
  <= HapEncode_maxCompressedLength compressor (len x).

(** Where the compressor made [x] smaller, its own decompressor gives
    [x] back and reports its length. *)
Definition compressor_inverts (compressor : Z) (x : list byte) (capacity : Z) : Prop :=
  compressor = HapCompressorSnappy ->
  let c := snd (snappy_compress x capacity) in
  0 < len c < len x ->
  snappy_uncompressed_length c = (SNAPPY_OK, len x) /\
  snappy_uncompress c (len x) = (SNAPPY_OK, x).

(** The worst-case size of what the encoder stores, in the words of the
    format's description: where the compressor is asked for, the bound
    the external compressor gives for the input length, or the input
    length where that bound is smaller; where it is not, the input
    length. *)
Definition worst_case_size (compressor n : Z) : Z :=
  if compressor =? HapCompressorSnappy
  then Z.max (to_size_t (snappy_max_compressed_length n)) n
  else n.

End Vocabulary.

(** ** Frames with a Decode Instructions Container

    A container is described by its child sections, each with the header
    form it is written with, its type byte and its payload;
    [complex_frame] lists the bytes of the frame that holds them. *)

Record child_section : Type := {
  child_header_length : Z;
  child_type : Z;
  child_payload : list byte
}.

Definition section_bytes (hl ty : Z) (payload : list byte) : list byte :=
  section_header_bytes hl (len payload) ty ++ payload.

Definition child_bytes (c : child_section) : list byte :=
  section_bytes (child_header_length c) (child_type c) (child_payload c).

Definition container_bytes (children : list child_section) : list byte :=
  flat_map child_bytes children.

Definition complex_frame (top_hl fmt dic_hl : Z) (children : list child_section)
    (frame_data : list byte) : list byte :=
  section_bytes top_hl (hap_4_bit_packed_byte kHapCompressorComplex fmt)
    (section_bytes dic_hl kHapSectionDecodeInstructionsContainer (container_bytes children)
     ++ frame_data).

Definition child_ok (c : child_section) : Prop :=
  header_fits (child_header_length c) (len (child_payload c)) /\ 0 <= child_type c < 256.

(** The chunk count a child section implies: its length for the
    compressor table, a quarter of its length for the size and offset
    tables, none (0) for any other section. *)
Definition implied_chunk_count (c : child_section) : Z :=
  if child_type c =? kHapSectionChunkSecondStageCompressorTable then len (child_payload c)
  else if child_type c =? kHapSectionChunkSizeTable then len (child_payload c) / 4
  else if child_type c =? kHapSectionChunkOffsetTable then len (child_payload c) / 4
  else 0.

Definition table_pointers : Type := (option Z * option Z * option Z)%type.

Definition record_table (ty start : Z) (t : table_pointers) : table_pointers :=
  let '(cs, szs, offs) := t in
  if ty =? kHapSectionChunkSecondStageCompressorTable then (Some start, szs, offs)
  else if ty =? kHapSectionChunkSizeTable then (cs, Some start, offs)
  else if ty =? kHapSectionChunkOffsetTable then (cs, szs, Some start)
  else (cs, szs, offs).

(** The outcome of the loop over the children that start at [start],
    entered with chunk count [k] and table pointers [t]: [None] when two
    non-zero counts differ, else the final count and pointers. *)
Fixpoint scan_children (start k : Z) (t : table_pointers) (children : list child_section)
  : option (Z * table_pointers) :=
  match children with
  | [] => Some (k, t)
  | c :: children =>
    let n := implied_chunk_count c in
    let p := start + child_header_length c in
    if negb (n =? 0) && negb (k =? 0) && negb (n =? k) then None
    else scan_children (p + len (child_payload c)) (if negb (n =? 0) then n else k)
           (record_table (child_type c) p t) children
  end.

Definition complex_frame_ok (top_hl fmt dic_hl : Z) (children : list child_section)
    (frame_data : list byte) : Prop :=
  is_format_code fmt /\
  header_fits top_hl
    (len (section_bytes dic_hl kHapSectionDecodeInstructionsContainer
            (container_bytes children) ++ frame_data)) /\
  header_fits dic_hl (len (container_bytes children)) /\
  Forall child_ok children /\
  len (complex_frame top_hl fmt dic_hl children frame_data) < 2 ^ 32.

(** The outcome of the first part of the Complex branch on a well-formed
    frame: the loop's outcome, then the test for the two required
    tables. *)
Definition instructions_result (start : Z) (children : list child_section) : HapResult :=
  match scan_children start 0 (None, None, None) children with
  | Some (_, (Some _, Some _, _)) => HapResult_No_Error
  | _ => HapResult_Bad_Frame
  end.

Fixpoint sum_uncompressed (chunks : list HapChunkDecodeInfo) : Z :=
  match chunks with
  | [] => 0
  | c :: chunks => uncompressed_chunk_size c + sum_uncompressed chunks
  end.

(** ** Instances used to run the model

    The values hap.h gives its enumerators, a run-length stand-in for the
    external compressor (one length byte, then count/value pairs), a
    [malloc] that succeeds, and a dispatch callback that runs the chunks
    in order and counts its calls in [info]. *)

Module Fixtures.

Definition hap : hap_h :=
  {| HapTextureFormat_RGB_DXT1 := 0x83F0;
     HapTextureFormat_RGBA_DXT5 := 0x83F3;
     HapTextureFormat_YCoCg_DXT5 := 0x01;
     HapCompressorNone := 0;
     HapCompressorSnappy := 1 |}.

Fixpoint rle (x : list byte) : list byte :=
  match x with
  | [] => []
  | b :: x' =>
    match rle x' with
    | n :: b' :: r =>
      if Byte.eqb b b' && (byte.unsigned n <? 255)
      then byte.of_Z (byte.unsigned n + 1) :: b' :: r
      else Byte.x01 :: b :: n :: b' :: r
    | r => Byte.x01 :: b :: r
    end
  end.

Fixpoint unrle (c : list byte) : list byte :=
  match c with
  | n :: b :: r => repeat b (Z.to_nat (byte.unsigned n)) ++ unrle r
  | _ => []
  end.

Definition snappy : snappy_c :=
  {| snappy_max_compressed_length := fun n => 1 + 2 * n;
     snappy_compress := fun x capacity =>
       if capacity <? 1 + 2 * len x then (SNAPPY_BUFFER_TOO_SMALL, [])
       else if len x >? 255 then (SNAPPY_INVALID_INPUT, [])
       else (SNAPPY_OK, byte.of_Z (len x) :: rle x);
     snappy_uncompressed_length := fun c =>
       match c with
       | [] => (SNAPPY_INVALID_INPUT, 0)
       | n :: _ => (SNAPPY_OK, byte.unsigned n)
       end;
     snappy_uncompress := fun c capacity =>
       match c with
       | [] => (SNAPPY_INVALID_INPUT, [])
       | n :: r =>
         if capacity <? byte.unsigned n then (SNAPPY_BUFFER_TOO_SMALL, [])
         else if len (unrle r) =? byte.unsigned n then (SNAPPY_OK, unrle r)
         else (SNAPPY_INVALID_INPUT, [])
       end |}.

Definition libc : stdlib_h := {| malloc_succeeds := fun _ => true |}.

Fixpoint run_chunks (work : HapDecodeWorkFunction) (n : nat) (i : Z) (p : decode_store)
  : exec decode_store :=
  match n with
  | O => Done p
  | Datatypes.S n => p <- work p i ;; run_chunks work n (i + 1) p
  end.

Definition callback : HapDecodeCallback nat :=
  fun work p count calls =>
    p <- run_chunks work (Z.to_nat count) 0 p ;;
    Done (p, Datatypes.S calls).

Definition memory (out : list byte) : decode_memory nat :=
  {| outputBuffer := Some out;
     outputBufferBytesUsed := Some 0;
     outputBufferTextureFormat := Some 0;
     info := O |}.

Definition zeros (n : nat) : list byte := repeat Byte.x00 n.

Definition ramp : list byte := [Byte.x01; Byte.x02; Byte.x03; Byte.x04; Byte.x05].

Definition empty_tables : list child_section :=
  [ {| child_header_length := 8; child_type := 2; child_payload := [] |};
    {| child_header_length := 8; child_type := 3; child_payload := [] |} ].

Definition one_offset : child_section :=
  {| child_header_length := 4; child_type := 4;
     child_payload := [Byte.x00; Byte.x00; Byte.x00; Byte.x00] |}.

Definition uneven_tables : list child_section :=
  [ {| child_header_length := 4; child_type := 2;
       child_payload := [Byte.x0a; Byte.x0b] |};
    {| child_header_length := 4; child_type := 3;
       child_payload := [Byte.x03; Byte.x00; Byte.x00; Byte.x00] |} ].

Definition two_chunks : list byte :=
  [ Byte.x1e; Byte.x00; Byte.x00; Byte.xcb;
    Byte.x12; Byte.x00; Byte.x00; Byte.x01;
    Byte.x02; Byte.x00; Byte.x00; Byte.x02; Byte.x0a; Byte.x0b;
    Byte.x08; Byte.x00; Byte.x00; Byte.x03;
    Byte.x03; Byte.x00; Byte.x00; Byte.x00; Byte.x03; Byte.x00; Byte.x00; Byte.x00;
    Byte.x11; Byte.x22; Byte.x33; Byte.x04; Byte.x04; Byte.x00; Byte.x77; Byte.x77 ].

End Fixtures.

(** ** Frames in chunks

    A Complex frame without an offset table: the compressor table holds
    one code per chunk, the size table one little-endian 32-bit size per
    chunk, and the stored chunks follow the container one after the
    other.  [descriptors] lists the entries of the chunk table that
    [HapDecode] builds for such a frame, and [sequential_callback] is a
    callback that runs the work function on the indices in order. *)

Record stored_chunk : Type := {
  chunk_code : Z;
  chunk_stored : list byte
}.

Definition le32_bytes (v : Z) : list byte :=
  [ byte.of_Z (Z.land v 0xFF);
    byte.of_Z (Z.land (Z.shiftr v 8) 0xFF);
    byte.of_Z (Z.land (Z.shiftr v 16) 0xFF);
    byte.of_Z (Z.land (Z.shiftr v 24) 0xFF) ].

Definition compressor_table (chunks : list stored_chunk) : list byte :=
  map (fun c => byte.of_Z (chunk_code c)) chunks.

Definition size_table (chunks : list stored_chunk) : list byte :=
  flat_map (fun c => le32_bytes (len (chunk_stored c))) chunks.

Definition chunk_data (chunks : list stored_chunk) : list byte :=
  flat_map chunk_stored chunks.

Definition chunked_children (hl_c hl_s : Z) (chunks : list stored_chunk)
  : list child_section :=
  [ {| child_header_length := hl_c;
       child_type := kHapSectionChunkSecondStageCompressorTable;
       child_payload := compressor_table chunks |};
    {| child_header_length := hl_s;
       child_type := kHapSectionChunkSizeTable;
       child_payload := size_table chunks |} ].

Definition chunk_decodes {S : snappy_c} (c : stored_chunk) (x : list byte) : Prop :=
  (chunk_code c = kHapCompressorNone /\ x = chunk_stored c) \/
  (chunk_code c = kHapCompressorSnappy /\
   snappy_uncompressed_length (chunk_stored c) = (SNAPPY_OK, len x) /\
   snappy_uncompress (chunk_stored c) (len x) = (SNAPPY_OK, x)).

Fixpoint descriptors (chunks : list stored_chunk) (contents : list (list byte))
    (data out : Z) (r : option HapResult) : list HapChunkDecodeInfo :=
  match chunks, contents with
  | c :: chunks, x :: contents =>
    {| result := r;
       compressor := chunk_code c;
       compressed_chunk_data := data;
       compressed_chunk_size := len (chunk_stored c);
       uncompressed_chunk_data := out;
       uncompressed_chunk_size := len x |}
    :: descriptors chunks contents (data + len (chunk_stored c)) (out + len x) r
  | _, _ => []
  end.

Fixpoint run_in_order (work : HapDecodeWorkFunction) (n : nat) (i : Z) (p : decode_store)
  : exec decode_store :=
  match n with
  | O => Done p
  | Datatypes.S n => p <- work p i ;; run_in_order work n (i + 1) p
  end.

Definition sequential_callback {Info : Type} (next : Info -> Info) : HapDecodeCallback Info :=
  fun work p count i =>
    p <- run_in_order work (Z.to_nat count) 0 p ;;
    Done (p, next i).

(** ** Further instances *)

Definition mixed_results : list HapChunkDecodeInfo :=
  [ {| result := Some HapResult_No_Error; compressor := 10; compressed_chunk_data := 0;
       compressed_chunk_size := 1; uncompressed_chunk_data := 0;
       uncompressed_chunk_size := 1 |};
    {| result := Some HapResult_Internal_Error; compressor := 11;
       compressed_chunk_data := 1; compressed_chunk_size := 1;
       uncompressed_chunk_data := 1; uncompressed_chunk_size := 1 |};
    {| result := Some HapResult_Bad_Frame; compressor := 12; compressed_chunk_data := 2;
       compressed_chunk_size := 1; uncompressed_chunk_data := 2;
       uncompressed_chunk_size := 1 |} ].

Definition sample_chunks : list stored_chunk :=
  [ {| chunk_code := kHapCompressorNone;
       chunk_stored := [Byte.x11; Byte.x22; Byte.x33] |};
    {| chunk_code := kHapCompressorSnappy;
       chunk_stored := [Byte.x04; Byte.x04; Byte.x77] |} ].

Definition sample_contents : list (list byte) :=
  [ [Byte.x11; Byte.x22; Byte.x33]; [Byte.x77; Byte.x77; Byte.x77; Byte.x77] ].

(** A compressor that never gains: it returns its input. *)
Definition no_gain : snappy_c :=
  {| snappy_max_compressed_length := fun n => n;
     snappy_compress := fun x _ => (SNAPPY_OK, x);
     snappy_uncompressed_length := fun c => (SNAPPY_OK, len c);
     snappy_uncompress := fun c _ => (SNAPPY_OK, c) |}.

(** An image of [n] zero bytes. *)
Definition image_of_length (n : Z) : list byte := repeat Byte.x00 (Z.to_nat n).

Definition no_memory : stdlib_h := {| malloc_succeeds := fun _ => false |}.

Definition sample_store : decode_store :=
  {| chunk_info := descriptors sample_chunks sample_contents 26 0 None;
     output := Fixtures.zeros 8 |}.

(** * Properties *)

(** ** Tests on integers *)

Ltac ztest :=
  repeat match goal with
    | |- context [Z.leb ?a ?b] =>
      first [ rewrite (proj2 (Z.leb_le a b)) by lia | rewrite (proj2 (Z.leb_gt a b)) by lia ]
    | |- context [Z.ltb ?a ?b] =>
      first [ rewrite (proj2 (Z.ltb_lt a b)) by lia | rewrite (proj2 (Z.ltb_ge a b)) by lia ]
    | |- context [Z.eqb ?a ?b] =>
      first [ rewrite (proj2 (Z.eqb_eq a b)) by lia | rewrite (proj2 (Z.eqb_neq a b)) by lia ]
    | |- context [Z.gtb ?a ?b] => rewrite (Z.gtb_ltb a b)
    | |- context [Z.geb ?a ?b] => rewrite (Z.geb_leb a b)
    end;
  cbn [andb orb negb].

(** ** Memory accesses *)

Lemma len_nil : len [] = 0.
Proof. reflexivity. Qed.

Lemma len_cons (b : byte) (a : list byte) : len (b :: a) = 1 + len a.
Proof. unfold len. cbn [length]. lia. Qed.

Lemma len_app (a b : list byte) : len (a ++ b) = len a + len b.
Proof. unfold len. rewrite length_app. lia. Qed.

Lemma len_nonneg (a : list byte) : 0 <= len a.
Proof. unfold len. lia. Qed.

Lemma firstn_len_app (a b : list byte) : firstn (Z.to_nat (len a)) (a ++ b) = a.
Proof.
  unfold len. rewrite Nat2Z.id, firstn_app, firstn_all, Nat.sub_diag.
  cbn [firstn]. apply app_nil_r.
Qed.

Lemma skipn_len_app (a b : list byte) : skipn (Z.to_nat (len a)) (a ++ b) = b.
Proof.
  unfold len. rewrite Nat2Z.id, skipn_app, skipn_all, Nat.sub_diag. reflexivity.
Qed.

Lemma load_at (n : Z) (a : list byte) (b : byte) (c : list byte) :
  len a = n -> load (a ++ b :: c) n = Done (byte.unsigned b).
Proof.
  unfold load. intros <-. pose proof (len_nonneg a). ztest.
  unfold len. rewrite Nat2Z.id, nth_error_app2 by lia.
  now rewrite Nat.sub_diag.
Qed.

Lemma load_app (pre l : list byte) (k : Z) :
  0 <= k -> load (pre ++ l) (len pre + k) = load l k.
Proof.
  unfold load. intros Hk. pose proof (len_nonneg pre). ztest.
  unfold len in *. rewrite nth_error_app2 by lia.
  replace (Z.to_nat (Z.of_nat (length pre) + k) - length pre)%nat with (Z.to_nat k) by lia.
  reflexivity.
Qed.

Lemma store_at (n : Z) (a : list byte) (b : byte) (c : list byte) (v : Z) :
  len a = n -> store (a ++ b :: c) n v = Done (a ++ byte.of_Z v :: c).
Proof.
  unfold store. intros <-. rewrite len_app, len_cons.
  pose proof (len_nonneg a). pose proof (len_nonneg c). ztest.
  rewrite firstn_len_app. do 2 f_equal.
  change (S (Z.to_nat (len a))) with (1 + Z.to_nat (len a))%nat.
  rewrite <- skipn_skipn, skipn_len_app. reflexivity.
Qed.

Lemma load_bytes_at (pre data post : list byte) :
  load_bytes (pre ++ data ++ post) (len pre) (len data) = Done data.
Proof.
  unfold load_bytes. rewrite !len_app.
  pose proof (len_nonneg pre). pose proof (len_nonneg data). pose proof (len_nonneg post).
  ztest. now rewrite skipn_len_app, firstn_len_app.
Qed.

Lemma load_bytes_all (data : list byte) :
  load_bytes data 0 (len data) = Done data.
Proof.
  pose proof (load_bytes_at [] data []) as E. cbn [app] in E.
  rewrite app_nil_r in E. exact E.
Qed.

Lemma store_bytes_at (pre old post data : list byte) :
  len old = len data ->
  store_bytes (pre ++ old ++ post) (len pre) data = Done (pre ++ data ++ post).
Proof.
  unfold store_bytes. intros E. rewrite !len_app, E.
  pose proof (len_nonneg pre). pose proof (len_nonneg data). pose proof (len_nonneg post).
  ztest. rewrite firstn_len_app. do 3 f_equal.
  rewrite <- E, <- len_app, app_assoc. apply skipn_len_app.
Qed.

(** A store of [data] at [p] keeps the length and puts [data] at [p]. *)
Lemma store_bytes_split (mem : list byte) (p : Z) (data : list byte) :
  0 <= p -> p + len data <= len mem ->
  exists pre old post,
    mem = pre ++ old ++ post /\ len pre = p /\ len old = len data /\
    store_bytes mem p data = Done (pre ++ data ++ post).
Proof.
  intros Hp Hle.
  set (pre := firstn (Z.to_nat p) mem).
  set (old := firstn (Z.to_nat (len data)) (skipn (Z.to_nat p) mem)).
  set (post := skipn (Z.to_nat (len data)) (skipn (Z.to_nat p) mem)).
  assert (E : mem = pre ++ old ++ post).
  { unfold pre, old, post. now rewrite !firstn_skipn. }
  assert (L1 : len pre = p).
  { unfold pre, len in *. rewrite length_firstn. lia. }
  assert (L2 : len old = len data).
  { unfold old, len in *. rewrite length_firstn, length_skipn. lia. }
  clearbody pre old post. subst mem p.
  exists pre, old, post. repeat split; try assumption.
  now apply store_bytes_at.
Qed.

Lemma store_0 (b0 : byte) (r : list byte) (v : Z) :
  store (b0 :: r) 0 v = Done (byte.of_Z v :: r).
Proof. exact (store_at 0 [] b0 r v eq_refl). Qed.

Lemma load_0 (b0 : byte) (r : list byte) :
  load (b0 :: r) 0 = Done (byte.unsigned b0).
Proof. exact (load_at 0 [] b0 r eq_refl). Qed.

Lemma store_1 (b0 b1 : byte) (r : list byte) (v : Z) :
  store (b0 :: b1 :: r) 1 v = Done (b0 :: byte.of_Z v :: r).
Proof. exact (store_at 1 [b0] b1 r v eq_refl). Qed.

Lemma load_1 (b0 b1 : byte) (r : list byte) :
  load (b0 :: b1 :: r) 1 = Done (byte.unsigned b1).
Proof. exact (load_at 1 [b0] b1 r eq_refl). Qed.

Lemma store_2 (b0 b1 b2 : byte) (r : list byte) (v : Z) :
  store (b0 :: b1 :: b2 :: r) 2 v = Done (b0 :: b1 :: byte.of_Z v :: r).
Proof. exact (store_at 2 [b0; b1] b2 r v eq_refl). Qed.

Lemma load_2 (b0 b1 b2 : byte) (r : list byte) :
  load (b0 :: b1 :: b2 :: r) 2 = Done (byte.unsigned b2).
Proof. exact (load_at 2 [b0; b1] b2 r eq_refl). Qed.

Lemma store_3 (b0 b1 b2 b3 : byte) (r : list byte) (v : Z) :
  store (b0 :: b1 :: b2 :: b3 :: r) 3 v = Done (b0 :: b1 :: b2 :: byte.of_Z v :: r).
Proof. exact (store_at 3 [b0; b1; b2] b3 r v eq_refl). Qed.

Lemma load_3 (b0 b1 b2 b3 : byte) (r : list byte) :
  load (b0 :: b1 :: b2 :: b3 :: r) 3 = Done (byte.unsigned b3).
Proof. exact (load_at 3 [b0; b1; b2] b3 r eq_refl). Qed.

Lemma store_4 (b0 b1 b2 b3 b4 : byte) (r : list byte) (v : Z) :
  store (b0 :: b1 :: b2 :: b3 :: b4 :: r) 4 v = Done (b0 :: b1 :: b2 :: b3 :: byte.of_Z v :: r).
Proof. exact (store_at 4 [b0; b1; b2; b3] b4 r v eq_refl). Qed.

Lemma load_4 (b0 b1 b2 b3 b4 : byte) (r : list byte) :
  load (b0 :: b1 :: b2 :: b3 :: b4 :: r) 4 = Done (byte.unsigned b4).
Proof. exact (load_at 4 [b0; b1; b2; b3] b4 r eq_refl). Qed.

Lemma store_5 (b0 b1 b2 b3 b4 b5 : byte) (r : list byte) (v : Z) :
  store (b0 :: b1 :: b2 :: b3 :: b4 :: b5 :: r) 5 v = Done (b0 :: b1 :: b2 :: b3 :: b4 :: byte.of_Z v :: r).
Proof. exact (store_at 5 [b0; b1; b2; b3; b4] b5 r v eq_refl). Qed.

Lemma load_5 (b0 b1 b2 b3 b4 b5 : byte) (r : list byte) :
  load (b0 :: b1 :: b2 :: b3 :: b4 :: b5 :: r) 5 = Done (byte.unsigned b5).
Proof. exact (load_at 5 [b0; b1; b2; b3; b4] b5 r eq_refl). Qed.

Lemma store_6 (b0 b1 b2 b3 b4 b5 b6 : byte) (r : list byte) (v : Z) :
  store (b0 :: b1 :: b2 :: b3 :: b4 :: b5 :: b6 :: r) 6 v = Done (b0 :: b1 :: b2 :: b3 :: b4 :: b5 :: byte.of_Z v :: r).
Proof. exact (store_at 6 [b0; b1; b2; b3; b4; b5] b6 r v eq_refl). Qed.

Lemma load_6 (b0 b1 b2 b3 b4 b5 b6 : byte) (r : list byte) :
  load (b0 :: b1 :: b2 :: b3 :: b4 :: b5 :: b6 :: r) 6 = Done (byte.unsigned b6).
Proof. exact (load_at 6 [b0; b1; b2; b3; b4; b5] b6 r eq_refl). Qed.

Lemma store_7 (b0 b1 b2 b3 b4 b5 b6 b7 : byte) (r : list byte) (v : Z) :
  store (b0 :: b1 :: b2 :: b3 :: b4 :: b5 :: b6 :: b7 :: r) 7 v = Done (b0 :: b1 :: b2 :: b3 :: b4 :: b5 :: b6 :: byte.of_Z v :: r).
Proof. exact (store_at 7 [b0; b1; b2; b3; b4; b5; b6] b7 r v eq_refl). Qed.

Lemma load_7 (b0 b1 b2 b3 b4 b5 b6 b7 : byte) (r : list byte) :
  load (b0 :: b1 :: b2 :: b3 :: b4 :: b5 :: b6 :: b7 :: r) 7 = Done (byte.unsigned b7).
Proof. exact (load_at 7 [b0; b1; b2; b3; b4; b5; b6] b7 r eq_refl). Qed.

Lemma load_shift (pre l : list byte) (p k : Z) :
  p = len pre + k -> 0 <= k -> load (pre ++ l) p = load l k.
Proof. intros -> Hk. now apply load_app. Qed.

(** ** Little-endian values *)

Lemma byte_of_land (v : Z) : byte.unsigned (byte.of_Z (Z.land v 0xFF)) = v mod 256.
Proof.
  rewrite byte.unsigned_of_Z. unfold byte.wrap.
  change 255 with (Z.ones 8). rewrite Z.land_ones by lia.
  change (2 ^ 8) with 256. now rewrite Z.mod_mod by lia.
Qed.

Lemma le_value_3 (v : Z) :
  0 <= v < 2 ^ 24 ->
  to_uint32 (byte.unsigned (byte.of_Z (Z.land v 0xFF))
             + Z.shiftl (byte.unsigned (byte.of_Z (Z.land (Z.shiftr v 8) 0xFF))) 8
             + Z.shiftl (byte.unsigned (byte.of_Z (Z.land (Z.shiftr v 16) 0xFF))) 16) = v.
Proof.
  intros Hv. rewrite !byte_of_land.
  rewrite !Z.shiftr_div_pow2, !Z.shiftl_mul_pow2 by lia.
  unfold to_uint32.
  change (2 ^ 8) with 256. change (2 ^ 16) with 65536.
  change (2 ^ 24) with 16777216 in Hv. change (2 ^ 32) with 4294967296.
  Z.div_mod_to_equations. lia.
Qed.

Lemma le_value_4 (v : Z) :
  0 <= v < 2 ^ 32 ->
  to_uint32 (byte.unsigned (byte.of_Z (Z.land v 0xFF))
             + Z.shiftl (byte.unsigned (byte.of_Z (Z.land (Z.shiftr v 8) 0xFF))) 8
             + Z.shiftl (byte.unsigned (byte.of_Z (Z.land (Z.shiftr v 16) 0xFF))) 16
             + Z.shiftl (byte.unsigned (byte.of_Z (Z.land (Z.shiftr v 24) 0xFF))) 24) = v.
Proof.
  intros Hv. rewrite !byte_of_land.
  rewrite !Z.shiftr_div_pow2, !Z.shiftl_mul_pow2 by lia.
  unfold to_uint32.
  change (2 ^ 8) with 256. change (2 ^ 16) with 65536. change (2 ^ 24) with 16777216.
  change (2 ^ 32) with 4294967296 in *.
  Z.div_mod_to_equations. lia.
Qed.

Lemma len_section_header_bytes (hl sl ty : Z) :
  hl = 4 \/ hl = 8 -> len (section_header_bytes hl sl ty) = hl.
Proof. intros [-> | ->]; reflexivity. Qed.

Lemma hap_write_section_header_bytes (mem : list byte) (hl sl ty : Z) :
  hl = 4 \/ hl = 8 -> hl <= len mem ->
  hap_write_section_header mem 0 hl sl ty
  = Done (section_header_bytes hl sl ty ++ skipn (Z.to_nat hl) mem).
Proof.
  intros Hhl Hlen.
  destruct mem as [|b0 [|b1 [|b2 [|b3 mem]]]];
    repeat rewrite ?len_cons, ?len_nil in Hlen; try lia.
  destruct Hhl as [-> | ->].
  - unfold hap_write_section_header, hap_write_3_byte_uint, section_header_bytes.
    cbn [Z.eqb Pos.eqb Z.add].
    rewrite store_0. cbn [bind app].
    rewrite store_1. cbn [bind app].
    rewrite store_2. cbn [bind app].
    rewrite store_3. reflexivity.
  - destruct mem as [|b4 [|b5 [|b6 [|b7 mem]]]];
      repeat rewrite ?len_cons, ?len_nil in Hlen; try lia.
    unfold hap_write_section_header, hap_write_3_byte_uint, hap_write_4_byte_uint,
      section_header_bytes.
    cbn [Z.eqb Pos.eqb Z.add Pos.add Pos.succ].
    rewrite store_0. cbn [bind app].
    rewrite store_1. cbn [bind app].
    rewrite store_2. cbn [bind app].
    rewrite store_4. cbn [bind app].
    rewrite store_5. cbn [bind app].
    rewrite store_6. cbn [bind app].
    rewrite store_7. cbn [bind app].
    rewrite store_3. reflexivity.
Qed.

Lemma hap_read_section_header_app (pre l : list byte) (n : Z) (out : section_vars) :
  hap_read_section_header (pre ++ l) (len pre) n out = hap_read_section_header l 0 n out.
Proof.
  unfold hap_read_section_header, hap_read_3_byte_uint, hap_read_4_byte_uint.
  rewrite (load_shift pre l (len pre) 0) by lia.
  rewrite (load_shift pre l (len pre + 1) (0 + 1)) by lia.
  rewrite (load_shift pre l (len pre + 2) (0 + 2)) by lia.
  rewrite (load_shift pre l (len pre + 3) (0 + 3)) by lia.
  rewrite (load_shift pre l (len pre + 4) (0 + 4)) by lia.
  rewrite (load_shift pre l (len pre + 4 + 1) (0 + 4 + 1)) by lia.
  rewrite (load_shift pre l (len pre + 4 + 2) (0 + 4 + 2)) by lia.
  rewrite (load_shift pre l (len pre + 4 + 3) (0 + 4 + 3)) by lia.
  reflexivity.
Qed.

Lemma hap_read_section_header_bytes (hl sl ty : Z) (post : list byte) (n : Z)
    (out : section_vars) :
  header_fits hl sl -> 0 <= ty < 256 -> hl <= n ->
  hap_read_section_header (section_header_bytes hl sl ty ++ post) 0 n out
  = Done (if to_uint32 (hl + sl) >? n then HapResult_Bad_Frame else HapResult_No_Error,
          {| sectionHeaderLength := hl; sectionLength := sl; sectionType := ty |}).
Proof.
  unfold header_fits, kHapUInt24Max. intros Hfit Hty Hn.
  assert (Ety : byte.unsigned (byte.of_Z ty) = ty).
  { rewrite byte.unsigned_of_Z. unfold byte.wrap. apply Z.mod_small. lia. }
  destruct Hfit as [[-> Hsl] | [-> Hsl]].
  - remember (to_uint32 (4 + sl) >? n) as t.
    unfold section_header_bytes, hap_read_section_header, hap_read_3_byte_uint.
    change (4 =? 4) with true. cbv iota. cbn [app].
    change (0 + 1) with 1. change (0 + 2) with 2. change (0 + 3) with 3.
    rewrite load_0, load_1, load_2, load_3. cbn [bind].
    rewrite le_value_3 by lia. rewrite Ety. ztest.
    rewrite Z.gtb_ltb in Heqt. rewrite <- Heqt. destruct t; reflexivity.
  - remember (to_uint32 (8 + sl) >? n) as t.
    unfold section_header_bytes, hap_read_section_header, hap_read_3_byte_uint,
      hap_read_4_byte_uint.
    change (8 =? 4) with false. cbv iota. cbn [app].
    change (0 + 1) with 1. change (0 + 2) with 2. change (0 + 3) with 3.
    change (0 + 4) with 4. change (4 + 1) with 5. change (4 + 2) with 6.
    change (4 + 3) with 7.
    rewrite load_0, load_1, load_2, load_3, load_4, load_5, load_6, load_7. cbn [bind].
    rewrite le_value_3 by (cbn; lia). rewrite le_value_4 by lia. rewrite Ety. ztest.
    rewrite Z.gtb_ltb in Heqt. rewrite <- Heqt. destruct t; reflexivity.
Qed.

(** ** Type bytes and format identifiers *)

Lemma packed_byte_nibbles (c f : Z) :
  is_compressor_code c -> is_format_code f ->
  0 <= hap_4_bit_packed_byte c f < 256 /\
  hap_top_4_bits (hap_4_bit_packed_byte c f) = c /\
  hap_bottom_4_bits (hap_4_bit_packed_byte c f) = f.
Proof.
  intros [-> | [-> | ->]] [-> | [-> | ->]]; vm_compute; intuition congruence.
Qed.

Section FormatFacts.
Context {H : hap_h}.
Hypothesis Hok : hap_h_ok H = true.

Lemma hap_h_ok_facts :
  HapTextureFormat_RGB_DXT1 <> 0 /\ HapTextureFormat_RGBA_DXT5 <> 0 /\
  HapTextureFormat_YCoCg_DXT5 <> 0 /\
  HapTextureFormat_RGB_DXT1 <> HapTextureFormat_RGBA_DXT5 /\
  HapTextureFormat_RGB_DXT1 <> HapTextureFormat_YCoCg_DXT5 /\
  HapTextureFormat_RGBA_DXT5 <> HapTextureFormat_YCoCg_DXT5 /\
  HapCompressorNone <> HapCompressorSnappy.
Proof.
  unfold hap_h_ok in Hok.
  repeat (apply andb_prop in Hok; destruct Hok as [Hok ?]).
  repeat match goal with
         | X : negb (_ =? _) = true |- _ =>
           apply negb_true_iff, Z.eqb_neq in X
         end.
  repeat split; assumption.
Qed.

Lemma format_identifier_of_constant (t : Z) :
  is_texture_format t ->
  is_format_code (hap_texture_format_identifier_for_format_constant t) /\
  hap_texture_format_constant_for_format_identifier
    (hap_texture_format_identifier_for_format_constant t) = t.
Proof.
  pose proof hap_h_ok_facts as (? & ? & ? & ? & ? & ? & ?).
  unfold is_texture_format, is_format_code,
    hap_texture_format_identifier_for_format_constant,
    hap_texture_format_constant_for_format_identifier.
  intros [-> | [-> | ->]]; ztest; cbn; auto.
Qed.

Lemma format_constant_nonzero (f : Z) :
  is_format_code f -> hap_texture_format_constant_for_format_identifier f <> 0.
Proof.
  pose proof hap_h_ok_facts as (? & ? & ? & ? & ? & ? & ?).
  unfold is_format_code, hap_texture_format_constant_for_format_identifier.
  intros [-> | [-> | ->]]; cbn; assumption.
Qed.
End FormatFacts.

(** ** The encoder's output *)

Section EncoderFacts.
Context {H : hap_h} {S : snappy_c}.

Lemma HapEncode_headerLength_cases (n : Z) :
  HapEncode_headerLength n = 4 \/ HapEncode_headerLength n = 8.
Proof. unfold HapEncode_headerLength. destruct (n >? kHapUInt24Max); auto. Qed.

Lemma HapEncode_maxCompressedLength_ge (c n : Z) :
  n <= HapEncode_maxCompressedLength c n.
Proof.
  unfold HapEncode_maxCompressedLength.
  destruct (c =? HapCompressorSnappy);
    match goal with |- context [?a <? ?b] => destruct (Z.ltb_spec a b) end; lia.
Qed.

(** The input is stored as it is, under a header that names no
    compressor. *)
Lemma HapEncode_store_raw (x : list byte) (tf : Z) (dst : list byte) (hl s : Z)
    (sc used : option Z) :
  hl = 4 \/ hl = 8 -> hl + len x <= len dst -> s = 0 \/ len x <= s ->
  exists tail,
    HapEncode_store x (len x) tf dst hl s sc used
    = Done (HapResult_No_Error,
            Some (section_header_bytes hl (to_uint32 (len x))
                    (hap_4_bit_packed_byte kHapCompressorNone
                       (hap_texture_format_identifier_for_format_constant tf))
                  ++ x ++ tail),
            option_map (fun _ => to_size_t (len x + hl)) used)
    /\ hl + len x + len tail = len dst.
Proof.
  intros Hhl Hfit Hs.
  destruct (store_bytes_split dst hl x) as (pre & old & post & -> & Lpre & Lold & E);
    [lia | lia |].
  exists post. unfold HapEncode_store.
  replace ((s =? 0) || (s >=? len x)) with true
    by (symmetry; apply orb_true_iff; destruct Hs; [left | right]; ztest; lia).
  rewrite load_bytes_all. cbn [bind]. rewrite E. cbn [bind].
  rewrite hap_write_section_header_bytes;
    [| assumption | rewrite len_app; pose proof (len_nonneg (x ++ post)); lia].
  rewrite <- Lpre, skipn_len_app. cbn [bind]. split; [reflexivity|].
  rewrite !len_app in Hfit. rewrite !len_app in *. lia.
Qed.

(** The compressor's bytes [c], already in place behind the header,
    are kept. *)
Lemma HapEncode_store_compressed (x : list byte) (tf : Z) (pre c post : list byte)
    (used : option Z) :
  len pre = 4 \/ len pre = 8 -> 0 < len c < len x ->
  HapEncode_store x (len x) tf (pre ++ c ++ post) (len pre) (len c)
    (Some kHapCompressorSnappy) used
  = Done (HapResult_No_Error,
          Some (section_header_bytes (len pre) (to_uint32 (len c))
                  (hap_4_bit_packed_byte kHapCompressorSnappy
                     (hap_texture_format_identifier_for_format_constant tf))
                ++ c ++ post),
          option_map (fun _ => to_size_t (len c + len pre)) used).
Proof.
  intros Hhl Hc. unfold HapEncode_store. ztest. cbn [bind].
  rewrite hap_write_section_header_bytes;
    [| assumption | rewrite len_app; pose proof (len_nonneg (c ++ post)); lia].
  rewrite skipn_len_app. reflexivity.
Qed.
End EncoderFacts.

Lemma to_size_t_le (v : Z) : 0 <= v -> 0 <= to_size_t v <= v.
Proof.
  intros Hv. unfold to_size_t. split.
  - apply Z.mod_pos_bound. lia.
  - apply Z.mod_le; lia.
Qed.

Lemma to_uint32_small (v : Z) : 0 <= v < 2 ^ 32 -> to_uint32 v = v.
Proof. intros Hv. unfold to_uint32. now apply Z.mod_small. Qed.

Lemma to_size_t_small (v : Z) : 0 <= v < 2 ^ 64 -> to_size_t v = v.
Proof. intros Hv. unfold to_size_t. now apply Z.mod_small. Qed.

Section EncodeResult.
Context {H : hap_h} {S : snappy_c}.
Hypothesis Hok : hap_h_ok H = true.

Lemma HapEncode_success (x : list byte) (tf compressor : Z) (dst : list byte)
    (used : option Z) :
  0 < len x -> is_texture_format tf ->
  compressor = HapCompressorNone \/ compressor = HapCompressorSnappy ->
  HapEncode_headerLength (len x) + HapEncode_maxCompressedLength compressor (len x)
  <= len dst ->
  compressor_obliges compressor x (len dst) ->
  let hl := HapEncode_headerLength (len x) in
  let sc := fst (stored_frame compressor x (len dst)) in
  let payload := snd (stored_frame compressor x (len dst)) in
  exists tail,
    HapEncode (Some x) (len x) tf compressor (Some dst) (len dst) used
    = Done (HapResult_No_Error,
            Some (section_header_bytes hl (to_uint32 (len payload))
                    (hap_4_bit_packed_byte sc
                       (hap_texture_format_identifier_for_format_constant tf))
                  ++ payload ++ tail),
            option_map (fun _ => to_size_t (len payload + hl)) used)
    /\ hl + len payload + len tail = len dst.
Proof.
  intros Hx Htf Hc Hcap Hsn hl sc payload.
  pose proof (hap_h_ok_facts Hok) as (? & ? & ? & ? & ? & ? & ?).
  pose proof (HapEncode_headerLength_cases (len x)) as Hhl. fold hl in Hhl, Hcap.
  pose proof (HapEncode_maxCompressedLength_ge compressor (len x)) as Hmax.
  assert (Hsz : 0 <= to_size_t (HapEncode_maxCompressedLength compressor (len x) + hl)
                <= HapEncode_maxCompressedLength compressor (len x) + hl)
    by (apply to_size_t_le; lia).
  unfold HapEncode. fold hl.
  replace (negb (tf =? HapTextureFormat_RGB_DXT1) && negb (tf =? HapTextureFormat_RGBA_DXT5)
           && negb (tf =? HapTextureFormat_YCoCg_DXT5)) with false
    by (destruct Htf as [-> | [-> | ->]]; ztest; reflexivity).
  replace (negb (compressor =? HapCompressorNone) && negb (compressor =? HapCompressorSnappy))
    with false by (destruct Hc as [-> | ->]; ztest; reflexivity).
  ztest.
  unfold sc, payload, stored_frame.
  destruct Hc as [-> | ->].
  - ztest.
    destruct (HapEncode_store_raw x tf dst hl 0 None used) as (tail & E & L);
      [assumption | lia | auto |].
    exists tail. cbn [fst snd]. split; assumption.
  - ztest. rewrite load_bytes_all. cbn [bind].
    destruct (Hsn eq_refl) as [Hst Hlen].
    destruct (snappy_compress x (len dst)) as [st c]. cbn [fst snd] in *. subst st.
    pose proof (len_nonneg c).
    destruct (store_bytes_split dst hl c) as (pre & old & post & -> & Lpre & Lold & E);
      [lia | lia |].
    rewrite E. cbn [bind snappy_is_ok negb].
    destruct ((len c =? 0) || (len x <=? len c)) eqn:Efall.
    + destruct (HapEncode_store_raw x tf (pre ++ c ++ post) hl (len c)
                  (Some kHapCompressorSnappy) used) as (tail & E' & L).
      * assumption.
      * rewrite !len_app in *. lia.
      * apply orb_true_iff in Efall. destruct Efall as [F | F];
          [left; now apply Z.eqb_eq | right; now apply Z.leb_le].
      * exists tail. cbn [fst snd]. split; [exact E'|].
        rewrite !len_app in *. lia.
    + apply orb_false_iff in Efall. destruct Efall as [F1 F2].
      apply Z.eqb_neq in F1. apply Z.leb_gt in F2.
      exists post. cbn [fst snd]. rewrite <- Lpre.
      rewrite HapEncode_store_compressed; [| lia | lia].
      split; [reflexivity|]. rewrite !len_app in *. lia.
Qed.
End EncodeResult.

(** ** Decoding a single-section frame *)

Lemma load_bytes_span (pre data post : list byte) (p n : Z) :
  len pre = p -> len data = n -> load_bytes (pre ++ data ++ post) p n = Done data.
Proof. intros <- <-. apply load_bytes_at. Qed.

Lemma store_bytes_0 (out data : list byte) :
  len data <= len out ->
  store_bytes out 0 data = Done (data ++ skipn (Z.to_nat (len data)) out).
Proof.
  intros Hle. unfold store_bytes. pose proof (len_nonneg data). ztest.
  reflexivity.
Qed.

Lemma read_frame_header (hl sl ty : Z) (post : list byte) (N : Z) (out : section_vars) :
  header_fits hl sl -> 0 <= ty < 256 -> hl + sl <= N < 2 ^ 32 ->
  hap_read_section_header (section_header_bytes hl sl ty ++ post) 0 (to_uint32 N) out
  = Done (HapResult_No_Error,
          {| sectionHeaderLength := hl; sectionLength := sl; sectionType := ty |}).
Proof.
  intros Hfit Hty HN.
  assert (Hb : 4 <= hl /\ 0 <= sl) by (destruct Hfit as [[-> ?] | [-> ?]]; lia).
  rewrite (to_uint32_small N) by lia.
  rewrite hap_read_section_header_bytes by (assumption || lia).
  rewrite to_uint32_small by lia. ztest. reflexivity.
Qed.

Section DecodeSimple.
Context {H : hap_h} {S : snappy_c} {L : stdlib_h} {Info : Type}.
Hypothesis Hok : hap_h_ok H = true.

Variables (hl fmt : Z) (payload tail : list byte) (N : Z).
Variables (callback : HapDecodeCallback Info) (capacity : Z) (m : decode_memory Info).
Variables (out : list byte) (old : Z).
Hypothesis Hfit : header_fits hl (len payload).
Hypothesis Hfmt : is_format_code fmt.
Hypothesis HN : hl + len payload <= N < 2 ^ 32.
Hypothesis Hout : outputBuffer m = Some out.
Hypothesis Hold : outputBufferTextureFormat m = Some old.

Lemma HapDecode_raw_frame :
  len payload <= capacity -> len payload <= len out ->
  HapDecode
    (Some (section_header_bytes hl (len payload)
             (hap_4_bit_packed_byte kHapCompressorNone fmt) ++ payload ++ tail))
    N (Some callback) capacity m
  = Done (HapResult_No_Error,
          {| outputBuffer := Some (payload ++ skipn (Z.to_nat (len payload)) out);
             outputBufferBytesUsed :=
               option_map (fun _ => len payload) (outputBufferBytesUsed m);
             outputBufferTextureFormat :=
               Some (hap_texture_format_constant_for_format_identifier fmt);
             info := info m |}).
Proof.
  intros Hcap Hlen.
  destruct (packed_byte_nibbles kHapCompressorNone fmt) as (Hty & Htop & Hbot);
    [left; reflexivity | assumption |].
  pose proof (format_constant_nonzero Hok fmt Hfmt) as Hnz.
  assert (Hhl : hl = 4 \/ hl = 8) by (destruct Hfit as [[-> _] | [-> _]]; auto).
  unfold HapDecode. rewrite Hout, Hold.
  rewrite read_frame_header by assumption. cbn [bind HapResult_eqb negb sectionType].
  rewrite Htop, Hbot. ztest.
  change (kHapCompressorNone =? kHapCompressorComplex) with false.
  change (kHapCompressorNone =? kHapCompressorSnappy) with false.
  change (kHapCompressorNone =? kHapCompressorNone) with true.
  cbv iota. cbn [sectionLength sectionHeaderLength]. ztest.
  rewrite load_bytes_span by (auto using len_section_header_bytes).
  cbn [bind]. rewrite store_bytes_0 by assumption. cbn [bind].
  unfold HapDecode_return, set_texture_format. cbn. rewrite Hold. reflexivity.
Qed.

Lemma HapDecode_snappy_frame (n : Z) (x : list byte) :
  snappy_uncompressed_length payload = (SNAPPY_OK, n) ->
  to_size_t n <= capacity ->
  snappy_uncompress payload (to_size_t n) = (SNAPPY_OK, x) ->
  len x <= len out ->
  HapDecode
    (Some (section_header_bytes hl (len payload)
             (hap_4_bit_packed_byte kHapCompressorSnappy fmt) ++ payload ++ tail))
    N (Some callback) capacity m
  = Done (HapResult_No_Error,
          {| outputBuffer := Some (x ++ skipn (Z.to_nat (len x)) out);
             outputBufferBytesUsed :=
               option_map (fun _ => len x) (outputBufferBytesUsed m);
             outputBufferTextureFormat :=
               Some (hap_texture_format_constant_for_format_identifier fmt);
             info := info m |}).
Proof.
  intros Hlen Hcap Hun Hx.
  destruct (packed_byte_nibbles kHapCompressorSnappy fmt) as (Hty & Htop & Hbot);
    [right; left; reflexivity | assumption |].
  pose proof (format_constant_nonzero Hok fmt Hfmt) as Hnz.
  assert (Hhl : hl = 4 \/ hl = 8) by (destruct Hfit as [[-> _] | [-> _]]; auto).
  unfold HapDecode. rewrite Hout, Hold.
  rewrite read_frame_header by assumption. cbn [bind HapResult_eqb negb sectionType].
  rewrite Htop, Hbot. ztest.
  change (kHapCompressorSnappy =? kHapCompressorComplex) with false.
  change (kHapCompressorSnappy =? kHapCompressorSnappy) with true.
  cbv iota. cbn [sectionLength sectionHeaderLength].
  rewrite load_bytes_span by (auto using len_section_header_bytes).
  cbn [bind]. rewrite Hlen. cbn [snappy_is_ok negb]. ztest.
  rewrite Hun. rewrite store_bytes_0 by assumption. cbn [bind snappy_is_ok negb].
  unfold HapDecode_return, set_texture_format. cbn. rewrite Hold. reflexivity.
Qed.
End DecodeSimple.

(** ** Round trip *)

Section RoundTrip.
Context {H : hap_h} {S : snappy_c} {L : stdlib_h} {Info : Type}.

Lemma stored_frame_cases (compressor : Z) (x : list byte) (capacity : Z) :
  stored_frame compressor x capacity = (kHapCompressorNone, x) \/
  (compressor = HapCompressorSnappy /\
   stored_frame compressor x capacity
   = (kHapCompressorSnappy, snd (snappy_compress x capacity)) /\
   0 < len (snd (snappy_compress x capacity)) < len x).
Proof.
  unfold stored_frame.
  destruct (Z.eqb_spec compressor HapCompressorSnappy) as [-> | _]; [|now left].
  cbv zeta. set (c := snd (snappy_compress x capacity)).
  pose proof (len_nonneg c).
  destruct (Z.eqb_spec (len c) 0); [now left|].
  destruct (Z.geb_spec (len c) (len x)); [now left|].
  right. cbn [orb]. repeat split; lia.
Qed.

(** C1: for every non-empty image [x] whose frame the 32-bit lengths of
    the format can express, every recognised texture format and both
    compressor preferences, [HapEncode] into a large enough buffer
    succeeds, and [HapDecode] of the bytes it reports, into a destination
    that can hold [x], succeeds, writes [x], reports [len x] bytes and
    reports the texture format that was encoded. *)
Theorem HapDecode_HapEncode_round_trip
    (x : list byte) (tf compressor : Z) (dst : list byte) (used : Z)
    (callback : HapDecodeCallback Info) (capacity : Z) (m : decode_memory Info)
    (out : list byte) (old : Z) :
  hap_h_ok H = true ->
  0 < len x -> len x + 8 < 2 ^ 32 ->
  is_texture_format tf ->
  compressor = HapCompressorNone \/ compressor = HapCompressorSnappy ->
  HapEncode_headerLength (len x) + HapEncode_maxCompressedLength compressor (len x)
  <= len dst ->
  compressor_obliges compressor x (len dst) ->
  compressor_inverts compressor x (len dst) ->
  outputBuffer m = Some out -> outputBufferTextureFormat m = Some old ->
  len x <= capacity -> len x <= len out ->
  exists frame n,
    HapEncode (Some x) (len x) tf compressor (Some dst) (len dst) (Some used)
    = Done (HapResult_No_Error, Some frame, Some n) /\
    HapDecode (Some frame) n (Some callback) capacity m
    = Done (HapResult_No_Error,
            {| outputBuffer := Some (x ++ skipn (Z.to_nat (len x)) out);
               outputBufferBytesUsed :=
                 option_map (fun _ => len x) (outputBufferBytesUsed m);
               outputBufferTextureFormat := Some tf;
               info := info m |}).
Proof.
  intros Hok Hx H32 Htf Hc Hcap Hobl Hinv Hout Hold Hfits Hlen.
  destruct (HapEncode_success Hok x tf compressor dst (Some used)
              Hx Htf Hc Hcap Hobl) as (tail & E & Ltail).
  destruct (format_identifier_of_constant Hok tf Htf) as [Hid Hback].
  pose proof (HapEncode_headerLength_cases (len x)) as Hhl.
  assert (Hshort : HapEncode_headerLength (len x) = 4 -> len x <= kHapUInt24Max).
  { unfold HapEncode_headerLength.
    destruct (Z.gtb_spec (len x) kHapUInt24Max); [discriminate | lia]. }
  eexists. eexists. split; [exact E|]. clear E. cbn [option_map].
  destruct (stored_frame_cases compressor x (len dst)) as [E | (-> & E & Hlc)];
    rewrite E in *; cbn [fst snd] in *.
  - rewrite to_uint32_small by lia.
    rewrite to_size_t_small by lia.
    rewrite (HapDecode_raw_frame Hok) with (out := out) (old := old); try assumption.
    + now rewrite Hback.
    + unfold header_fits. destruct Hhl as [E4 | E8]; [left | right]; lia.
    + lia.
  - set (c := snd (snappy_compress x (len dst))) in *.
    destruct (Hinv eq_refl Hlc) as [Hul Hun]. fold c in Hul, Hun.
    rewrite to_uint32_small by lia.
    rewrite to_size_t_small by lia.
    rewrite (HapDecode_snappy_frame Hok) with (out := out) (old := old)
                                              (n := len x) (x := x);
      try assumption.
    + now rewrite Hback.
    + unfold header_fits. destruct Hhl as [E4 | E8]; [left | right]; lia.
    + lia.
    + rewrite to_size_t_small by lia. assumption.
    + rewrite to_size_t_small by lia. assumption.
Qed.
End RoundTrip.

(** ** What the encoder stores *)

Section EncoderClaims.
Context {H : hap_h} {S : snappy_c}.

Lemma read_encoded_header (hl sc tf : Z) (payload tail : list byte) :
  hap_h_ok H = true -> is_texture_format tf ->
  sc = kHapCompressorNone \/ sc = kHapCompressorSnappy ->
  header_fits hl (len payload) -> hl + len payload < 2 ^ 32 ->
  exists ty,
    hap_read_section_header
      (section_header_bytes hl (to_uint32 (len payload))
         (hap_4_bit_packed_byte sc (hap_texture_format_identifier_for_format_constant tf))
       ++ payload ++ tail)
      0 (to_uint32 (hl + len payload)) section_vars_unset
    = Done (HapResult_No_Error,
            {| sectionHeaderLength := hl; sectionLength := len payload;
               sectionType := ty |})
    /\ hap_top_4_bits ty = sc
    /\ hap_texture_format_constant_for_format_identifier (hap_bottom_4_bits ty) = tf.
Proof.
  intros Hok Htf Hsc Hfit H32.
  destruct (format_identifier_of_constant Hok tf Htf) as [Hid Hback].
  destruct (packed_byte_nibbles sc (hap_texture_format_identifier_for_format_constant tf))
    as (Hty & Htop & Hbot);
    [destruct Hsc as [-> | ->]; [left | right; left]; reflexivity | assumption |].
  assert (0 <= len payload < 2 ^ 32)
    by (pose proof (len_nonneg payload); destruct Hfit as [[-> ?] | [-> ?]]; lia).
  eexists. rewrite to_uint32_small by assumption.
  rewrite read_frame_header by (assumption || lia).
  split; [reflexivity|]. split; [assumption|]. now rewrite Hbot.
Qed.

Lemma worst_case_size_maxCompressedLength (compressor n : Z) :
  worst_case_size compressor n = HapEncode_maxCompressedLength compressor n.
Proof.
  unfold worst_case_size, HapEncode_maxCompressedLength.
  destruct (compressor =? HapCompressorSnappy).
  - destruct (Z.ltb_spec (to_size_t (snappy_max_compressed_length n)) n); lia.
  - now rewrite Z.ltb_irrefl.
Qed.

Lemma read_stored_header (hl sc tf stored : Z) (rest : list byte) :
  hap_h_ok H = true -> is_texture_format tf ->
  sc = kHapCompressorNone \/ sc = kHapCompressorSnappy ->
  (hl = 4 /\ 0 < stored <= kHapUInt24Max) \/ (hl = 8 /\ 0 <= stored) ->
  exists ty,
    (forall n out, hl <= n ->
       hap_read_section_header
         (section_header_bytes hl (to_uint32 stored)
            (hap_4_bit_packed_byte sc (hap_texture_format_identifier_for_format_constant tf))
          ++ rest) 0 n out
       = Done (if to_uint32 (hl + to_uint32 stored) >? n
               then HapResult_Bad_Frame else HapResult_No_Error,
               {| sectionHeaderLength := hl; sectionLength := to_uint32 stored;
                  sectionType := ty |}))
    /\ hap_top_4_bits ty = sc.
Proof.
  intros Hok Htf Hsc Hfit.
  destruct (format_identifier_of_constant Hok tf Htf) as [Hid _].
  destruct (packed_byte_nibbles sc (hap_texture_format_identifier_for_format_constant tf))
    as (Hty & Htop & _);
    [destruct Hsc as [-> | ->]; [left | right; left]; reflexivity | assumption |].
  eexists. split; [|exact Htop].
  intros n out Hn. apply hap_read_section_header_bytes; [|assumption|assumption].
  unfold header_fits.
  assert (Hr : 0 <= to_uint32 stored < 2 ^ 32)
    by (unfold to_uint32; apply Z.mod_pos_bound; lia).
  destruct Hfit as [[-> Hs] | [-> Hs]]; [left | right; auto].
  rewrite to_uint32_small; [auto|].
  unfold kHapUInt24Max in Hs. change (2 ^ 32) with 4294967296. lia.
Qed.

Lemma stored_length_fits (x : list byte) (stored : Z) :
  0 < stored <= len x ->
  let hl := HapEncode_headerLength (len x) in
  (hl = 4 /\ 0 < stored <= kHapUInt24Max) \/ (hl = 8 /\ 0 <= stored).
Proof.
  intros Hs. cbv zeta. unfold HapEncode_headerLength.
  destruct (Z.gtb_spec (len x) kHapUInt24Max); [right | left]; lia.
Qed.

(** C3: an encode that asks for the compressor, on valid arguments and
    with a destination of the worst-case size, whose compressor returns
    no byte or at least as many bytes as the input has, succeeds, stores
    the input bytes themselves behind the header and records
    [kHapCompressorNone] in the type byte.  The section length it stores
    is the input length converted to 32 bits: the input length itself
    where that is below [2 ^ 32]. *)
Theorem HapEncode_stores_uncompressed
    (x : list byte) (tf : Z) (dst c : list byte) (used : Z) :
  hap_h_ok H = true ->
  0 < len x ->
  is_texture_format tf ->
  let hl := if len x >? kHapUInt24Max then 8 else 4 in
  hl + worst_case_size HapCompressorSnappy (len x) <= len dst ->
  snappy_compress x (len dst) = (SNAPPY_OK, c) ->
  len c <= worst_case_size HapCompressorSnappy (len x) ->
  len c = 0 \/ len x <= len c ->
  exists frame ty,
    HapEncode (Some x) (len x) tf HapCompressorSnappy (Some dst) (len dst) (Some used)
    = Done (HapResult_No_Error, Some frame, Some (to_size_t (len x + hl))) /\
    load_bytes frame hl (len x) = Done x /\
    hap_top_4_bits ty = kHapCompressorNone /\
    (forall n out, hl <= n ->
       hap_read_section_header frame 0 n out
       = Done (if to_uint32 (hl + to_uint32 (len x)) >? n
               then HapResult_Bad_Frame else HapResult_No_Error,
               {| sectionHeaderLength := hl; sectionLength := to_uint32 (len x);
                  sectionType := ty |})) /\
    (len x < 2 ^ 32 -> to_uint32 (len x) = len x).
Proof.
  intros Hok Hx Htf hl.
  assert (Ehl : hl = HapEncode_headerLength (len x)) by reflexivity.
  clearbody hl. subst hl.
  rewrite worst_case_size_maxCompressedLength.
  set (hl := HapEncode_headerLength (len x)).
  intros Hcap Hc Hlen Hfall.
  pose proof (HapEncode_headerLength_cases (len x)) as Hhl. fold hl in Hhl.
  destruct (HapEncode_success Hok x tf HapCompressorSnappy dst (Some used))
    as (tail & E & Ltail); try assumption; auto.
  { intros _. rewrite Hc. cbn [fst snd]. auto. }
  assert (Es : stored_frame HapCompressorSnappy x (len dst) = (kHapCompressorNone, x)).
  { unfold stored_frame. rewrite Z.eqb_refl, Hc. cbn [snd].
    replace ((len c =? 0) || (len c >=? len x)) with true; [reflexivity|].
    symmetry. apply orb_true_iff.
    destruct Hfall; [left; now apply Z.eqb_eq | right; apply Z.geb_le; lia]. }
  rewrite Es in E, Ltail. cbn [fst snd option_map] in E, Ltail. fold hl in E, Ltail.
  destruct (read_stored_header hl kHapCompressorNone tf (len x) (x ++ tail))
    as (ty & Hread & Htop); try assumption; auto.
  { apply (stored_length_fits x (len x)). lia. }
  eexists. exists ty. split; [exact E|]. split; [|split; [exact Htop|split]].
  - apply load_bytes_span; [|reflexivity].
    apply len_section_header_bytes. assumption.
  - exact Hread.
  - intros H32. apply to_uint32_small. lia.
Qed.

End EncoderClaims.

(** ** Inputs the 32-bit lengths cannot express *)

Lemma len_image_of_length (n : Z) : 0 <= n -> len (image_of_length n) = n.
Proof. intros Hn. unfold len, image_of_length. rewrite repeat_length. lia. Qed.

Section LongInputs.
Context {H : hap_h} {S : snappy_c}.

Lemma HapEncode_long_input
    (x : list byte) (N tf compressor : Z) (dst : list byte) (used : Z) :
  hap_h_ok H = true -> is_texture_format tf ->
  len x = N -> kHapUInt24Max < N ->
  compressor = HapCompressorNone \/
  (compressor = HapCompressorSnappy /\
   fst (snappy_compress x (len dst)) = SNAPPY_OK /\
   N <= len (snd (snappy_compress x (len dst)))
     <= HapEncode_maxCompressedLength HapCompressorSnappy N) ->
  8 + HapEncode_maxCompressedLength compressor N <= len dst ->
  exists frame ty,
    HapEncode (Some x) (len x) tf compressor (Some dst) (len dst) (Some used)
    = Done (HapResult_No_Error, Some frame, Some (to_size_t (N + 8))) /\
    hap_top_4_bits ty = kHapCompressorNone /\
    forall n out, 8 <= n ->
      hap_read_section_header frame 0 n out
      = Done (if to_uint32 (8 + to_uint32 N) >? n
              then HapResult_Bad_Frame else HapResult_No_Error,
              {| sectionHeaderLength := 8; sectionLength := to_uint32 N;
                 sectionType := ty |}).
Proof.
  intros Hok Htf HN Hlong Hc Hcap. subst N.
  pose proof (hap_h_ok_facts Hok) as (_ & _ & _ & _ & _ & _ & Hne).
  assert (Ehl : HapEncode_headerLength (len x) = 8).
  { unfold HapEncode_headerLength.
    destruct (Z.gtb_spec (len x) kHapUInt24Max); [reflexivity | lia]. }
  assert (Es : stored_frame compressor x (len dst) = (kHapCompressorNone, x)).
  { unfold stored_frame. destruct Hc as [-> | (-> & _ & Hlen & _)].
    - destruct (Z.eqb_spec HapCompressorNone HapCompressorSnappy); [contradiction|].
      reflexivity.
    - rewrite Z.eqb_refl. cbv zeta.
      replace (len (snd (snappy_compress x (len dst))) >=? len x) with true
        by (symmetry; apply Z.geb_le; lia).
      now rewrite orb_true_r. }
  destruct (HapEncode_success Hok x tf compressor dst (Some used))
    as (tail & E & _).
  - unfold kHapUInt24Max in Hlong. lia.
  - assumption.
  - destruct Hc as [-> | (-> & _)]; auto.
  - rewrite Ehl. assumption.
  - intros ->. destruct Hc as [Hc | (_ & Hst & Hlen)]; [now symmetry in Hc|].
    split; [assumption | lia].
  - rewrite Es, Ehl in E. cbn [fst snd option_map] in E.
    destruct (read_stored_header 8 kHapCompressorNone tf (len x) (x ++ tail))
      as (ty & Hread & Htop); try assumption; auto.
    { right. split; [reflexivity|]. unfold kHapUInt24Max in Hlong. lia. }
    eexists. exists ty. split; [exact E|]. split; [exact Htop | exact Hread].
Qed.

Lemma HapDecode_wrapped_length (L : stdlib_h) (Info : Type)
    (frame : list byte) (n : Z) (callback : HapDecodeCallback Info) (capacity : Z)
    (m : decode_memory Info) (out : list byte) (old : Z) :
  outputBuffer m = Some out -> outputBufferTextureFormat m = Some old ->
  to_uint32 n < 4 ->
  HapDecode (Some frame) n (Some callback) capacity m = Done (HapResult_Bad_Frame, m).
Proof.
  intros Hout Hold Hn. unfold HapDecode. rewrite Hout, Hold.
  unfold hap_read_section_header.
  rewrite (proj2 (Z.ltb_lt _ _) Hn). reflexivity.
Qed.
End LongInputs.

(** ** The length test of a header read *)

(** C2: [hap_read_section_header] adds the header length and the section
    length as [uint32_t] before it compares them with the buffer length.
    On the 8-byte buffer 00 00 00 AB FC FF FF FF the long-form length is
    [0xFFFFFFFC], the sum wraps to 4, and the header is accepted with
    No_Error although header length plus section length exceeds the
    buffer length. *)
Theorem hap_read_section_header_sum_wraps :
  hap_read_section_header
    [Byte.x00; Byte.x00; Byte.x00; Byte.xab; Byte.xfc; Byte.xff; Byte.xff; Byte.xff]
    0 8 section_vars_unset
  = Done (HapResult_No_Error,
          {| sectionHeaderLength := 8; sectionLength := 0xFFFFFFFC; sectionType := 0xAB |})
  /\ 8 + 0xFFFFFFFC > 8.
Proof. split; [vm_compute; reflexivity | lia]. Qed.

(** ** Null arguments *)

Section NullArguments.
Context {H : hap_h} {S : snappy_c} {L : stdlib_h} {Info : Type}.

(** C7 (amended): a null input buffer makes [HapEncode] return
    Bad_Arguments, and a null input buffer or a null output buffer makes
    [HapDecode] return Bad_Arguments; a null destination of [HapEncode]
    with otherwise valid arguments gives Buffer_Too_Small.  In each case
    the call returns whatever the other buffer holds and however short it
    is, and leaves the caller's objects as they were: no buffer is
    accessed. *)
Theorem null_buffer_results :
  (forall n tf c outputBuffer outputBufferBytes used,
      HapEncode None n tf c outputBuffer outputBufferBytes used
      = Done (HapResult_Bad_Arguments, outputBuffer, used)) /\
  (forall inputBuffer n callback capacity (m : decode_memory Info),
      inputBuffer = None \/ outputBuffer m = None ->
      HapDecode inputBuffer n callback capacity m = Done (HapResult_Bad_Arguments, m)) /\
  (forall input n tf c outputBufferBytes used,
      n <> 0 -> is_texture_format tf ->
      c = HapCompressorNone \/ c = HapCompressorSnappy ->
      HapEncode (Some input) n tf c None outputBufferBytes used
      = Done (HapResult_Buffer_Too_Small, None, used)).
Proof.
  split; [reflexivity|]. split.
  - intros inputBuffer n callback capacity m [-> | E]; unfold HapDecode.
    + reflexivity.
    + rewrite E. destruct inputBuffer, callback; reflexivity.
  - intros input n tf c outputBufferBytes used Hn Htf Hc. unfold HapEncode.
    replace (negb (tf =? HapTextureFormat_RGB_DXT1)
             && negb (tf =? HapTextureFormat_RGBA_DXT5)
             && negb (tf =? HapTextureFormat_YCoCg_DXT5)) with false
      by (destruct Htf as [-> | [-> | ->]]; rewrite Z.eqb_refl;
          cbn [negb andb]; rewrite ?andb_false_r; reflexivity).
    replace (negb (c =? HapCompressorNone) && negb (c =? HapCompressorSnappy))
      with false
      by (destruct Hc as [-> | ->]; rewrite Z.eqb_refl;
          cbn [negb andb]; rewrite ?andb_false_r; reflexivity).
    ztest.
    destruct (outputBufferBytes <? _); reflexivity.
Qed.
End NullArguments.

(** C7 as stated fails: [HapEncode] of twelve bytes with a valid format
    and preference and a null destination returns Buffer_Too_Small, not
    Bad_Arguments. *)
Lemma null_destination_is_not_bad_arguments :
  @HapEncode Fixtures.hap Fixtures.snappy (Some (Fixtures.zeros 12)) 12 0x83F0 0 None 64 (Some 0)
  = Done (HapResult_Buffer_Too_Small, None, Some 0)
  /\ HapResult_Buffer_Too_Small <> HapResult_Bad_Arguments.
Proof. split; [vm_compute; reflexivity | discriminate]. Qed.

Lemma null_buffer_results_witness :
  @HapDecode Fixtures.hap Fixtures.snappy Fixtures.libc nat None 5 (Some Fixtures.callback) 16
    (Fixtures.memory (Fixtures.zeros 16))
  = Done (HapResult_Bad_Arguments, Fixtures.memory (Fixtures.zeros 16))
  /\ @HapEncode Fixtures.hap Fixtures.snappy (Some (Fixtures.zeros 12)) 12 0x83F0 0 None 64
       (Some 0)
     = Done (HapResult_Buffer_Too_Small, None, Some 0).
Proof.
  destruct (@null_buffer_results Fixtures.hap Fixtures.snappy Fixtures.libc nat)
    as (_ & Hdec & Henc).
  split.
  - apply Hdec. left. reflexivity.
  - apply Henc; [lia | left; reflexivity | left; reflexivity].
Defined.

(** ** Peeking at the texture format *)

Section Peek.
Context {H : hap_h} {S : snappy_c} {L : stdlib_h} {Info : Type}.

(** C10: when the top-level header of a buffer reads successfully and
    its format nibble maps to a texture format, [HapGetFrameTextureFormat]
    returns No_Error with that format whatever the compressor nibble is;
    when that nibble is none of the three compressor codes, [HapDecode] of
    the same buffer returns Bad_Frame. *)
Theorem HapGetFrameTextureFormat_ignores_compressor
    (input : list byte) (inputBufferBytes old : Z) (sv : section_vars) :
  hap_read_section_header input 0 (to_uint32 inputBufferBytes) section_vars_unset
  = Done (HapResult_No_Error, sv) ->
  hap_texture_format_constant_for_format_identifier (hap_bottom_4_bits (sectionType sv))
  <> 0 ->
  HapGetFrameTextureFormat (Some input) inputBufferBytes (Some old)
  = Done (HapResult_No_Error,
          Some (hap_texture_format_constant_for_format_identifier
                  (hap_bottom_4_bits (sectionType sv)))) /\
  (forall (callback : HapDecodeCallback Info) capacity (m : decode_memory Info) out old',
      outputBuffer m = Some out -> outputBufferTextureFormat m = Some old' ->
      hap_top_4_bits (sectionType sv) <> kHapCompressorComplex ->
      hap_top_4_bits (sectionType sv) <> kHapCompressorSnappy ->
      hap_top_4_bits (sectionType sv) <> kHapCompressorNone ->
      HapDecode (Some input) inputBufferBytes (Some callback) capacity m
      = Done (HapResult_Bad_Frame,
              set_texture_format m
                (hap_texture_format_constant_for_format_identifier
                   (hap_bottom_4_bits (sectionType sv))))).
Proof.
  intros Hread Hfmt. split.
  - unfold HapGetFrameTextureFormat. rewrite Hread. cbn [bind HapResult_eqb].
    ztest. reflexivity.
  - intros callback capacity m out old' Hout Hold Hc Hs Hn.
    unfold HapDecode. rewrite Hout, Hold, Hread. cbn [bind HapResult_eqb negb].
    ztest. reflexivity.
Qed.
End Peek.

Lemma HapGetFrameTextureFormat_ignores_compressor_witness :
  @HapGetFrameTextureFormat Fixtures.hap
    (Some [Byte.x01; Byte.x00; Byte.x00; Byte.x1b; Byte.x00]) 5 (Some 0)
  = Done (HapResult_No_Error, Some 0x83F0)
  /\ @HapDecode Fixtures.hap Fixtures.snappy Fixtures.libc nat
       (Some [Byte.x01; Byte.x00; Byte.x00; Byte.x1b; Byte.x00]) 5
       (Some Fixtures.callback) 16 (Fixtures.memory (Fixtures.zeros 16))
     = Done (HapResult_Bad_Frame,
             set_texture_format (Fixtures.memory (Fixtures.zeros 16)) 0x83F0).
Proof.
  destruct (@HapGetFrameTextureFormat_ignores_compressor
              Fixtures.hap Fixtures.snappy Fixtures.libc nat
              [Byte.x01; Byte.x00; Byte.x00; Byte.x1b; Byte.x00] 5 0
              {| sectionHeaderLength := 4; sectionLength := 1; sectionType := 0x1B |})
    as [Hpeek Hdec].
  - vm_compute. reflexivity.
  - vm_compute. discriminate.
  - split; [exact Hpeek|].
    apply (Hdec Fixtures.callback 16 (Fixtures.memory (Fixtures.zeros 16))
             (Fixtures.zeros 16) 0);
      try reflexivity; vm_compute; discriminate.
Defined.

(** ** Out-parameters of a decode *)

Ltac exec_case H :=
  repeat match type of H with
    | Done _ = Done _ => inversion H; subst; clear H
    | Undefined = Done _ => discriminate H
    | context [bind ?c _] => destruct c as [?|] eqn:?; cbn [bind] in H
    | context [let '(_, _) := ?p in _] => destruct p as [? ?] eqn:?
    | context [if ?b then _ else _] => destruct b eqn:?
    | context [match ?x with _ => _ end] => destruct x eqn:?
    end.

Section OutParameters.
Context {H : hap_h} {S : snappy_c} {L : stdlib_h} {Info : Type}.

Lemma HapDecode_complex_bytes_used
    (input : list byte) (n : Z) (callback : HapDecodeCallback Info) (out : list byte)
    (capacity : Z) (m : decode_memory Info) (sv : section_vars)
    (r : HapResult) (m' : decode_memory Info) :
  HapDecode_complex input n callback out capacity m sv = Done (r, m') ->
  r <> HapResult_No_Error ->
  outputBufferBytesUsed m' = outputBufferBytesUsed m /\
  outputBufferTextureFormat m' = outputBufferTextureFormat m.
Proof.
  unfold HapDecode_complex, HapDecode_chunks, HapDecode_return, set_output.
  intros E Hr. exec_case E; cbn; try (split; reflexivity); congruence.
Qed.

(** C6 (amended): on every failing return of [HapDecode] the byte count
    is left as it was.  The texture format is left as it was when an
    argument is null (the Bad_Arguments return) or the top-level header
    does not read; once that header has read, the format cell holds the
    value the format nibble maps to (0 when it maps to none), also on
    the failing returns that follow. *)
Theorem HapDecode_failure_out_parameters
    (inputBuffer : option (list byte)) (n : Z)
    (callback : option (HapDecodeCallback Info)) (capacity : Z)
    (m m' : decode_memory Info) (r : HapResult) :
  HapDecode inputBuffer n callback capacity m = Done (r, m') ->
  r <> HapResult_No_Error ->
  outputBufferBytesUsed m' = outputBufferBytesUsed m /\
  (inputBuffer = None \/ callback = None \/ outputBuffer m = None
   \/ outputBufferTextureFormat m = None ->
   r = HapResult_Bad_Arguments /\
   outputBufferTextureFormat m' = outputBufferTextureFormat m) /\
  (forall input r0 sv,
      inputBuffer = Some input ->
      hap_read_section_header input 0 (to_uint32 n) section_vars_unset = Done (r0, sv) ->
      r0 <> HapResult_No_Error ->
      outputBufferTextureFormat m' = outputBufferTextureFormat m) /\
  (forall input sv,
      inputBuffer = Some input -> callback <> None -> outputBuffer m <> None ->
      outputBufferTextureFormat m <> None ->
      hap_read_section_header input 0 (to_uint32 n) section_vars_unset
      = Done (HapResult_No_Error, sv) ->
      outputBufferTextureFormat m'
      = Some (hap_texture_format_constant_for_format_identifier
                (hap_bottom_4_bits (sectionType sv)))).
Proof.
  unfold HapDecode. intros E Hr.
  destruct inputBuffer as [input|];
    [| inversion E; subst; repeat split; intros; congruence].
  destruct callback as [cb|];
    [| inversion E; subst; repeat split; intros; congruence].
  destruct (outputBuffer m) as [out|] eqn:Eout;
    [| inversion E; subst; repeat split; intros; congruence].
  destruct (outputBufferTextureFormat m) as [old|] eqn:Eold;
    [| inversion E; subst; repeat split; intros; congruence].
  destruct (hap_read_section_header input 0 (to_uint32 n) section_vars_unset)
    as [[r0 sv]|] eqn:Eh; cbn [bind] in E; [|discriminate].
  destruct (HapResult_eqb r0 HapResult_No_Error) eqn:Er0; cbn [negb] in E.
  - assert (r0 = HapResult_No_Error) by (destruct r0; (reflexivity || discriminate)).
    subst r0.
    set (fmt := hap_texture_format_constant_for_format_identifier
                  (hap_bottom_4_bits (sectionType sv))) in *.
    assert (Hset : outputBufferBytesUsed (set_texture_format m fmt)
                   = outputBufferBytesUsed m /\
                   outputBufferTextureFormat (set_texture_format m fmt) = Some fmt).
    { unfold set_texture_format. cbn. now rewrite Eold. }
    destruct Hset as [Hb Hf].
    assert (Hres : outputBufferBytesUsed m' = outputBufferBytesUsed m /\
                   outputBufferTextureFormat m' = Some fmt).
    { destruct (fmt =? 0); [inversion E; subst; split; assumption|].
      destruct (hap_top_4_bits (sectionType sv) =? kHapCompressorComplex) eqn:Ec.
      - destruct (HapDecode_complex_bytes_used _ _ _ _ _ _ _ _ _ E Hr) as [A B].
        split; congruence.
      - unfold HapDecode_return, set_output in E.
        exec_case E; cbn; split; (assumption || congruence). }
    destruct Hres as (Hbu & Hfm).
    split; [assumption|]. split; [|split].
    + intros [? | [? | [? | ?]]]; discriminate.
    + intros input' r0' sv' Ei Eh' Hr0'. inversion Ei; subst input'.
      rewrite Eh in Eh'. inversion Eh'; subst. congruence.
    + intros input' sv' Ei _ _ _ Eh'. inversion Ei; subst input'.
      rewrite Eh in Eh'. inversion Eh'; subst. exact Hfm.
  - inversion E; subst. split; [reflexivity|]. split; [|split].
    + intros [? | [? | [? | ?]]]; discriminate.
    + intros; assumption.
    + intros input' sv' Ei _ _ _ Eh'. inversion Ei; subst input'.
      rewrite Eh in Eh'. inversion Eh'; subst. discriminate.
Qed.
End OutParameters.

(** ** The loop over the Decode Instructions Container *)

Lemma to_int_eqb_0 (k : Z) : 0 <= k < 2 ^ 32 -> (to_int k =? 0) = (k =? 0).
Proof.
  intros Hk. unfold to_int.
  change (2 ^ 31) with 2147483648. change (2 ^ 32) with 4294967296 in *.
  destruct (Z.eqb_spec k 0) as [-> | Hne]; [reflexivity|].
  apply Z.eqb_neq. Z.div_mod_to_equations. lia.
Qed.

Lemma to_uint32_to_int (k : Z) : 0 <= k < 2 ^ 32 -> to_uint32 (to_int k) = k.
Proof.
  intros Hk. unfold to_int, to_uint32.
  change (2 ^ 31) with 2147483648. change (2 ^ 32) with 4294967296 in *.
  Z.div_mod_to_equations. lia.
Qed.

Lemma len_child_bytes (c : child_section) :
  child_ok c ->
  len (child_bytes c) = child_header_length c + len (child_payload c) /\
  4 <= child_header_length c.
Proof.
  intros [Hfit _]. unfold child_bytes, section_bytes. rewrite len_app.
  rewrite len_section_header_bytes by (destruct Hfit as [[-> _] | [-> _]]; auto).
  destruct Hfit as [[-> _] | [-> _]]; lia.
Qed.

Lemma implied_chunk_count_range (c : child_section) :
  len (child_payload c) < 2 ^ 32 -> 0 <= implied_chunk_count c < 2 ^ 32.
Proof.
  intros Hlen. pose proof (len_nonneg (child_payload c)).
  unfold implied_chunk_count.
  repeat match goal with |- context [if ?b then _ else _] => destruct b end;
    try lia; Z.div_mod_to_equations; lia.
Qed.

(** One turn of the loop on a well-formed child. *)
Lemma hap_scan_instructions_step (fuel : nat) (pre : list byte) (c : child_section)
    (rest post : list byte) (k : Z) (t : table_pointers) (sv : section_vars) :
  child_ok c -> 0 <= k < 2 ^ 32 -> len (child_bytes c) + len rest < 2 ^ 32 ->
  let input := pre ++ (child_bytes c ++ rest) ++ post in
  let n := implied_chunk_count c in
  let p := len pre + child_header_length c in
  let sv' := {| sectionHeaderLength := child_header_length c;
                sectionLength := len (child_payload c);
                sectionType := child_type c |} in
  let t' := record_table (child_type c) p t in
  hap_scan_instructions (Datatypes.S fuel) input
    {| sectionStart := len pre;
       bytes_remaining := len (child_bytes c) + len rest;
       chunk_count := to_int k;
       compressors := fst (fst t); chunk_sizes := snd (fst t); chunk_offsets := snd t;
       section := sv |}
  = if negb (n =? 0) && negb (k =? 0) && negb (n =? k)
    then Done (HapResult_Bad_Frame,
               {| sectionStart := p;
                  bytes_remaining := len (child_bytes c) + len rest;
                  chunk_count := to_int k;
                  compressors := fst (fst t'); chunk_sizes := snd (fst t');
                  chunk_offsets := snd t';
                  section := sv' |})
    else hap_scan_instructions fuel input
           {| sectionStart := p + len (child_payload c);
              bytes_remaining := len rest;
              chunk_count := to_int (if negb (n =? 0) then n else k);
              compressors := fst (fst t'); chunk_sizes := snd (fst t');
              chunk_offsets := snd t';
              section := sv' |}.
Proof.
  intros Hok Hk Hlen input n p sv' t'.
  destruct (len_child_bytes c Hok) as [Lc Hhl].
  pose proof (len_nonneg (child_payload c)) as Hp.
  pose proof (len_nonneg rest) as Hr.
  destruct Hok as [Hfit Hty].
  assert (Hn : 0 <= n < 2 ^ 32) by (apply implied_chunk_count_range; lia).
  assert (Hread : hap_read_section_header input (len pre)
                    (len (child_bytes c) + len rest) sv
                  = Done (HapResult_No_Error, sv')).
  { unfold input. rewrite hap_read_section_header_app, Lc.
    unfold child_bytes, section_bytes. rewrite <- !app_assoc.
    rewrite hap_read_section_header_bytes by (assumption || lia).
    rewrite (to_uint32_small (child_header_length c + len (child_payload c))) by lia.
    replace (child_header_length c + len (child_payload c)
             >? child_header_length c + len (child_payload c) + len rest)
      with false by (symmetry; ztest; lia).
    reflexivity. }
  cbn [hap_scan_instructions bytes_remaining sectionStart section chunk_count
       compressors chunk_sizes chunk_offsets].
  replace (len (child_bytes c) + len rest >? 0) with true by (symmetry; ztest; lia).
  rewrite (to_uint32_small (len (child_bytes c) + len rest)) by lia.
  rewrite Hread.
  cbn [bind HapResult_eqb negb sectionHeaderLength sectionLength sectionType sv'].
  rewrite to_int_eqb_0, to_uint32_to_int by assumption.
  rewrite (to_uint32_small (child_header_length c + len (child_payload c))) by lia.
  replace (to_size_t (len (child_bytes c) + len rest
                      - (child_header_length c + len (child_payload c))))
    with (len rest) by (rewrite to_size_t_small; lia).
  fold p. destruct t as [[cs szs] offs].
  unfold t', n, record_table, implied_chunk_count.
  destruct (child_type c =? kHapSectionChunkSecondStageCompressorTable);
    [| destruct (child_type c =? kHapSectionChunkSizeTable);
       [| destruct (child_type c =? kHapSectionChunkOffsetTable)]];
    cbn [fst snd];
    repeat match goal with |- context [negb (?a =? 0)] => destruct (a =? 0) end;
    reflexivity.
Qed.

Lemma hap_scan_instructions_done (fuel : nat) (input : list byte) (v : instruction_vars) :
  bytes_remaining v = 0 -> hap_scan_instructions fuel input v = Done (HapResult_No_Error, v).
Proof. intros E. destruct fuel; cbn [hap_scan_instructions]; rewrite E; reflexivity. Qed.

(** The loop over a well-formed container computes [scan_children]. *)
Lemma hap_scan_instructions_children (children : list child_section) :
  forall (fuel : nat) (pre post : list byte) (k : Z) (t : table_pointers) (sv : section_vars),
    Forall child_ok children -> (length children < fuel)%nat ->
    0 <= k < 2 ^ 32 -> len (container_bytes children) < 2 ^ 32 ->
    exists v,
      hap_scan_instructions fuel (pre ++ container_bytes children ++ post)
        {| sectionStart := len pre;
           bytes_remaining := len (container_bytes children);
           chunk_count := to_int k;
           compressors := fst (fst t); chunk_sizes := snd (fst t); chunk_offsets := snd t;
           section := sv |}
      = match scan_children (len pre) k t children with
        | Some _ => Done (HapResult_No_Error, v)
        | None => Done (HapResult_Bad_Frame, v)
        end
      /\ forall k' t', scan_children (len pre) k t children = Some (k', t') ->
           chunk_count v = to_int k' /\ compressors v = fst (fst t')
           /\ chunk_sizes v = snd (fst t') /\ chunk_offsets v = snd t'.
Proof.
  induction children as [|c children IH]; intros fuel pre post k t sv Hall Hfuel Hk Hlen.
  - eexists. split.
    + cbn [container_bytes flat_map scan_children].
      apply hap_scan_instructions_done. reflexivity.
    + cbn [scan_children]. intros k' t' E. inversion E; subst. cbn. auto.
  - inversion Hall as [|? ? Hc Hrest]; subst.
    destruct fuel as [|fuel]; [cbn in Hfuel; lia|].
    cbn [length] in Hfuel.
    change (container_bytes (c :: children))
      with (child_bytes c ++ container_bytes children) in *.
    rewrite len_app in *.
    destruct (len_child_bytes c Hc) as [Lc Hhl].
    pose proof (len_nonneg (child_payload c)) as Hp.
    pose proof (len_nonneg (container_bytes children)) as Hr.
    rewrite hap_scan_instructions_step by assumption.
    cbn [scan_children].
    assert (Hn : 0 <= implied_chunk_count c < 2 ^ 32)
      by (apply implied_chunk_count_range; lia).
    destruct (negb (implied_chunk_count c =? 0) && negb (k =? 0)
              && negb (implied_chunk_count c =? k)).
    + eexists. split; [reflexivity|]. intros k' t' E. discriminate E.
    + set (k1 := if negb (implied_chunk_count c =? 0) then implied_chunk_count c else k).
      set (t1 := record_table (child_type c) (len pre + child_header_length c) t).
      assert (Hk1 : 0 <= k1 < 2 ^ 32)
        by (unfold k1; destruct (negb (implied_chunk_count c =? 0)); assumption).
      destruct (IH fuel (pre ++ child_bytes c) post k1 t1
                  {| sectionHeaderLength := child_header_length c;
                     sectionLength := len (child_payload c);
                     sectionType := child_type c |})
        as (v & E & Hv); try assumption; try lia.
      rewrite len_app, Lc, Z.add_assoc in E, Hv.
      rewrite <- !app_assoc in E. rewrite <- !app_assoc.
      exists v. split; assumption.
Qed.

Lemma hap_read_section_header_at (pre l : list byte) (p n : Z) (out : section_vars) :
  len pre = p ->
  hap_read_section_header (pre ++ l) p n out = hap_read_section_header l 0 n out.
Proof. intros <-. apply hap_read_section_header_app. Qed.

Lemma length_container_bytes (children : list child_section) :
  Forall child_ok children -> Z.of_nat (length children) <= len (container_bytes children).
Proof.
  induction 1 as [|c children Hc _ IH]; [cbn; lia|].
  change (container_bytes (c :: children))
    with (child_bytes c ++ container_bytes children).
  rewrite len_app. destruct (len_child_bytes c Hc) as [Lc Hhl].
  pose proof (len_nonneg (child_payload c)). cbn [length]. lia.
Qed.

Section ComplexFrame.
Variables (top_hl fmt dic_hl : Z) (children : list child_section) (frame_data : list byte).
Hypothesis Hframe : complex_frame_ok top_hl fmt dic_hl children frame_data.

Let frame := complex_frame top_hl fmt dic_hl children frame_data.
Let body := section_bytes dic_hl kHapSectionDecodeInstructionsContainer
              (container_bytes children) ++ frame_data.
Let top_type := hap_4_bit_packed_byte kHapCompressorComplex fmt.
Let top_sv := {| sectionHeaderLength := top_hl; sectionLength := len body;
                 sectionType := top_type |}.

Lemma complex_frame_lengths :
  (top_hl = 4 \/ top_hl = 8) /\ (dic_hl = 4 \/ dic_hl = 8) /\
  len body = dic_hl + len (container_bytes children) + len frame_data /\
  len frame = top_hl + len body.
Proof.
  destruct Hframe as (_ & Htop & Hdic & _ & _).
  assert (Ht : top_hl = 4 \/ top_hl = 8) by (destruct Htop as [[-> _] | [-> _]]; auto).
  assert (Hd : dic_hl = 4 \/ dic_hl = 8) by (destruct Hdic as [[-> _] | [-> _]]; auto).
  repeat split; try assumption.
  - unfold body, section_bytes. rewrite !len_app, len_section_header_bytes by assumption.
    lia.
  - unfold frame, complex_frame, section_bytes. fold body.
    rewrite len_app, len_section_header_bytes by assumption. reflexivity.
Qed.

Lemma HapDecode_instructions_complex_frame :
  exists v,
    HapDecode_instructions frame (len frame) top_sv
    = Done (instructions_result (top_hl + dic_hl) children, v,
            top_hl + dic_hl + len (container_bytes children))
    /\ forall k t, scan_children (top_hl + dic_hl) 0 (None, None, None) children
                   = Some (k, t) ->
         chunk_count v = to_int k /\ compressors v = fst (fst t)
         /\ chunk_sizes v = snd (fst t) /\ chunk_offsets v = snd t.
Proof.
  destruct complex_frame_lengths as (Ht & Hd & Lbody & Lframe).
  destruct Hframe as (Hfmt & Htop & Hdic & Hall & H32). fold frame in H32.
  pose proof (len_nonneg (container_bytes children)) as Hc.
  pose proof (len_nonneg frame_data) as Hfd.
  set (dic_sv := {| sectionHeaderLength := dic_hl;
                    sectionLength := len (container_bytes children);
                    sectionType := kHapSectionDecodeInstructionsContainer |}).
  set (pre := section_header_bytes top_hl (len body) top_type
              ++ section_header_bytes dic_hl (len (container_bytes children))
                   kHapSectionDecodeInstructionsContainer).
  assert (Lpre : len pre = top_hl + dic_hl).
  { unfold pre. rewrite len_app, !len_section_header_bytes by assumption. reflexivity. }
  assert (Eframe : frame = pre ++ container_bytes children ++ frame_data).
  { unfold frame, complex_frame, section_bytes, pre. fold body top_type.
    unfold body, section_bytes. now rewrite <- !app_assoc. }
  assert (Hread : hap_read_section_header frame top_hl
                    (to_uint32 (to_size_t (len frame - top_hl))) top_sv
                  = Done (HapResult_No_Error, dic_sv)).
  { rewrite Lframe. replace (top_hl + len body - top_hl) with (len body) by lia.
    rewrite to_size_t_small by lia.
    rewrite Eframe. unfold pre. rewrite <- app_assoc.
    rewrite hap_read_section_header_at by (now apply len_section_header_bytes).
    apply read_frame_header; [assumption | cbv; intuition congruence | lia]. }
  destruct (hap_scan_instructions_children children (Datatypes.S (length frame))
              pre frame_data 0 (None, None, None) dic_sv)
    as (v & Escan & Hv); try assumption; try lia.
  { pose proof (length_container_bytes children Hall).
    assert (len frame = Z.of_nat (length frame)) by reflexivity. lia. }
  rewrite <- Eframe, Lpre in Escan. rewrite Lpre in Hv.
  cbn [fst snd] in Escan. change (to_int 0) with 0 in Escan.
  exists v. split; [|exact Hv].
  unfold HapDecode_instructions. cbn [sectionHeaderLength top_sv].
  rewrite Hread. cbn [bind HapResult_eqb sectionType dic_sv andb negb
                      sectionHeaderLength sectionLength].
  change (kHapSectionDecodeInstructionsContainer =? kHapSectionDecodeInstructionsContainer)
    with true. cbn [negb andb HapResult_eqb].
  fold dic_sv. rewrite Escan. unfold instructions_result.
  destruct (scan_children (top_hl + dic_hl) 0 (None, None, None) children)
    as [[k t]|]; cbn [bind HapResult_eqb negb].
  - destruct (Hv k t eq_refl) as (_ & -> & -> & _).
    destruct t as [[[?|] [?|]] ?]; reflexivity.
  - reflexivity.
Qed.
End ComplexFrame.

(** ** What the loop over the container decides *)

Lemma scan_children_differs_from_count (children : list child_section) :
  forall start k t c,
    k <> 0 -> In c children -> implied_chunk_count c <> 0 -> implied_chunk_count c <> k ->
    scan_children start k t children = None.
Proof.
  induction children as [|c0 children IH]; intros start k t c Hk Hin Hc0 Hck;
    [contradiction|].
  cbn [scan_children].
  destruct (Z.eqb_spec (implied_chunk_count c0) 0) as [E0 | N0];
    destruct (Z.eqb_spec k 0) as [Ek | Nk]; try contradiction;
    destruct (Z.eqb_spec (implied_chunk_count c0) k) as [E | N]; cbn [negb andb];
    try reflexivity;
    (destruct Hin as [-> | Hin];
     [congruence | apply IH with c; (assumption || congruence)]).
Qed.

Lemma scan_children_differing_counts (children : list child_section) :
  forall start k t c1 c2,
    In c1 children -> In c2 children ->
    implied_chunk_count c1 <> 0 -> implied_chunk_count c2 <> 0 ->
    implied_chunk_count c1 <> implied_chunk_count c2 ->
    scan_children start k t children = None.
Proof.
  induction children as [|c0 children IH]; intros start k t c1 c2 H1 H2 N1 N2 Hne;
    [contradiction|].
  cbn [scan_children].
  destruct (negb (implied_chunk_count c0 =? 0) && negb (k =? 0)
            && negb (implied_chunk_count c0 =? k)); [reflexivity|].
  destruct H1 as [-> | H1], H2 as [-> | H2].
  - congruence.
  - destruct (Z.eqb_spec (implied_chunk_count c1) 0); [contradiction|]. cbn [negb].
    apply scan_children_differs_from_count with c2; auto.
  - destruct (Z.eqb_spec (implied_chunk_count c2) 0); [contradiction|]. cbn [negb].
    apply scan_children_differs_from_count with c1; auto.
  - now apply IH with c1 c2.
Qed.

Lemma record_table_compressors (ty p : Z) (t : table_pointers) :
  fst (fst (record_table ty p t))
  = if ty =? kHapSectionChunkSecondStageCompressorTable then Some p else fst (fst t).
Proof.
  destruct t as [[a b] o]. unfold record_table.
  repeat match goal with |- context [if ?b then _ else _] => destruct b end; reflexivity.
Qed.

Lemma record_table_sizes (ty p : Z) (t : table_pointers) :
  snd (fst (record_table ty p t))
  = if ty =? kHapSectionChunkSizeTable then Some p else snd (fst t).
Proof.
  destruct t as [[a b] o]. unfold record_table.
  destruct (Z.eqb_spec ty kHapSectionChunkSecondStageCompressorTable) as [-> | _];
    [reflexivity|].
  repeat match goal with |- context [if ?b then _ else _] => destruct b end; reflexivity.
Qed.

(** A table pointer is set exactly when a child of its type was met. *)
Lemma scan_children_pointer (ty : Z) (proj : table_pointers -> option Z) :
  (forall ty' p t, proj (record_table ty' p t) = if ty' =? ty then Some p else proj t) ->
  forall children start k t k' t',
    scan_children start k t children = Some (k', t') ->
    (proj t' = None <->
     proj t = None /\ forall c, In c children -> child_type c <> ty).
Proof.
  intros Hproj. induction children as [|c children IH]; intros start k t k' t' E.
  - cbn in E. inversion E; subst. cbn. intuition.
  - cbn [scan_children] in E.
    destruct (negb (implied_chunk_count c =? 0) && negb (k =? 0)
              && negb (implied_chunk_count c =? k)); [discriminate|].
    apply IH in E. rewrite E, Hproj. clear E.
    destruct (Z.eqb_spec (child_type c) ty) as [Ety | Nty].
    + split.
      * intros [D _]. discriminate D.
      * intros [_ Hall]. exfalso. apply (Hall c); [now left | assumption].
    + split.
      * intros [Hn Hall]. split; [assumption|].
        intros c' [<- | Hin]; auto.
      * intros [Hn Hall]. split; [assumption|]. intros c' Hin. apply Hall. now right.
Qed.

Lemma scan_children_no_count (children : list child_section) :
  forall start t,
    (forall c, In c children -> implied_chunk_count c = 0) ->
    exists t', scan_children start 0 t children = Some (0, t').
Proof.
  induction children as [|c children IH]; intros start t Hall.
  - eexists. reflexivity.
  - cbn [scan_children]. rewrite (Hall c) by now left. cbn [Z.eqb negb andb].
    apply IH. intros c' Hin. apply Hall. now right.
Qed.

Lemma scan_children_count_range (children : list child_section) :
  forall start k t k' t',
    Forall child_ok children -> len (container_bytes children) < 2 ^ 32 ->
    0 <= k < 2 ^ 32 ->
    scan_children start k t children = Some (k', t') -> 0 <= k' < 2 ^ 32.
Proof.
  induction children as [|c children IH]; intros start k t k' t' Hall Hlen Hk E.
  - cbn in E. inversion E; subst. assumption.
  - inversion Hall as [|? ? Hc Hrest]; subst.
    change (container_bytes (c :: children))
      with (child_bytes c ++ container_bytes children) in Hlen.
    rewrite len_app in Hlen. destruct (len_child_bytes c Hc) as [Lc Hhl].
    pose proof (len_nonneg (child_payload c)).
    pose proof (len_nonneg (container_bytes children)).
    cbn [scan_children] in E.
    destruct (negb (implied_chunk_count c =? 0) && negb (k =? 0)
              && negb (implied_chunk_count c =? k)); [discriminate|].
    apply IH in E; try assumption; try lia.
    destruct (negb (implied_chunk_count c =? 0)); [|assumption].
    apply implied_chunk_count_range. lia.
Qed.

(** ** Decoding a frame with a Decode Instructions Container *)

Section ComplexDecode.
Context {H : hap_h} {S : snappy_c} {L : stdlib_h} {Info : Type}.
Hypothesis Hok : hap_h_ok H = true.

Variables (top_hl fmt dic_hl : Z) (children : list child_section) (frame_data : list byte).
Hypothesis Hframe : complex_frame_ok top_hl fmt dic_hl children frame_data.
Variables (callback : HapDecodeCallback Info) (capacity : Z) (m : decode_memory Info).
Variables (out : list byte) (old : Z).
Hypothesis Hout : outputBuffer m = Some out.
Hypothesis Hold : outputBufferTextureFormat m = Some old.

Let frame := complex_frame top_hl fmt dic_hl children frame_data.
Let format := hap_texture_format_constant_for_format_identifier fmt.

(** The decode reaches the Complex branch with the format written, and
    its result follows the outcome of the instructions. *)
Lemma HapDecode_complex_frame :
  exists v,
    HapDecode (Some frame) (len frame) (Some callback) capacity m
    = (if negb (HapResult_eqb (instructions_result (top_hl + dic_hl) children)
                  HapResult_No_Error)
       then Done (instructions_result (top_hl + dic_hl) children,
                  set_texture_format m format)
       else if chunk_count v >? 0
       then HapDecode_chunks frame callback out capacity (set_texture_format m format) v
              (top_hl + dic_hl + len (container_bytes children))
       else HapDecode_return (set_texture_format m format) out (info m) 0)
    /\ forall k t, scan_children (top_hl + dic_hl) 0 (None, None, None) children
                   = Some (k, t) ->
         chunk_count v = to_int k /\ compressors v = fst (fst t)
         /\ chunk_sizes v = snd (fst t) /\ chunk_offsets v = snd t.
Proof.
  destruct (complex_frame_lengths _ _ _ _ _ Hframe) as (Ht & Hd & Lbody & Lframe).
  destruct (HapDecode_instructions_complex_frame _ _ _ _ _ Hframe) as (v & Ei & Hv).
  destruct Hframe as (Hfmt & Htop & Hdic & Hall & H32).
  destruct (packed_byte_nibbles kHapCompressorComplex fmt) as (Hty & Htopn & Hbot);
    [right; right; reflexivity | assumption |].
  pose proof (format_constant_nonzero Hok fmt Hfmt) as Hnz.
  pose proof (len_nonneg frame_data) as Hfd.
  pose proof (len_nonneg (container_bytes children)) as Hcb.
  exists v. split; [|exact Hv].
  set (body := section_bytes dic_hl kHapSectionDecodeInstructionsContainer
                 (container_bytes children) ++ frame_data) in *.
  set (top_type := hap_4_bit_packed_byte kHapCompressorComplex fmt) in *.
  assert (Hread : hap_read_section_header frame 0 (to_uint32 (len frame))
                    section_vars_unset
                  = Done (HapResult_No_Error,
                          {| sectionHeaderLength := top_hl; sectionLength := len body;
                             sectionType := top_type |})).
  { unfold frame. rewrite Lframe. unfold complex_frame, section_bytes. fold body top_type.
    rewrite Lframe in H32.
    apply read_frame_header; [assumption | assumption | lia]. }
  unfold HapDecode. rewrite Hout, Hold, Hread.
  cbn [bind HapResult_eqb negb sectionType]. rewrite Htopn, Hbot.
  replace (hap_texture_format_constant_for_format_identifier fmt =? 0) with false
    by (symmetry; now apply Z.eqb_neq).
  change (kHapCompressorComplex =? kHapCompressorComplex) with true. cbv iota.
  unfold HapDecode_complex, frame. rewrite Ei. cbn [bind]. reflexivity.
Qed.
End ComplexDecode.

Section ComplexClaims.
Context {H : hap_h} {S : snappy_c} {L : stdlib_h} {Info : Type}.

(** C4: in a Complex frame whose Decode Instructions Container is a
    sequence of well-formed child sections, each recognised table implies
    a chunk count (its length for the compressor table, a quarter of its
    length for the size and offset tables).  When two tables imply
    different non-zero counts, or no compressor table is present, or no
    size table is present, [HapDecode] returns Bad_Frame. *)
Theorem HapDecode_inconsistent_instructions
    (top_hl fmt dic_hl : Z) (children : list child_section) (frame_data : list byte)
    (callback : HapDecodeCallback Info) (capacity : Z) (m : decode_memory Info)
    (out : list byte) (old : Z) :
  hap_h_ok H = true ->
  complex_frame_ok top_hl fmt dic_hl children frame_data ->
  outputBuffer m = Some out -> outputBufferTextureFormat m = Some old ->
  (exists c1 c2, In c1 children /\ In c2 children /\
                 implied_chunk_count c1 <> 0 /\ implied_chunk_count c2 <> 0 /\
                 implied_chunk_count c1 <> implied_chunk_count c2)
  \/ (forall c, In c children ->
                child_type c <> kHapSectionChunkSecondStageCompressorTable)
  \/ (forall c, In c children -> child_type c <> kHapSectionChunkSizeTable) ->
  let frame := complex_frame top_hl fmt dic_hl children frame_data in
  HapDecode (Some frame) (len frame) (Some callback) capacity m
  = Done (HapResult_Bad_Frame,
          set_texture_format m (hap_texture_format_constant_for_format_identifier fmt)).
Proof.
  intros Hok Hframe Hout Hold Hbad frame.
  destruct (HapDecode_complex_frame Hok top_hl fmt dic_hl children frame_data Hframe
              callback capacity m out old Hout Hold) as (v & E & _).
  assert (Er : instructions_result (top_hl + dic_hl) children = HapResult_Bad_Frame).
  { unfold instructions_result.
    destruct (scan_children (top_hl + dic_hl) 0 (None, None, None) children)
      as [[k t]|] eqn:Es; [|reflexivity].
    destruct Hbad as [(c1 & c2 & H1 & H2 & N1 & N2 & Hne) | [Hnone | Hnone]].
    - rewrite (scan_children_differing_counts children _ _ _ c1 c2) in Es by assumption.
      discriminate Es.
    - pose proof (scan_children_pointer kHapSectionChunkSecondStageCompressorTable
                    (fun t => fst (fst t)) record_table_compressors _ _ _ _ _ _ Es)
        as [_ Hp].
      destruct t as [[a b] o]. cbn [fst snd] in Hp.
      rewrite Hp by (split; [reflexivity | assumption]). reflexivity.
    - pose proof (scan_children_pointer kHapSectionChunkSizeTable
                    (fun t => snd (fst t)) record_table_sizes _ _ _ _ _ _ Es)
        as [_ Hp].
      destruct t as [[a b] o]. cbn [fst snd] in Hp.
      rewrite Hp by (split; [reflexivity | assumption]).
      destruct a; reflexivity. }
  unfold frame. rewrite E, Er. reflexivity.
Qed.

(** C9 (amended): in a Complex frame with well-formed child sections
    that holds a compressor table and a size table, and in which every
    child section implies a chunk count of zero, [HapDecode] returns
    No_Error, reports 0 bytes, leaves the output buffer as it was and
    does not run the callback: [info] is unchanged whatever the callback
    is. *)
Theorem HapDecode_no_chunks
    (top_hl fmt dic_hl : Z) (children : list child_section) (frame_data : list byte)
    (callback : HapDecodeCallback Info) (capacity : Z) (m : decode_memory Info)
    (out : list byte) (old : Z) :
  hap_h_ok H = true ->
  complex_frame_ok top_hl fmt dic_hl children frame_data ->
  outputBuffer m = Some out -> outputBufferTextureFormat m = Some old ->
  (exists c, In c children /\ child_type c = kHapSectionChunkSecondStageCompressorTable) ->
  (exists c, In c children /\ child_type c = kHapSectionChunkSizeTable) ->
  (forall c, In c children -> implied_chunk_count c = 0) ->
  let frame := complex_frame top_hl fmt dic_hl children frame_data in
  HapDecode (Some frame) (len frame) (Some callback) capacity m
  = Done (HapResult_No_Error,
          {| outputBuffer := Some out;
             outputBufferBytesUsed := option_map (fun _ => 0) (outputBufferBytesUsed m);
             outputBufferTextureFormat :=
               Some (hap_texture_format_constant_for_format_identifier fmt);
             info := info m |}).
Proof.
  intros Hok Hframe Hout Hold (cc & Hcc & Tcc) (cz & Hcz & Tcz) Hzero frame.
  destruct (HapDecode_complex_frame Hok top_hl fmt dic_hl children frame_data Hframe
              callback capacity m out old Hout Hold) as (v & E & Hv).
  destruct (scan_children_no_count children (top_hl + dic_hl) (None, None, None) Hzero)
    as (t & Es).
  destruct (Hv 0 t Es) as (Hcount & _).
  assert (Er : instructions_result (top_hl + dic_hl) children = HapResult_No_Error).
  { unfold instructions_result. rewrite Es.
    pose proof (scan_children_pointer kHapSectionChunkSecondStageCompressorTable
                  (fun t => fst (fst t)) record_table_compressors _ _ _ _ _ _ Es)
      as [Hc _].
    pose proof (scan_children_pointer kHapSectionChunkSizeTable
                  (fun t => snd (fst t)) record_table_sizes _ _ _ _ _ _ Es)
      as [Hs _].
    destruct t as [[[a|] [b|]] o]; cbn [fst snd] in Hc, Hs; try reflexivity; exfalso.
    - destruct (Hs eq_refl) as [_ Hn]. now apply (Hn cz).
    - destruct (Hc eq_refl) as [_ Hn]. now apply (Hn cc).
    - destruct (Hc eq_refl) as [_ Hn]. now apply (Hn cc). }
  unfold frame. rewrite E, Er, Hcount. cbn [HapResult_eqb negb].
  change (to_int 0 >? 0) with false. cbv iota.
  unfold HapDecode_return, set_texture_format. cbn. rewrite Hold. reflexivity.
Qed.
End ComplexClaims.

(** ** The capacity test of the chunk path *)

Lemma to_size_t_add_l (a b : Z) : to_size_t (to_size_t a + b) = to_size_t (a + b).
Proof. unfold to_size_t. apply Z.add_mod_idemp_l. lia. Qed.

Lemma to_size_t_range (a : Z) : 0 <= to_size_t a < 2 ^ 64.
Proof. unfold to_size_t. apply Z.mod_pos_bound. lia. Qed.

Lemma to_uint32_range (a : Z) : 0 <= to_uint32 a < 2 ^ 32.
Proof. unfold to_uint32. apply Z.mod_pos_bound. lia. Qed.

Lemma hap_read_4_byte_uint_range (mem : list byte) (p v : Z) :
  hap_read_4_byte_uint mem p = Done v -> 0 <= v < 2 ^ 32.
Proof.
  unfold hap_read_4_byte_uint. intros E. exec_case E. apply to_uint32_range.
Qed.

Section ChunkTable.
Context {S : snappy_c}.

(** When the loop that fills the chunk table runs to its end, it has
    added one descriptor per turn, and its running total is the sum of
    their uncompressed sizes, as a [size_t]. *)
Lemma hap_build_chunks_total (n : nat) :
  forall i input cs szs offs frame_data chunks0 rc ru chunks total,
    hap_build_chunks n i input cs szs offs frame_data chunks0 rc ru
    = Done (HapResult_No_Error, chunks, total) ->
    exists added,
      chunks = chunks0 ++ added /\ length added = n /\
      Forall (fun c => 0 <= uncompressed_chunk_size c) added /\
      to_size_t total = to_size_t (ru + sum_uncompressed added) /\
      (0 <= ru < 2 ^ 64 -> 0 <= total < 2 ^ 64).
Proof.
  induction n as [|n IH]; intros i input cs szs offs frame_data chunks0 rc ru chunks total E.
  - cbn in E. inversion E; subst. exists []. rewrite app_nil_r.
    cbn [length sum_uncompressed]. rewrite Z.add_0_r.
    split; [reflexivity|]. split; [reflexivity|]. split; [constructor|].
    split; [reflexivity | intros Hr; exact Hr].
  - cbn [hap_build_chunks] in E.
    destruct (load input (cs + i)) as [c|]; cbn [bind] in E; [|discriminate].
    destruct (i * 4 <? 2 ^ 31); cbn [bind] in E; [|discriminate].
    destruct (hap_read_4_byte_uint input (szs + i * 4)) as [size|] eqn:Esize;
      cbn [bind] in E; [|discriminate].
    pose proof (hap_read_4_byte_uint_range _ _ _ Esize) as Hsize.
    match type of E with
    | bind ?d _ = _ => destruct d as [data|]; cbn [bind] in E; [|discriminate]
    end.
    assert (Hstep : forall usize,
               0 <= usize ->
               hap_build_chunks n (i + 1) input cs szs offs frame_data
                 (chunks0 ++ [ {| result := None; compressor := c;
                                  compressed_chunk_data := data;
                                  compressed_chunk_size := size;
                                  uncompressed_chunk_data := ru;
                                  uncompressed_chunk_size := usize |} ])
                 (to_size_t (rc + size)) (to_size_t (ru + usize))
               = Done (HapResult_No_Error, chunks, total) ->
               exists added,
                 chunks = chunks0 ++ added /\ length added = Datatypes.S n /\
                 Forall (fun c => 0 <= uncompressed_chunk_size c) added /\
                 to_size_t total = to_size_t (ru + sum_uncompressed added) /\
                 (0 <= ru < 2 ^ 64 -> 0 <= total < 2 ^ 64)).
    { intros usize Hu E'. apply IH in E'.
      destruct E' as (added & -> & Hl & Hall & Ht & Hr).
      eexists (_ :: added). rewrite <- app_assoc. cbn [app].
      split; [reflexivity|]. split; [cbn; now rewrite Hl|].
      split; [constructor; [exact Hu | exact Hall]|].
      split.
      - rewrite Ht, to_size_t_add_l. cbn [sum_uncompressed uncompressed_chunk_size].
        f_equal. lia.
      - intros _. apply Hr. apply to_size_t_range. }
    destruct (c =? kHapCompressorSnappy).
    + destruct (load_bytes input data size) as [bytes|]; cbn [bind] in E; [|discriminate].
      destruct (snappy_uncompressed_length bytes) as [st nu].
      destruct st; try discriminate E.
      apply Hstep in E; [assumption | apply to_size_t_range].
    + apply Hstep in E; [assumption | lia].
Qed.
End ChunkTable.

Section CapacityTest.
Context {H : hap_h} {S : snappy_c} {L : stdlib_h} {Info : Type}.

(** C5: on the Complex path (the top-level header reads and names
    [kHapCompressorComplex] and a texture format, the instructions are
    accepted, the chunk count is positive and the chunk table is
    allocated), once the loop has built all chunk descriptors, a sum of
    their uncompressed sizes above the capacity makes [HapDecode] return
    Buffer_Too_Small.  The test comes before the callback is called:
    the output buffer, the byte count and [info] are as before the call,
    whatever the callback is. *)
Theorem HapDecode_chunks_exceed_capacity
    (input : list byte) (n : Z) (callback : HapDecodeCallback Info) (capacity : Z)
    (m : decode_memory Info) (out : list byte) (old : Z)
    (sv : section_vars) (v : instruction_vars) (frame_data cs szs : Z)
    (chunks : list HapChunkDecodeInfo) (total : Z) :
  outputBuffer m = Some out -> outputBufferTextureFormat m = Some old ->
  hap_read_section_header input 0 (to_uint32 n) section_vars_unset
  = Done (HapResult_No_Error, sv) ->
  hap_top_4_bits (sectionType sv) = kHapCompressorComplex ->
  hap_texture_format_constant_for_format_identifier (hap_bottom_4_bits (sectionType sv))
  <> 0 ->
  HapDecode_instructions input n sv = Done (HapResult_No_Error, v, frame_data) ->
  compressors v = Some cs -> chunk_sizes v = Some szs ->
  0 < chunk_count v ->
  malloc_succeeds (to_size_t (sizeof_HapChunkDecodeInfo * chunk_count v)) = true ->
  hap_build_chunks (Z.to_nat (chunk_count v)) 0 input cs szs (chunk_offsets v)
    frame_data [] 0 0
  = Done (HapResult_No_Error, chunks, total) ->
  capacity < sum_uncompressed chunks -> sum_uncompressed chunks < 2 ^ 64 ->
  exists m',
    HapDecode (Some input) n (Some callback) capacity m
    = Done (HapResult_Buffer_Too_Small, m') /\
    outputBuffer m' = outputBuffer m /\
    outputBufferBytesUsed m' = outputBufferBytesUsed m /\
    info m' = info m.
Proof.
  intros Hout Hold Hread Htop Hfmt Hins Hcs Hszs Hcount Hmalloc Hbuild Hcap Hsum.
  destruct (hap_build_chunks_total _ _ _ _ _ _ _ _ _ _ _ _ Hbuild)
    as (added & Eadd & _ & Hall & Htotal & Hrange).
  cbn [app] in Eadd. subst added.
  assert (Hnonneg : 0 <= sum_uncompressed chunks).
  { clear - Hall. induction Hall as [|c l Hc _ IH]; cbn [sum_uncompressed]; lia. }
  assert (Etotal : total = sum_uncompressed chunks).
  { rewrite Z.add_0_l in Htotal.
    rewrite (to_size_t_small (sum_uncompressed chunks)) in Htotal by lia.
    rewrite to_size_t_small in Htotal by (apply Hrange; lia). exact Htotal. }
  eexists. split.
  - unfold HapDecode. rewrite Hout, Hold, Hread.
    cbn [bind HapResult_eqb negb]. rewrite Htop.
    replace (hap_texture_format_constant_for_format_identifier
               (hap_bottom_4_bits (sectionType sv)) =? 0) with false
      by (symmetry; now apply Z.eqb_neq).
    change (kHapCompressorComplex =? kHapCompressorComplex) with true. cbv iota.
    unfold HapDecode_complex. rewrite Hins. cbn [bind HapResult_eqb negb].
    replace (chunk_count v >? 0) with true by (symmetry; ztest; lia).
    unfold HapDecode_chunks. rewrite Hcs, Hszs, Hmalloc. cbn [negb].
    rewrite Hbuild. cbn [bind HapResult_eqb andb].
    replace (total >? capacity) with true by (symmetry; ztest; lia).
    cbn [HapResult_eqb]. reflexivity.
  - unfold set_texture_format. cbn. auto.
Qed.
End CapacityTest.

(** * The statements at concrete inputs *)

Section Instances.
Import Fixtures.

Lemma HapDecode_HapEncode_round_trip_witness :
exists frame n,
  @HapEncode hap snappy (Some (zeros 12)) (len (zeros 12)) 0x83F0 1
    (Some (zeros 64)) (len (zeros 64)) (Some 0)
  = Done (HapResult_No_Error, Some frame, Some n) /\
  @HapDecode hap snappy libc nat (Some frame) n (Some callback) 20
    (memory (repeat Byte.xff 20))
  = Done (HapResult_No_Error,
          {| outputBuffer :=
               Some (zeros 12 ++ skipn (Z.to_nat (len (zeros 12))) (repeat Byte.xff 20));
             outputBufferBytesUsed :=
               option_map (fun _ => len (zeros 12))
                 (outputBufferBytesUsed (memory (repeat Byte.xff 20)));
             outputBufferTextureFormat := Some 0x83F0;
             info := info (memory (repeat Byte.xff 20)) |}).
Proof.
apply (@HapDecode_HapEncode_round_trip hap snappy libc nat (zeros 12) 0x83F0 1
         (zeros 64) 0 callback 20 (memory (repeat Byte.xff 20)) (repeat Byte.xff 20) 0).
- reflexivity.
- reflexivity.
- reflexivity.
- left. reflexivity.
- right. reflexivity.
- vm_compute. discriminate.
- intros _. vm_compute. split; [reflexivity | discriminate].
- intros _. cbv zeta. intros _. vm_compute. split; reflexivity.
- reflexivity.
- reflexivity.
- vm_compute. discriminate.
- vm_compute. discriminate.
Defined.

Lemma HapEncode_stores_uncompressed_witness :
exists frame ty,
  @HapEncode hap snappy (Some ramp) (len ramp) 0x83F3 1 (Some (zeros 32)) (len (zeros 32))
    (Some 0)
  = Done (HapResult_No_Error, Some frame, Some (to_size_t (len ramp + 4)))
  /\ load_bytes frame 4 (len ramp) = Done ramp
  /\ hap_top_4_bits ty = kHapCompressorNone
  /\ (forall n out, 4 <= n ->
        hap_read_section_header frame 0 n out
        = Done (if to_uint32 (4 + to_uint32 (len ramp)) >? n
                then HapResult_Bad_Frame else HapResult_No_Error,
                {| sectionHeaderLength := 4; sectionLength := to_uint32 (len ramp);
                   sectionType := ty |}))
  /\ (len ramp < 2 ^ 32 -> to_uint32 (len ramp) = len ramp).
Proof.
apply (@HapEncode_stores_uncompressed hap snappy ramp 0x83F3 (zeros 32)
         (snd (@snappy_compress snappy ramp (len (zeros 32)))) 0).
- reflexivity.
- reflexivity.
- right. left. reflexivity.
- vm_compute. discriminate.
- vm_compute. reflexivity.
- vm_compute. discriminate.
- right. vm_compute. discriminate.
Defined.

Lemma long_image_length_wraps :
len (image_of_length 4294967296) = 4294967296 /\
exists frame ty,
  @HapEncode hap no_gain (Some (image_of_length 4294967296))
    (len (image_of_length 4294967296)) 0x83F3 1
    (Some (image_of_length 4294967304)) (len (image_of_length 4294967304)) (Some 0)
  = Done (HapResult_No_Error, Some frame, Some 4294967304)
  /\ hap_top_4_bits ty = kHapCompressorNone
  /\ hap_read_section_header frame 0 (to_uint32 4294967304) section_vars_unset
     = Done (HapResult_No_Error,
             {| sectionHeaderLength := 8; sectionLength := 0; sectionType := ty |}).
Proof.
assert (Lx : len (image_of_length 4294967296) = 4294967296)
  by (apply len_image_of_length; lia).
assert (Ld : len (image_of_length 4294967304) = 4294967304)
  by (apply len_image_of_length; lia).
split; [exact Lx|].
destruct (@HapEncode_long_input hap no_gain (image_of_length 4294967296) 4294967296
            0x83F3 1 (image_of_length 4294967304) 0) as (frame & ty & E & T & R).
- reflexivity.
- right. left. reflexivity.
- exact Lx.
- reflexivity.
- right. split; [reflexivity|]. split; [reflexivity|].
  change (snd (@snappy_compress no_gain (image_of_length 4294967296)
                 (len (image_of_length 4294967304))))
    with (image_of_length 4294967296).
  rewrite Lx. vm_compute. split; discriminate.
- rewrite Ld. vm_compute. discriminate.
- exists frame, ty. split; [exact E|]. split; [exact T|].
  exact (R (to_uint32 4294967304) section_vars_unset ltac:(vm_compute; discriminate)).
Qed.



Lemma round_trip_fails_for_long_image :
len (image_of_length 4294967288) = 4294967288 /\
exists frame,
  @HapEncode hap snappy (Some (image_of_length 4294967288))
    (len (image_of_length 4294967288)) 0x83F0 0
    (Some (image_of_length 4294967296)) (len (image_of_length 4294967296)) (Some 0)
  = Done (HapResult_No_Error, Some frame, Some 4294967296)
  /\ @HapDecode hap snappy libc nat (Some frame) 4294967296 (Some callback) 4294967296
       (memory (image_of_length 4294967296))
     = Done (HapResult_Bad_Frame, memory (image_of_length 4294967296)).
Proof.
assert (Lx : len (image_of_length 4294967288) = 4294967288)
  by (apply len_image_of_length; lia).
assert (Ld : len (image_of_length 4294967296) = 4294967296)
  by (apply len_image_of_length; lia).
split; [exact Lx|].
destruct (@HapEncode_long_input hap snappy (image_of_length 4294967288) 4294967288
            0x83F0 0 (image_of_length 4294967296) 0) as (frame & ty & E & _ & _).
- reflexivity.
- left. reflexivity.
- exact Lx.
- reflexivity.
- left. reflexivity.
- rewrite Ld. vm_compute. discriminate.
- exists frame. split; [exact E|].
  apply (@HapDecode_wrapped_length hap snappy libc nat frame 4294967296 callback
           4294967296 (memory (image_of_length 4294967296))
           (image_of_length 4294967296) 0).
  + reflexivity.
  + reflexivity.
  + vm_compute. reflexivity.
Qed.

Lemma uneven_tables_ok : complex_frame_ok 4 0xB 4 uneven_tables [Byte.x11].
Proof.
unfold complex_frame_ok, header_fits, child_ok, is_format_code.
split; [left; reflexivity|].
split; [left; vm_compute; intuition discriminate|].
split; [left; vm_compute; intuition discriminate|].
split; [| vm_compute; reflexivity].
repeat constructor; cbn; try (left; vm_compute; intuition discriminate);
  vm_compute; discriminate.
Qed.

Lemma HapDecode_inconsistent_instructions_witness :
@HapDecode hap snappy libc nat
  (Some (complex_frame 4 0xB 4 uneven_tables [Byte.x11]))
  (len (complex_frame 4 0xB 4 uneven_tables [Byte.x11]))
  (Some callback) 16 (memory (zeros 16))
= Done (HapResult_Bad_Frame, set_texture_format (memory (zeros 16)) 0x83F0).
Proof.
apply (@HapDecode_inconsistent_instructions hap snappy libc nat 4 0xB 4 uneven_tables
         [Byte.x11] callback 16 (memory (zeros 16)) (zeros 16) 0).
- reflexivity.
- exact uneven_tables_ok.
- reflexivity.
- reflexivity.
- left.
  exists {| child_header_length := 4; child_type := 2;
            child_payload := [Byte.x0a; Byte.x0b] |},
         {| child_header_length := 4; child_type := 3;
            child_payload := [Byte.x03; Byte.x00; Byte.x00; Byte.x00] |}.
  split; [left; reflexivity|]. split; [right; left; reflexivity|].
  vm_compute. repeat split; discriminate.
Defined.

Lemma empty_tables_ok : complex_frame_ok 4 0xB 4 empty_tables [Byte.x11].
Proof.
unfold complex_frame_ok, header_fits, child_ok, is_format_code.
split; [left; reflexivity|].
split; [left; vm_compute; intuition discriminate|].
split; [left; vm_compute; intuition discriminate|].
split; [| vm_compute; reflexivity].
repeat constructor; cbn; try (right; vm_compute; intuition discriminate);
  vm_compute; discriminate.
Qed.

Lemma HapDecode_no_chunks_witness :
@HapDecode hap snappy libc nat
  (Some (complex_frame 4 0xB 4 empty_tables [Byte.x11]))
  (len (complex_frame 4 0xB 4 empty_tables [Byte.x11]))
  (Some callback) 16 (memory (zeros 16))
= Done (HapResult_No_Error,
        {| outputBuffer := Some (zeros 16);
           outputBufferBytesUsed := Some 0;
           outputBufferTextureFormat := Some 0x83F0;
           info := O |}).
Proof.
apply (@HapDecode_no_chunks hap snappy libc nat 4 0xB 4 empty_tables
         [Byte.x11] callback 16 (memory (zeros 16)) (zeros 16) 0).
- reflexivity.
- exact empty_tables_ok.
- reflexivity.
- reflexivity.
- eexists. split; [left; reflexivity | reflexivity].
- eexists. split; [right; left; reflexivity | reflexivity].
- intros c [<- | [<- | []]]; reflexivity.
Defined.

(** C9 as stated fails: with both required tables empty and an offset
  table of one entry, the decode does not return No_Error. *)
Lemma empty_tables_with_offsets_fail :
(forall c, In c empty_tables -> child_payload c = []) /\
@HapDecode hap snappy libc nat
  (Some (complex_frame 4 0xB 4 (empty_tables ++ [one_offset]) [Byte.x11]))
  (len (complex_frame 4 0xB 4 (empty_tables ++ [one_offset]) [Byte.x11]))
  (Some callback) 16 (memory (zeros 16))
= Done (HapResult_Buffer_Too_Small, set_texture_format (memory (zeros 16)) 0x83F0)
/\ HapResult_Buffer_Too_Small <> HapResult_No_Error.
Proof.
split; [intros c [<- | [<- | []]]; reflexivity|].
split; [vm_compute; reflexivity | discriminate].
Qed.

Lemma HapDecode_chunks_exceed_capacity_witness :
exists m',
  @HapDecode hap snappy libc nat (Some two_chunks) 34 (Some callback) 6
    (memory (repeat Byte.xff 20))
  = Done (HapResult_Buffer_Too_Small, m') /\
  outputBuffer m' = outputBuffer (memory (repeat Byte.xff 20)) /\
  outputBufferBytesUsed m' = outputBufferBytesUsed (memory (repeat Byte.xff 20)) /\
  info m' = info (memory (repeat Byte.xff 20)).
Proof.
eapply (@HapDecode_chunks_exceed_capacity hap snappy libc nat two_chunks 34 callback 6
          (memory (repeat Byte.xff 20)) (repeat Byte.xff 20) 0
          {| sectionHeaderLength := 4; sectionLength := 30; sectionType := 0xCB |}
          {| sectionStart := 26; bytes_remaining := 0; chunk_count := 2;
             compressors := Some 12; chunk_sizes := Some 18; chunk_offsets := None;
             section := {| sectionHeaderLength := 4; sectionLength := 8;
                           sectionType := 3 |} |}
          26 12 18).
- reflexivity.
- reflexivity.
- vm_compute. reflexivity.
- reflexivity.
- vm_compute. discriminate.
- vm_compute. reflexivity.
- reflexivity.
- reflexivity.
- reflexivity.
- reflexivity.
- vm_compute. reflexivity.
- vm_compute. reflexivity.
- vm_compute. reflexivity.
Defined.

(** C6 as stated fails: a decode into a destination that is too small
  returns Buffer_Too_Small after it has written the texture format. *)
Lemma failing_decode_writes_texture_format :
exists m',
  @HapDecode hap snappy libc nat
    (Some [Byte.x04; Byte.x00; Byte.x00; Byte.xab; Byte.x01; Byte.x02; Byte.x03; Byte.x04])
    8 (Some callback) 2 (memory (zeros 2))
  = Done (HapResult_Buffer_Too_Small, m') /\
  outputBufferTextureFormat (memory (zeros 2)) = Some 0 /\
  outputBufferTextureFormat m' = Some 0x83F0.
Proof. eexists. split; [vm_compute; reflexivity | split; reflexivity]. Qed.

Lemma HapDecode_failure_out_parameters_witness :
outputBufferBytesUsed
  (set_texture_format (memory (zeros 2)) 0x83F0)
= outputBufferBytesUsed (memory (zeros 2)).
Proof.
refine (proj1 (@HapDecode_failure_out_parameters hap snappy libc nat
          (Some [Byte.x04; Byte.x00; Byte.x00; Byte.xab;
                 Byte.x01; Byte.x02; Byte.x03; Byte.x04])
          8 (Some callback) 2 (memory (zeros 2))
          (set_texture_format (memory (zeros 2)) 0x83F0)
          HapResult_Buffer_Too_Small _ _)).
- vm_compute. reflexivity.
- discriminate.
Defined.

End Instances.

(** * Further properties of the code *)

(** ** Little-endian fields *)

Lemma len_snoc (a : list byte) (b : byte) : len (a ++ [b]) = len a + 1.
Proof. rewrite len_app. reflexivity. Qed.

Lemma load_range (mem : list byte) (p : Z) :
  0 <= p < len mem -> exists v, load mem p = Done v /\ 0 <= v < 256.
Proof.
  intros Hp. unfold load. ztest.
  destruct (nth_error mem (Z.to_nat p)) as [b|] eqn:E.
  - exists (byte.unsigned b). split; [reflexivity|]. apply byte.unsigned_range.
  - apply nth_error_None in E. unfold len in Hp. lia.
Qed.

Lemma store_app (pre l : list byte) (k v : Z) :
  0 <= k ->
  store (pre ++ l) (len pre + k) v = (l' <- store l k v ;; Done (pre ++ l')).
Proof.
  intros Hk. unfold store. rewrite len_app. pose proof (len_nonneg pre).
  destruct (Z.ltb_spec k (len l)); ztest; [|reflexivity].
  cbn [bind]. f_equal. unfold len in *.
  rewrite firstn_app, skipn_app.
  replace (Z.to_nat (Z.of_nat (length pre) + k) - length pre)%nat with (Z.to_nat k) by lia.
  replace (S (Z.to_nat (Z.of_nat (length pre) + k)) - length pre)%nat
    with (S (Z.to_nat k)) by lia.
  rewrite firstn_all2 by lia. rewrite skipn_all2 by lia.
  cbn [app]. now rewrite <- app_assoc.
Qed.

Lemma store_shift (pre l : list byte) (p k v : Z) :
  p = len pre + k -> 0 <= k ->
  store (pre ++ l) p v = (l' <- store l k v ;; Done (pre ++ l')).
Proof. intros -> Hk. now apply store_app. Qed.

(** X1: a 32-bit value written by [hap_write_4_byte_uint] at a place
    inside the buffer is what [hap_read_4_byte_uint] reads there, and the
    write changes those four bytes only. *)
Theorem hap_write_read_4_byte_uint (pre old post : list byte) (v : Z) :
  len old = 4 -> 0 <= v < 2 ^ 32 ->
  exists new,
    len new = 4 /\
    hap_write_4_byte_uint (pre ++ old ++ post) (len pre) v = Done (pre ++ new ++ post) /\
    hap_read_4_byte_uint (pre ++ new ++ post) (len pre) = Done v.
Proof.
  intros Hold Hv.
  destruct old as [|b0 [|b1 [|b2 [|b3 [|b4 old]]]]];
    repeat rewrite ?len_cons, ?len_nil in Hold; try lia;
    try (pose proof (len_nonneg old); lia).
  eexists [_; _; _; _]. split; [reflexivity|].
  unfold hap_write_4_byte_uint, hap_read_4_byte_uint. cbn [app].
  rewrite (store_shift pre _ (len pre) 0) by lia. rewrite store_0. cbn [bind].
  rewrite (store_shift pre _ (len pre + 1) 1) by lia. rewrite store_1. cbn [bind].
  rewrite (store_shift pre _ (len pre + 2) 2) by lia. rewrite store_2. cbn [bind].
  rewrite (store_shift pre _ (len pre + 3) 3) by lia. rewrite store_3. cbn [bind].
  split; [reflexivity|].
  rewrite (load_shift pre _ (len pre) 0) by lia.
  rewrite (load_shift pre _ (len pre + 1) 1) by lia.
  rewrite (load_shift pre _ (len pre + 2) 2) by lia.
  rewrite (load_shift pre _ (len pre + 3) 3) by lia.
  rewrite load_0, load_1, load_2, load_3. cbn [bind].
  now rewrite le_value_4.
Qed.

Lemma hap_write_read_4_byte_uint_witness :
  exists new,
    len new = 4 /\
    hap_write_4_byte_uint ([Byte.x11] ++ [Byte.x00; Byte.x00; Byte.x00; Byte.x00] ++ [Byte.x22])
      (len [Byte.x11]) 0xFFFFFFFC
    = Done ([Byte.x11] ++ new ++ [Byte.x22]) /\
    hap_read_4_byte_uint ([Byte.x11] ++ new ++ [Byte.x22]) (len [Byte.x11]) = Done 0xFFFFFFFC.
Proof.
  apply (hap_write_read_4_byte_uint [Byte.x11] [Byte.x00; Byte.x00; Byte.x00; Byte.x00]
           [Byte.x22] 0xFFFFFFFC).
  - reflexivity.
  - lia.
Defined.

(** ** Section headers *)



(** X3: given a buffer that holds the [buffer_length] bytes it is said
    to hold, [hap_read_section_header] reads no byte outside it: it
    returns, and its result is No_Error or Bad_Frame. *)
Theorem hap_read_section_header_in_bounds
    (mem : list byte) (p n : Z) (out : section_vars) :
  0 <= p -> p + n <= len mem ->
  exists r sv,
    hap_read_section_header mem p n out = Done (r, sv) /\
    (r = HapResult_No_Error \/ r = HapResult_Bad_Frame).
Proof.
  intros Hp Hn. unfold hap_read_section_header.
  destruct (Z.ltb_spec n 4); [eauto|].
  unfold hap_read_3_byte_uint, hap_read_4_byte_uint.
  destruct (load_range mem p) as (b0 & -> & _); [lia|].
  destruct (load_range mem (p + 1)) as (b1 & -> & _); [lia|].
  destruct (load_range mem (p + 2)) as (b2 & -> & _); [lia|].
  destruct (load_range mem (p + 3)) as (b3 & E3 & _); [lia|].
  cbn [bind].
  destruct (_ =? 0).
  - destruct (Z.ltb_spec n 8); [eauto|].
    destruct (load_range mem (p + 4)) as (b4 & -> & _); [lia|].
    destruct (load_range mem (p + 4 + 1)) as (b5 & -> & _); [lia|].
    destruct (load_range mem (p + 4 + 2)) as (b6 & -> & _); [lia|].
    destruct (load_range mem (p + 4 + 3)) as (b7 & -> & _); [lia|].
    rewrite E3. cbn [bind]. destruct (_ >? n); eauto.
  - rewrite E3. cbn [bind]. destruct (_ >? n); eauto.
Qed.

Lemma hap_read_section_header_in_bounds_witness :
  exists r sv,
    hap_read_section_header [Byte.x00; Byte.x00; Byte.x00; Byte.xab; Byte.x01] 0 5
      section_vars_unset = Done (r, sv) /\
    (r = HapResult_No_Error \/ r = HapResult_Bad_Frame).
Proof.
  apply (hap_read_section_header_in_bounds
           [Byte.x00; Byte.x00; Byte.x00; Byte.xab; Byte.x01] 0 5 section_vars_unset).
  - lia.
  - vm_compute. discriminate.
Defined.

Lemma Done_inj (A : Type) (a b : A) : Done a = Done b -> a = b.
Proof. congruence. Qed.

Lemma load_value (mem : list byte) (p v : Z) : load mem p = Done v -> 0 <= v < 256.
Proof.
  unfold load. intros E. exec_case E. apply byte.unsigned_range.
Qed.

Lemma hap_read_3_byte_uint_range (mem : list byte) (p v : Z) :
  hap_read_3_byte_uint mem p = Done v -> 0 <= v < 2 ^ 24.
Proof.
  unfold hap_read_3_byte_uint. intros E.
  destruct (load mem p) as [b0|] eqn:E0; cbn [bind] in E; [|discriminate].
  destruct (load mem (p + 1)) as [b1|] eqn:E1; cbn [bind] in E; [|discriminate].
  destruct (load mem (p + 2)) as [b2|] eqn:E2; cbn [bind] in E; [|discriminate].
  apply load_value in E0, E1, E2. apply Done_inj in E. subst v.
  rewrite !Z.shiftl_mul_pow2 by lia. unfold to_uint32.
  change (2 ^ 8) with 256. change (2 ^ 16) with 65536.
  change (2 ^ 24) with 16777216. change (2 ^ 32) with 4294967296.
  rewrite Z.mod_small by lia. lia.
Qed.

(** X4: when [hap_read_section_header] returns No_Error, the header
    length is 4 with a section length of 1 to [kHapUInt24Max], or 8 with
    any 32-bit section length; the type is a byte; and header and section
    lie within [buffer_length], provided the section length is at most
    [0xFFFFFFF7] (so that the 32-bit sum does not wrap). *)
Theorem hap_read_section_header_accepts
    (mem : list byte) (p n : Z) (out sv : section_vars) :
  hap_read_section_header mem p n out = Done (HapResult_No_Error, sv) ->
  header_fits (sectionHeaderLength sv) (sectionLength sv) /\
  0 <= sectionType sv < 256 /\
  sectionHeaderLength sv <= n /\
  (sectionLength sv <= 0xFFFFFFF7 -> sectionHeaderLength sv + sectionLength sv <= n).
Proof.
  unfold hap_read_section_header, header_fits, kHapUInt24Max. intros E.
  destruct (Z.ltb_spec n 4); [discriminate|].
  destruct (hap_read_3_byte_uint mem p) as [l3|] eqn:E3; cbn [bind] in E; [|discriminate].
  pose proof (hap_read_3_byte_uint_range _ _ _ E3) as R3.
  change (2 ^ 24) with 16777216 in R3.
  destruct (Z.eqb_spec l3 0) as [-> | N3].
  - destruct (Z.ltb_spec n 8); [discriminate|].
    destruct (hap_read_4_byte_uint mem (p + 4)) as [l4|] eqn:E4; cbn [bind] in E;
      [|discriminate].
    pose proof (hap_read_4_byte_uint_range _ _ _ E4) as R4.
    destruct (load mem (p + 3)) as [ty|] eqn:Et; cbn [bind] in E; [|discriminate].
    apply load_value in Et.
    destruct (Z.gtb_spec (to_uint32 (8 + l4)) n) as [G | G]; inversion E; subst sv.
    cbn [sectionHeaderLength sectionLength sectionType].
    change (2 ^ 32) with 4294967296 in *.
    split; [lia|]. split; [lia|]. split; [lia|].
    intros Hs. rewrite to_uint32_small in G; [lia|].
    change (2 ^ 32) with 4294967296. lia.
  - destruct (load mem (p + 3)) as [ty|] eqn:Et; cbn [bind] in E; [|discriminate].
    apply load_value in Et.
    destruct (Z.gtb_spec (to_uint32 (4 + l3)) n) as [G | G]; inversion E; subst sv.
    cbn [sectionHeaderLength sectionLength sectionType].
    rewrite to_uint32_small in G by (change (2 ^ 32) with 4294967296; lia).
    split; [lia|]. split; [lia|]. split; lia.
Qed.

Lemma hap_read_section_header_accepts_witness :
  header_fits 4 1 /\ 0 <= 0xAB < 256 /\ 4 <= 5 /\ (1 <= 0xFFFFFFF7 -> 4 + 1 <= 5).
Proof.
  apply (hap_read_section_header_accepts
           [Byte.x01; Byte.x00; Byte.x00; Byte.xab; Byte.x07] 0 5 section_vars_unset
           {| sectionHeaderLength := 4; sectionLength := 1; sectionType := 0xAB |}).
  vm_compute. reflexivity.
Defined.

(** ** Format identifiers *)

(** X5: the two format tables are inverse to each other on the three
    texture formats and their three identifiers, and each maps every other
    value to 0. *)
Theorem format_tables_inverse (H : hap_h) :
  hap_h_ok H = true ->
  (forall t, is_texture_format t ->
             hap_texture_format_constant_for_format_identifier
               (hap_texture_format_identifier_for_format_constant t) = t) /\
  (forall f, is_format_code f ->
             hap_texture_format_identifier_for_format_constant
               (hap_texture_format_constant_for_format_identifier f) = f) /\
  (forall t, ~ is_texture_format t ->
             hap_texture_format_identifier_for_format_constant t = 0) /\
  (forall f, ~ is_format_code f ->
             hap_texture_format_constant_for_format_identifier f = 0).
Proof.
  intros Hok.
  pose proof (hap_h_ok_facts Hok) as (? & ? & ? & ? & ? & ? & ?).
  repeat split.
  - intros t Ht. now apply format_identifier_of_constant.
  - unfold is_format_code, hap_texture_format_identifier_for_format_constant,
      hap_texture_format_constant_for_format_identifier.
    intros f [-> | [-> | ->]]; cbn; ztest; reflexivity.
  - unfold is_texture_format, hap_texture_format_identifier_for_format_constant.
    intros t Ht.
    destruct (Z.eqb_spec t HapTextureFormat_RGB_DXT1); [tauto|].
    destruct (Z.eqb_spec t HapTextureFormat_RGBA_DXT5); [tauto|].
    destruct (Z.eqb_spec t HapTextureFormat_YCoCg_DXT5); [tauto|]. reflexivity.
  - unfold is_format_code, hap_texture_format_constant_for_format_identifier.
    intros f Hf.
    destruct (Z.eqb_spec f kHapFormatRGBDXT1); [tauto|].
    destruct (Z.eqb_spec f kHapFormatRGBADXT5); [tauto|].
    destruct (Z.eqb_spec f kHapFormatYCoCgDXT5); [tauto|]. reflexivity.
Qed.

Lemma format_tables_inverse_witness :
  (forall t, @is_texture_format Fixtures.hap t ->
             @hap_texture_format_constant_for_format_identifier Fixtures.hap
               (@hap_texture_format_identifier_for_format_constant Fixtures.hap t) = t) /\
  (forall f, is_format_code f ->
             @hap_texture_format_identifier_for_format_constant Fixtures.hap
               (@hap_texture_format_constant_for_format_identifier Fixtures.hap f) = f) /\
  (forall t, ~ @is_texture_format Fixtures.hap t ->
             @hap_texture_format_identifier_for_format_constant Fixtures.hap t = 0) /\
  (forall f, ~ is_format_code f ->
             @hap_texture_format_constant_for_format_identifier Fixtures.hap f = 0).
Proof.
  apply (format_tables_inverse Fixtures.hap). reflexivity.
Defined.

(** ** The encoder *)

Section EncoderExtras.
Context {H : hap_h} {S : snappy_c}.

(** X6: [HapEncode] returns Bad_Arguments, and leaves the destination and
    the byte count as they were, when the input length is 0, when the
    texture format is none of the three formats, or when the compressor is
    neither preference; the buffers are not looked at. *)
Theorem HapEncode_rejects_arguments
    (inputBuffer : option (list byte)) (n tf c : Z) (outputBuffer : option (list byte))
    (outputBufferBytes : Z) (used : option Z) :
  n = 0 \/ ~ is_texture_format tf \/ (c <> HapCompressorNone /\ c <> HapCompressorSnappy) ->
  HapEncode inputBuffer n tf c outputBuffer outputBufferBytes used
  = Done (HapResult_Bad_Arguments, outputBuffer, used).
Proof.
  intros Hbad. unfold HapEncode. destruct inputBuffer as [input|]; [|reflexivity].
  match goal with |- (if ?b then _ else _) = _ => replace b with true; [reflexivity|] end.
  symmetry. unfold is_texture_format in Hbad.
  destruct Hbad as [-> | [Htf | [Hc1 Hc2]]].
  - reflexivity.
  - apply orb_true_iff. left. apply orb_true_iff. right.
    destruct (Z.eqb_spec tf HapTextureFormat_RGB_DXT1); [tauto|].
    destruct (Z.eqb_spec tf HapTextureFormat_RGBA_DXT5); [tauto|].
    destruct (Z.eqb_spec tf HapTextureFormat_YCoCg_DXT5); [tauto|]. reflexivity.
  - apply orb_true_iff. right.
    destruct (Z.eqb_spec c HapCompressorNone); [tauto|].
    destruct (Z.eqb_spec c HapCompressorSnappy); [tauto|]. reflexivity.
Qed.

(** X7: a destination of [HapMaxEncodedLength] bytes is always enough:
    on valid arguments, with a compressor that keeps to its own bound,
    [HapEncode] returns No_Error with a byte count within the
    destination. *)
Theorem HapMaxEncodedLength_suffices
    (x : list byte) (tf compressor : Z) (dst : list byte) (used : Z) :
  hap_h_ok H = true ->
  0 < len x -> is_texture_format tf ->
  compressor = HapCompressorNone \/ compressor = HapCompressorSnappy ->
  len x + 8 < 2 ^ 64 ->
  to_size_t (snappy_max_compressed_length (len x)) + 8 < 2 ^ 64 ->
  len dst = HapMaxEncodedLength (len x) ->
  compressor_obliges compressor x (len dst) ->
  exists frame n,
    HapEncode (Some x) (len x) tf compressor (Some dst) (len dst) (Some used)
    = Done (HapResult_No_Error, Some frame, Some n) /\
    0 < n <= len dst.
Proof.
  intros Hok Hx Htf Hc H64 Hmax64 Hdst Hobl.
  pose proof (HapEncode_headerLength_cases (len x)) as Hhl.
  pose proof (to_size_t_range (snappy_max_compressed_length (len x))) as Hr.
  assert (Hcap : HapEncode_headerLength (len x)
                 + HapEncode_maxCompressedLength compressor (len x) <= len dst).
  { rewrite Hdst. unfold HapMaxEncodedLength, HapEncode_maxCompressedLength.
    cbv zeta. remember (to_size_t (snappy_max_compressed_length (len x))) as A.
    destruct (compressor =? HapCompressorSnappy);
      repeat match goal with
             | |- context [?a <? ?b] => destruct (Z.ltb_spec a b)
             end; rewrite to_size_t_small by lia; lia. }
  destruct (HapEncode_success Hok x tf compressor dst (Some used) Hx Htf Hc Hcap Hobl)
    as (tail & E & Ltail).
  eexists. eexists. split; [exact E|].
  pose proof (len_nonneg tail).
  assert (0 < len (snd (stored_frame compressor x (len dst)))).
  { destruct (stored_frame_cases compressor x (len dst)) as [Es | (_ & Es & ?)];
      rewrite Es; cbn [snd]; lia. }
  assert (len dst < 2 ^ 64).
  { rewrite Hdst. apply to_size_t_range. }
  rewrite to_size_t_small by lia. lia.
Qed.

(** X8: an encode that succeeds never reports more bytes than the input
    has plus its header, whatever the compressor produced, and it keeps the
    length of the destination buffer. *)
Theorem HapEncode_never_expands
    (x : list byte) (tf compressor : Z) (dst : list byte) (used : Z) :
  hap_h_ok H = true ->
  0 < len x -> len x + 8 < 2 ^ 64 -> is_texture_format tf ->
  compressor = HapCompressorNone \/ compressor = HapCompressorSnappy ->
  HapEncode_headerLength (len x) + HapEncode_maxCompressedLength compressor (len x)
  <= len dst ->
  compressor_obliges compressor x (len dst) ->
  exists frame n,
    HapEncode (Some x) (len x) tf compressor (Some dst) (len dst) (Some used)
    = Done (HapResult_No_Error, Some frame, Some n) /\
    HapEncode_headerLength (len x) < n <= len x + HapEncode_headerLength (len x) /\
    len frame = len dst.
Proof.
  intros Hok Hx H64 Htf Hc Hcap Hobl.
  pose proof (HapEncode_headerLength_cases (len x)) as Hhl.
  destruct (HapEncode_success Hok x tf compressor dst (Some used) Hx Htf Hc Hcap Hobl)
    as (tail & E & Ltail).
  eexists. eexists. split; [exact E|].
  assert (0 < len (snd (stored_frame compressor x (len dst))) <= len x).
  { destruct (stored_frame_cases compressor x (len dst)) as [Es | (_ & Es & ?)];
      rewrite Es; cbn [snd]; lia. }
  split.
  - rewrite to_size_t_small by lia. lia.
  - rewrite !len_app, len_section_header_bytes by assumption. lia.
Qed.

(** X9: when the compressor reports a failure, [HapEncode] returns
    Internal_Error and leaves the byte count as it was. *)
Theorem HapEncode_compressor_failure
    (x : list byte) (tf : Z) (dst : list byte) (used : option Z) :
  hap_h_ok H = true ->
  0 < len x -> is_texture_format tf ->
  HapEncode_headerLength (len x)
  + HapEncode_maxCompressedLength HapCompressorSnappy (len x) <= len dst ->
  fst (snappy_compress x (len dst)) <> SNAPPY_OK ->
  len (snd (snappy_compress x (len dst)))
  <= HapEncode_maxCompressedLength HapCompressorSnappy (len x) ->
  exists out,
    HapEncode (Some x) (len x) tf HapCompressorSnappy (Some dst) (len dst) used
    = Done (HapResult_Internal_Error, Some out, used) /\ len out = len dst.
Proof.
  intros Hok Hx Htf Hcap Hfail Hlen.
  pose proof (hap_h_ok_facts Hok) as (? & ? & ? & ? & ? & ? & ?).
  pose proof (HapEncode_headerLength_cases (len x)) as Hhl.
  pose proof (HapEncode_maxCompressedLength_ge HapCompressorSnappy (len x)) as Hmax.
  assert (Hsz : 0 <= to_size_t (HapEncode_maxCompressedLength HapCompressorSnappy (len x)
                                + HapEncode_headerLength (len x))
                <= HapEncode_maxCompressedLength HapCompressorSnappy (len x)
                   + HapEncode_headerLength (len x))
    by (apply to_size_t_le; lia).
  unfold HapEncode.
  replace (negb (tf =? HapTextureFormat_RGB_DXT1) && negb (tf =? HapTextureFormat_RGBA_DXT5)
           && negb (tf =? HapTextureFormat_YCoCg_DXT5)) with false
    by (destruct Htf as [-> | [-> | ->]]; ztest; reflexivity).
  ztest. rewrite load_bytes_all. cbn [bind].
  destruct (snappy_compress x (len dst)) as [st c]. cbn [fst snd] in *.
  pose proof (len_nonneg c).
  destruct (store_bytes_split dst (HapEncode_headerLength (len x)) c)
    as (pre & old & post & -> & Lpre & Lold & E); [lia | lia |].
  rewrite E. cbn [bind].
  destruct st; [congruence | |]; cbn [snappy_is_ok negb];
    (eexists; split; [reflexivity | rewrite !len_app; lia]).
Qed.
End EncoderExtras.

Section EncoderInstances.
Import Fixtures.

Lemma HapEncode_rejects_arguments_witness :
  @HapEncode hap snappy (Some (zeros 4)) 4 7 0 (Some (zeros 16)) 16 (Some 0)
  = Done (HapResult_Bad_Arguments, Some (zeros 16), Some 0).
Proof.
  apply (@HapEncode_rejects_arguments hap snappy).
  right. left. unfold is_texture_format. cbn. lia.
Defined.

Lemma HapMaxEncodedLength_suffices_witness :
  exists frame n,
    @HapEncode hap snappy (Some (zeros 12)) (len (zeros 12)) 0x83F0 1
      (Some (zeros 33)) (len (zeros 33)) (Some 0)
    = Done (HapResult_No_Error, Some frame, Some n) /\
    0 < n <= len (zeros 33).
Proof.
  apply (@HapMaxEncodedLength_suffices hap snappy (zeros 12) 0x83F0 1 (zeros 33) 0).
  - reflexivity.
  - reflexivity.
  - left. reflexivity.
  - right. reflexivity.
  - reflexivity.
  - reflexivity.
  - reflexivity.
  - intros _. vm_compute. split; [reflexivity | discriminate].
Defined.

Lemma HapEncode_never_expands_witness :
  exists frame n,
    @HapEncode hap snappy (Some ramp) (len ramp) 0x83F0 1
      (Some (zeros 32)) (len (zeros 32)) (Some 0)
    = Done (HapResult_No_Error, Some frame, Some n) /\
    HapEncode_headerLength (len ramp) < n <= len ramp + HapEncode_headerLength (len ramp) /\
    len frame = len (zeros 32).
Proof.
  apply (@HapEncode_never_expands hap snappy ramp 0x83F0 1 (zeros 32) 0).
  - reflexivity.
  - reflexivity.
  - reflexivity.
  - left. reflexivity.
  - right. reflexivity.
  - vm_compute. discriminate.
  - intros _. vm_compute. split; [reflexivity | discriminate].
Defined.

Lemma HapEncode_compressor_failure_witness :
  exists out,
    @HapEncode hap snappy (Some (zeros 256)) (len (zeros 256)) 0x83F0 1
      (Some (zeros 517)) (len (zeros 517)) (Some 0)
    = Done (HapResult_Internal_Error, Some out, Some 0) /\ len out = len (zeros 517).
Proof.
  apply (@HapEncode_compressor_failure hap snappy (zeros 256) 0x83F0 (zeros 517) (Some 0)).
  - reflexivity.
  - reflexivity.
  - left. reflexivity.
  - vm_compute. discriminate.
  - vm_compute. discriminate.
  - vm_compute. discriminate.
Defined.
End EncoderInstances.

(** ** The decoder *)

Section DecoderExtras.
Context {H : hap_h} {S : snappy_c} {L : stdlib_h} {Info : Type}.

(** X10: a buffer of four bytes or fewer is never a frame: [HapDecode]
    returns Bad_Frame and writes nothing. *)
Theorem HapDecode_short_buffer
    (input : list byte) (callback : HapDecodeCallback Info) (capacity : Z)
    (m : decode_memory Info) (out : list byte) (old : Z) :
  outputBuffer m = Some out -> outputBufferTextureFormat m = Some old ->
  len input <= 4 ->
  HapDecode (Some input) (len input) (Some callback) capacity m
  = Done (HapResult_Bad_Frame, m).
Proof.
  intros Hout Hold Hlen. unfold HapDecode. rewrite Hout, Hold.
  pose proof (len_nonneg input) as Hn.
  rewrite to_uint32_small by (change (2 ^ 32) with 4294967296; lia).
  unfold hap_read_section_header.
  destruct (Z.ltb_spec (len input) 4); [reflexivity|].
  destruct (hap_read_3_byte_uint input 0) as [l3|] eqn:E3.
  - pose proof (hap_read_3_byte_uint_range _ _ _ E3) as R3.
    change (2 ^ 24) with 16777216 in R3. cbn [bind].
    destruct (Z.eqb_spec l3 0).
    + replace (len input <? 8) with true by (symmetry; apply Z.ltb_lt; lia).
      reflexivity.
    + destruct (load_range input (0 + 3)) as (ty & -> & _); [lia|]. cbn [bind].
      rewrite to_uint32_small by (change (2 ^ 32) with 4294967296; lia).
      replace (4 + l3 >? len input) with true by (symmetry; ztest; lia).
      reflexivity.
  - exfalso. unfold hap_read_3_byte_uint in E3.
    destruct (load_range input 0) as (b0 & E0 & _); [lia|].
    destruct (load_range input (0 + 1)) as (b1 & E1 & _); [lia|].
    destruct (load_range input (0 + 2)) as (b2 & E2 & _); [lia|].
    rewrite E0, E1, E2 in E3. discriminate E3.
Qed.

(** X11: a frame whose type byte names no texture format in its low
    four bits makes [HapDecode] return Bad_Frame whatever the compressor
    bits are, Complex included; the format cell then holds 0 and nothing
    else is written. *)
Theorem HapDecode_unknown_format
    (hl ty : Z) (payload tail : list byte) (n : Z)
    (callback : HapDecodeCallback Info) (capacity : Z) (m : decode_memory Info)
    (out : list byte) (old : Z) :
  header_fits hl (len payload) -> 0 <= ty < 256 ->
  ~ is_format_code (hap_bottom_4_bits ty) ->
  hl + len payload <= n < 2 ^ 32 ->
  outputBuffer m = Some out -> outputBufferTextureFormat m = Some old ->
  HapDecode (Some (section_header_bytes hl (len payload) ty ++ payload ++ tail))
    n (Some callback) capacity m
  = Done (HapResult_Bad_Frame, set_texture_format m 0).
Proof.
  intros Hfit Hty Hfmt Hn Hout Hold. unfold HapDecode. rewrite Hout, Hold.
  rewrite read_frame_header by assumption. cbn [bind HapResult_eqb negb sectionType].
  assert (E : hap_texture_format_constant_for_format_identifier (hap_bottom_4_bits ty) = 0).
  { unfold hap_texture_format_constant_for_format_identifier, is_format_code in *.
    destruct (Z.eqb_spec (hap_bottom_4_bits ty) kHapFormatRGBDXT1); [tauto|].
    destruct (Z.eqb_spec (hap_bottom_4_bits ty) kHapFormatRGBADXT5); [tauto|].
    destruct (Z.eqb_spec (hap_bottom_4_bits ty) kHapFormatYCoCgDXT5); [tauto|].
    reflexivity. }
  rewrite E. reflexivity.
Qed.

(** X12: a frame that stores its payload uncompressed and is longer than
    the destination's capacity makes [HapDecode] return Buffer_Too_Small
    with the output buffer and the byte count as they were. *)
Theorem HapDecode_raw_frame_too_large
    (hl fmt : Z) (payload tail : list byte) (n : Z)
    (callback : HapDecodeCallback Info) (capacity : Z) (m : decode_memory Info)
    (out : list byte) (old : Z) :
  hap_h_ok H = true ->
  header_fits hl (len payload) -> is_format_code fmt ->
  hl + len payload <= n < 2 ^ 32 ->
  outputBuffer m = Some out -> outputBufferTextureFormat m = Some old ->
  capacity < len payload ->
  HapDecode
    (Some (section_header_bytes hl (len payload)
             (hap_4_bit_packed_byte kHapCompressorNone fmt) ++ payload ++ tail))
    n (Some callback) capacity m
  = Done (HapResult_Buffer_Too_Small,
          set_texture_format m (hap_texture_format_constant_for_format_identifier fmt)).
Proof.
  intros Hok Hfit Hfmt Hn Hout Hold Hcap.
  destruct (packed_byte_nibbles kHapCompressorNone fmt) as (Hty & Htop & Hbot);
    [left; reflexivity | assumption |].
  pose proof (format_constant_nonzero Hok fmt Hfmt) as Hnz.
  unfold HapDecode. rewrite Hout, Hold.
  rewrite read_frame_header by assumption. cbn [bind HapResult_eqb negb sectionType].
  rewrite Htop, Hbot. ztest.
  change (kHapCompressorNone =? kHapCompressorComplex) with false.
  change (kHapCompressorNone =? kHapCompressorSnappy) with false.
  change (kHapCompressorNone =? kHapCompressorNone) with true.
  cbv iota. cbn [sectionLength]. ztest. reflexivity.
Qed.

Lemma HapDecode_complex_texture_format
    (input : list byte) (n : Z) (callback : HapDecodeCallback Info) (out : list byte)
    (capacity : Z) (m : decode_memory Info) (sv : section_vars)
    (r : HapResult) (m' : decode_memory Info) :
  HapDecode_complex input n callback out capacity m sv = Done (r, m') ->
  outputBufferTextureFormat m' = outputBufferTextureFormat m.
Proof.
  unfold HapDecode_complex, HapDecode_chunks, HapDecode_return, set_output.
  intros E. exec_case E; reflexivity.
Qed.

(** X13: whenever [HapDecode] returns No_Error, the texture format it
    reports is a recognised one, and [HapGetFrameTextureFormat] on the same
    buffer returns No_Error with the same format. *)
Theorem HapGetFrameTextureFormat_agrees_with_HapDecode
    (inputBuffer : option (list byte)) (n : Z)
    (callback : option (HapDecodeCallback Info)) (capacity : Z)
    (m m' : decode_memory Info) (old : Z) :
  HapDecode inputBuffer n callback capacity m = Done (HapResult_No_Error, m') ->
  exists format,
    format <> 0 /\
    outputBufferTextureFormat m' = Some format /\
    HapGetFrameTextureFormat inputBuffer n (Some old) = Done (HapResult_No_Error, Some format).
Proof.
  unfold HapDecode, HapGetFrameTextureFormat. intros E.
  destruct inputBuffer as [input|]; [|discriminate].
  destruct callback as [cb|]; [|discriminate].
  destruct (outputBuffer m) as [out|]; [|discriminate].
  destruct (outputBufferTextureFormat m) as [old'|] eqn:Eold; [|discriminate].
  destruct (hap_read_section_header input 0 (to_uint32 n) section_vars_unset)
    as [[r0 sv]|]; cbn [bind] in *; [|discriminate].
  destruct r0; cbn [HapResult_eqb negb] in *; try discriminate.
  set (fmt := hap_texture_format_constant_for_format_identifier
                (hap_bottom_4_bits (sectionType sv))) in *.
  assert (Hf : outputBufferTextureFormat (set_texture_format m fmt) = Some fmt)
    by (unfold set_texture_format; cbn; now rewrite Eold).
  destruct (Z.eqb_spec fmt 0) as [E0 | N0]; [discriminate|].
  exists fmt. split; [assumption|]. split; [|reflexivity].
  destruct (hap_top_4_bits (sectionType sv) =? kHapCompressorComplex).
  - apply HapDecode_complex_texture_format in E. congruence.
  - unfold HapDecode_return, set_output in E.
    exec_case E; cbn; assumption.
Qed.
End DecoderExtras.

Section DecoderInstances.
Import Fixtures.

Lemma HapDecode_short_buffer_witness :
  @HapDecode hap snappy libc nat (Some [Byte.x00; Byte.x00; Byte.x00; Byte.xab])
    (len [Byte.x00; Byte.x00; Byte.x00; Byte.xab]) (Some callback) 16 (memory (zeros 16))
  = Done (HapResult_Bad_Frame, memory (zeros 16)).
Proof.
  apply (@HapDecode_short_buffer hap snappy libc nat
           [Byte.x00; Byte.x00; Byte.x00; Byte.xab] callback 16 (memory (zeros 16))
           (zeros 16) 0).
  - reflexivity.
  - reflexivity.
  - vm_compute. discriminate.
Defined.

Lemma HapDecode_unknown_format_witness :
  @HapDecode hap snappy libc nat
    (Some (section_header_bytes 4 (len [Byte.x07]) 0xC0 ++ [Byte.x07] ++ []))
    5 (Some callback) 16 (memory (zeros 16))
  = Done (HapResult_Bad_Frame, set_texture_format (memory (zeros 16)) 0).
Proof.
  apply (@HapDecode_unknown_format hap snappy libc nat 4 0xC0 [Byte.x07] [] 5 callback 16
           (memory (zeros 16)) (zeros 16) 0).
  - left. vm_compute. intuition discriminate.
  - vm_compute. intuition discriminate.
  - vm_compute. intuition discriminate.
  - vm_compute. intuition discriminate.
  - reflexivity.
  - reflexivity.
Defined.

Lemma HapDecode_raw_frame_too_large_witness :
  @HapDecode hap snappy libc nat
    (Some (section_header_bytes 4 (len ramp) (hap_4_bit_packed_byte kHapCompressorNone 0xE)
           ++ ramp ++ []))
    9 (Some callback) 4 (memory (zeros 4))
  = Done (HapResult_Buffer_Too_Small,
          set_texture_format (memory (zeros 4))
            (@hap_texture_format_constant_for_format_identifier hap 0xE)).
Proof.
  apply (@HapDecode_raw_frame_too_large hap snappy libc nat 4 0xE ramp [] 9 callback 4
           (memory (zeros 4)) (zeros 4) 0).
  - reflexivity.
  - left. vm_compute. intuition discriminate.
  - right. left. reflexivity.
  - vm_compute. intuition discriminate.
  - reflexivity.
  - reflexivity.
  - vm_compute. reflexivity.
Defined.

Lemma HapGetFrameTextureFormat_agrees_with_HapDecode_witness :
  exists format,
    format <> 0 /\
    outputBufferTextureFormat
      {| outputBuffer := Some (ramp ++ zeros 3);
         outputBufferBytesUsed := Some 5;
         outputBufferTextureFormat := Some 0x83F3;
         info := O |} = Some format /\
    @HapGetFrameTextureFormat hap
      (Some [Byte.x05; Byte.x00; Byte.x00; Byte.xae;
             Byte.x01; Byte.x02; Byte.x03; Byte.x04; Byte.x05]) 9 (Some 0)
    = Done (HapResult_No_Error, Some format).
Proof.
  apply (@HapGetFrameTextureFormat_agrees_with_HapDecode hap snappy libc nat
           (Some [Byte.x05; Byte.x00; Byte.x00; Byte.xae;
                  Byte.x01; Byte.x02; Byte.x03; Byte.x04; Byte.x05])
           9 (Some callback) 8 (memory (zeros 8))).
  vm_compute. reflexivity.
Defined.
End DecoderInstances.

Section SnappyFrameErrors.
Context {H : hap_h} {S : snappy_c} {L : stdlib_h} {Info : Type}.

(** X14: for a frame whose single section is compressed, a failure of the
    compressor's length query makes [HapDecode] return Internal_Error (not
    Bad_Frame), and a reported length above the capacity makes it return
    Buffer_Too_Small; in both cases the output buffer and the byte count
    are as they were. *)
Theorem HapDecode_snappy_frame_errors
    (hl fmt : Z) (payload tail : list byte) (n : Z)
    (callback : HapDecodeCallback Info) (capacity : Z) (m : decode_memory Info)
    (out : list byte) (old : Z) (st : snappy_status) (reported : Z) :
  hap_h_ok H = true ->
  header_fits hl (len payload) -> is_format_code fmt ->
  hl + len payload <= n < 2 ^ 32 ->
  outputBuffer m = Some out -> outputBufferTextureFormat m = Some old ->
  snappy_uncompressed_length payload = (st, reported) ->
  st <> SNAPPY_OK \/ capacity < to_size_t reported ->
  HapDecode
    (Some (section_header_bytes hl (len payload)
             (hap_4_bit_packed_byte kHapCompressorSnappy fmt) ++ payload ++ tail))
    n (Some callback) capacity m
  = Done (if snappy_is_ok st then HapResult_Buffer_Too_Small else HapResult_Internal_Error,
          set_texture_format m (hap_texture_format_constant_for_format_identifier fmt)).
Proof.
  intros Hok Hfit Hfmt Hn Hout Hold Hlen Hbad.
  destruct (packed_byte_nibbles kHapCompressorSnappy fmt) as (Hty & Htop & Hbot);
    [right; left; reflexivity | assumption |].
  pose proof (format_constant_nonzero Hok fmt Hfmt) as Hnz.
  assert (Hhl : hl = 4 \/ hl = 8) by (destruct Hfit as [[-> _] | [-> _]]; auto).
  unfold HapDecode. rewrite Hout, Hold.
  rewrite read_frame_header by assumption. cbn [bind HapResult_eqb negb sectionType].
  rewrite Htop, Hbot. ztest.
  change (kHapCompressorSnappy =? kHapCompressorComplex) with false.
  change (kHapCompressorSnappy =? kHapCompressorSnappy) with true.
  cbv iota. cbn [sectionLength sectionHeaderLength].
  rewrite load_bytes_span by (auto using len_section_header_bytes).
  cbn [bind]. rewrite Hlen.
  destruct st; cbn [snappy_is_ok negb]; try reflexivity.
  destruct Hbad as [Hst | Hcap]; [congruence|]. ztest. reflexivity.
Qed.
End SnappyFrameErrors.

(** ** The chunk results *)

(** X15: after the callback, the loop over the chunk table reports the
    result of the first chunk, in index order, that is not No_Error, and
    No_Error when there is none. *)
Theorem hap_first_error_reports_first
    (chunks : list HapChunkDecodeInfo) (results : list HapResult) :
  map result chunks = map Some results ->
  hap_first_error (length chunks) 0 chunks
  = Done (match find (fun r => negb (HapResult_eqb r HapResult_No_Error)) results with
          | Some r => r
          | None => HapResult_No_Error
          end).
Proof.
  intros Hres.
  enough (G : forall (rest : list HapChunkDecodeInfo) (rs : list HapResult)
                     (done : list HapChunkDecodeInfo),
             map result rest = map Some rs ->
             hap_first_error (length rest) (Z.of_nat (length done)) (done ++ rest)
             = Done (match find (fun r => negb (HapResult_eqb r HapResult_No_Error)) rs with
                     | Some r => r
                     | None => HapResult_No_Error
                     end))
    by exact (G chunks results [] Hres).
  induction rest as [|c rest IH]; intros rs done Hm.
  - destruct rs; [reflexivity | discriminate].
  - destruct rs as [|r rs]; [discriminate|]. cbn [map] in Hm.
    injection Hm as Hr Hm. cbn [length hap_first_error find].
    unfold get_chunk. ztest.
    rewrite Nat2Z.id, nth_error_app2, Nat.sub_diag by lia. cbn [nth_error bind].
    rewrite Hr.
    replace (Z.of_nat (length done) + 1) with (Z.of_nat (length (done ++ [c])))
      by (rewrite length_app; cbn [length]; lia).
    replace (done ++ c :: rest) with ((done ++ [c]) ++ rest)
      by (rewrite <- app_assoc; reflexivity).
    destruct r; cbn [HapResult_eqb negb]; try reflexivity.
    now apply IH.
Qed.

Lemma hap_first_error_reports_first_witness :
  hap_first_error (length mixed_results) 0 mixed_results = Done HapResult_Internal_Error.
Proof.
  apply (hap_first_error_reports_first mixed_results
           [HapResult_No_Error; HapResult_Internal_Error; HapResult_Bad_Frame]).
  reflexivity.
Defined.

(** ** The loop over the container ends *)

Lemma load_in_bounds (mem : list byte) (p v : Z) : load mem p = Done v -> 0 <= p < len mem.
Proof.
  unfold load. intros E. destruct (Z.ltb_spec p 0); [discriminate|].
  destruct (nth_error mem (Z.to_nat p)) eqn:En; [|discriminate].
  assert (Hlt : (Z.to_nat p < length mem)%nat) by (apply nth_error_Some; congruence).
  unfold len. lia.
Qed.

Lemma hap_read_section_header_reads (mem : list byte) (p n : Z) (out sv : section_vars) :
  hap_read_section_header mem p n out = Done (HapResult_No_Error, sv) ->
  0 <= p /\ p + 4 <= len mem /\ 4 <= sectionHeaderLength sv /\ 0 <= sectionLength sv.
Proof.
  intros E.
  assert (Hl : 4 <= sectionHeaderLength sv /\ 0 <= sectionLength sv).
  { unfold hap_read_section_header in E.
    destruct (n <? 4); [discriminate|].
    destruct (hap_read_3_byte_uint mem p) as [l3|] eqn:E3; cbn [bind] in E; [|discriminate].
    pose proof (hap_read_3_byte_uint_range _ _ _ E3) as R3.
    destruct (l3 =? 0).
    - destruct (n <? 8); [discriminate|].
      destruct (hap_read_4_byte_uint mem (p + 4)) as [l4|] eqn:E4; cbn [bind] in E;
        [|discriminate].
      pose proof (hap_read_4_byte_uint_range _ _ _ E4) as R4.
      destruct (load mem (p + 3)) as [ty|]; cbn [bind] in E; [|discriminate].
      destruct (_ >? n); inversion E; subst sv.
      cbn [sectionHeaderLength sectionLength]. lia.
    - destruct (load mem (p + 3)) as [ty|]; cbn [bind] in E; [|discriminate].
      destruct (_ >? n); inversion E; subst sv.
      cbn [sectionHeaderLength sectionLength]. lia. }
  unfold hap_read_section_header in E.
  destruct (n <? 4); [discriminate|].
  unfold hap_read_3_byte_uint in E.
  destruct (load mem p) as [b0|] eqn:E0; cbn [bind] in E; [|discriminate].
  destruct (load mem (p + 1)) as [b1|] eqn:E1; cbn [bind] in E; [|discriminate].
  destruct (load mem (p + 2)) as [b2|] eqn:E2; cbn [bind] in E; [|discriminate].
  apply load_in_bounds in E0.
  assert (E3 : exists v, load mem (p + 3) = Done v).
  { destruct (load mem (p + 3)) eqn:E3; [eauto|]. exfalso.
    destruct (_ =? 0); [destruct (n <? 8); [discriminate|] |];
      try (destruct (hap_read_4_byte_uint mem (p + 4)); cbn [bind] in E; discriminate);
      cbn [bind] in E; discriminate. }
  destruct E3 as (v & E3). apply load_in_bounds in E3. lia.
Qed.

(** One turn of the loop, as an equation. *)
Lemma hap_scan_instructions_turn (fuel : nat) (input : list byte) (v : instruction_vars) :
  hap_scan_instructions (Datatypes.S fuel) input v
  = ltac:(let body := eval cbn [hap_scan_instructions] in
                      (hap_scan_instructions (Datatypes.S fuel) input v) in
          exact body).
Proof. reflexivity. Qed.

Lemma hap_scan_instructions_spare_fuel (input : list byte) :
  forall (fuel : nat) (v : instruction_vars),
    1 + Z.max 0 (len input - sectionStart v) <= Z.of_nat fuel ->
    hap_scan_instructions (Datatypes.S fuel) input v = hap_scan_instructions fuel input v.
Proof.
  induction fuel as [|fuel IH]; intros v Hfuel; [lia|].
  rewrite (hap_scan_instructions_turn (Datatypes.S fuel) input v).
  rewrite (hap_scan_instructions_turn fuel input v).
  destruct (bytes_remaining v >? 0); [|reflexivity].
  destruct (hap_read_section_header input (sectionStart v)
              (to_uint32 (bytes_remaining v)) (section v)) as [[r sv]|] eqn:Er;
    cbn [bind]; [|reflexivity].
  destruct r; cbn [HapResult_eqb negb]; try reflexivity.
  destruct (hap_read_section_header_reads _ _ _ _ _ Er) as (Hp & Hlen & Hhl & Hsl).
  assert (Hnext : forall v',
             sectionStart v' = sectionStart v + sectionHeaderLength sv + sectionLength sv ->
             hap_scan_instructions (Datatypes.S fuel) input v'
             = hap_scan_instructions fuel input v').
  { intros v' Hv'. apply IH. rewrite Hv'. lia. }
  repeat match goal with
         | |- context [if ?b then _ else _] =>
           lazymatch b with
           | context [hap_scan_instructions] => fail
           | _ => destruct b
           end
         end;
    cbv beta iota zeta; try reflexivity; apply Hnext; reflexivity.
Qed.

Lemma hap_scan_instructions_more_fuel (input : list byte) :
  forall (fuel : nat) (v : instruction_vars) (r : HapResult * instruction_vars),
    hap_scan_instructions fuel input v = Done r ->
    hap_scan_instructions (Datatypes.S fuel) input v = Done r.
Proof.
  induction fuel as [|fuel IH]; intros v r E.
  - cbn [hap_scan_instructions] in E |- *.
    destruct (bytes_remaining v >? 0); [discriminate | assumption].
  - rewrite (hap_scan_instructions_turn (Datatypes.S fuel) input v).
    rewrite (hap_scan_instructions_turn fuel input v) in E.
    destruct (bytes_remaining v >? 0); [|assumption].
    destruct (hap_read_section_header input (sectionStart v)
                (to_uint32 (bytes_remaining v)) (section v)) as [[r0 sv]|];
      cbn [bind] in E |- *; [|discriminate].
    destruct r0; cbn [HapResult_eqb negb] in E |- *; try assumption.
    repeat match goal with
           | |- context [if ?b then _ else _] =>
             lazymatch b with
             | context [hap_scan_instructions] => fail
             | _ => destruct b
             end
           end;
      cbv beta iota zeta in E |- *; try assumption; apply IH; assumption.
Qed.

Lemma hap_scan_instructions_any_more (input : list byte) (v : instruction_vars)
    (r : HapResult * instruction_vars) (fuel more : nat) :
  hap_scan_instructions fuel input v = Done r ->
  hap_scan_instructions (fuel + more) input v = Done r.
Proof.
  intros E. induction more as [|more IH].
  - now rewrite Nat.add_0_r.
  - rewrite Nat.add_succ_r. now apply hap_scan_instructions_more_fuel.
Qed.

Lemma hap_scan_instructions_enough (input : list byte) (v : instruction_vars) (more : nat) :
  0 <= sectionStart v ->
  hap_scan_instructions (Datatypes.S (length input) + more) input v
  = hap_scan_instructions (Datatypes.S (length input)) input v.
Proof.
  intros Hstart. induction more as [|more IH].
  - now rewrite Nat.add_0_r.
  - rewrite Nat.add_succ_r, <- IH.
    apply hap_scan_instructions_spare_fuel. unfold len. lia.
Qed.

(** X16: the loop over the Decode Instructions Container needs no more
    than [length input + 1] turns: each turn that goes on has read a
    header inside the input and moves [sectionStart] forward by four bytes
    or more, so whatever the loop returns after any number of turns it has
    returned within that many. *)
Theorem hap_scan_instructions_ends
    (input : list byte) (v : instruction_vars) (fuel : nat)
    (r : HapResult * instruction_vars) :
  0 <= sectionStart v ->
  hap_scan_instructions fuel input v = Done r ->
  hap_scan_instructions (Datatypes.S (length input)) input v = Done r.
Proof.
  intros Hstart E.
  destruct (Nat.le_ge_cases fuel (Datatypes.S (length input))) as [Hle | Hge].
  - replace (Datatypes.S (length input))
      with (fuel + (Datatypes.S (length input) - fuel))%nat by lia.
    now apply hap_scan_instructions_any_more.
  - rewrite <- (hap_scan_instructions_enough input v (fuel - Datatypes.S (length input)))
      by assumption.
    replace (Datatypes.S (length input) + (fuel - Datatypes.S (length input)))%nat
      with fuel by lia.
    assumption.
Qed.

Lemma hap_scan_instructions_ends_witness :
  hap_scan_instructions (Datatypes.S (length Fixtures.two_chunks)) Fixtures.two_chunks
    {| sectionStart := 8; bytes_remaining := 18; chunk_count := 0;
       compressors := None; chunk_sizes := None; chunk_offsets := None;
       section := section_vars_unset |}
  = Done (HapResult_No_Error,
          {| sectionStart := 26; bytes_remaining := 0; chunk_count := 2;
             compressors := Some 12; chunk_sizes := Some 18; chunk_offsets := None;
             section := {| sectionHeaderLength := 4; sectionLength := 8;
                           sectionType := 3 |} |}).
Proof.
  apply (hap_scan_instructions_ends Fixtures.two_chunks
           {| sectionStart := 8; bytes_remaining := 18; chunk_count := 0;
              compressors := None; chunk_sizes := None; chunk_offsets := None;
              section := section_vars_unset |} 2).
  - cbn. lia.
  - vm_compute. reflexivity.
Defined.


(** ** Frames in chunks *)

Lemma hap_read_4_byte_uint_at (pre post : list byte) (p v : Z) :
  len pre = p -> 0 <= v < 2 ^ 32 ->
  hap_read_4_byte_uint (pre ++ le32_bytes v ++ post) p = Done v.
Proof.
  intros <- Hv. unfold hap_read_4_byte_uint, le32_bytes. cbn [app].
  rewrite (load_shift pre _ (len pre) 0) by lia.
  rewrite (load_shift pre _ (len pre + 1) 1) by lia.
  rewrite (load_shift pre _ (len pre + 2) 2) by lia.
  rewrite (load_shift pre _ (len pre + 3) 3) by lia.
  rewrite load_0, load_1, load_2, load_3. cbn [bind]. now rewrite le_value_4.
Qed.

Lemma len_concat_cons (x : list byte) (l : list (list byte)) :
  len (concat (x :: l)) = len x + len (concat l).
Proof. cbn [concat]. apply len_app. Qed.

Section ChunkedDecode.
Context {S : snappy_c}.

Lemma chunk_decodes_code (c : stored_chunk) (x : list byte) :
  chunk_decodes c x ->
  byte.unsigned (byte.of_Z (chunk_code c)) = chunk_code c /\
  (chunk_code c = kHapCompressorNone \/ chunk_code c = kHapCompressorSnappy).
Proof.
  intros [[E _] | [E _]]; rewrite E; split; auto; reflexivity.
Qed.

Lemma hap_build_chunks_descriptors (input : list byte) (pc ps fd : Z) :
  forall (rest : list stored_chunk) (contents : list (list byte)),
    Forall2 chunk_decodes rest contents ->
    forall (i : Z) (preC postC preS postS preD postD : list byte)
           (acc : list HapChunkDecodeInfo) (rc ru : Z),
      input = preC ++ compressor_table rest ++ postC -> len preC = pc + i ->
      input = preS ++ size_table rest ++ postS -> len preS = ps + i * 4 ->
      input = preD ++ chunk_data rest ++ postD -> len preD = fd + rc ->
      0 <= i -> (i + Z.of_nat (length rest)) * 4 <= 2 ^ 31 ->
      0 <= rc -> rc + len (chunk_data rest) < 2 ^ 32 ->
      0 <= ru -> ru + len (concat contents) < 2 ^ 64 ->
      hap_build_chunks (length rest) i input pc ps None fd acc rc ru
      = Done (HapResult_No_Error,
              acc ++ descriptors rest contents (fd + rc) ru None,
              ru + len (concat contents)).
Proof.
  induction 1 as [|c x rest contents Hc Hrest IH];
    intros i preC postC preS postS preD postD acc rc ru EC LC ES LS ED LD Hi Hk Hrc Hrcb Hru Hrub.
  - cbn. now rewrite app_nil_r, Z.add_0_r.
  - destruct (chunk_decodes_code c x Hc) as [Hcode Hcases].
    change (compressor_table (c :: rest))
      with (byte.of_Z (chunk_code c) :: compressor_table rest) in EC.
    change (size_table (c :: rest))
      with (le32_bytes (len (chunk_stored c)) ++ size_table rest) in ES.
    change (chunk_data (c :: rest)) with (chunk_stored c ++ chunk_data rest) in ED, Hrcb.
    rewrite len_app in Hrcb. rewrite len_concat_cons in Hrub.
    pose proof (len_nonneg (chunk_stored c)) as Hs.
    pose proof (len_nonneg (chunk_data rest)) as Hd.
    pose proof (len_nonneg x) as Hx.
    pose proof (len_nonneg (concat contents)) as Hcc.
    cbn [length] in Hk. cbn [length hap_build_chunks].
    assert (E1 : load input (pc + i) = Done (chunk_code c)).
    { rewrite EC. cbn [app]. rewrite load_at by assumption. now rewrite Hcode. }
    assert (E2 : hap_read_4_byte_uint input (ps + i * 4) = Done (len (chunk_stored c))).
    { rewrite ES, <- app_assoc. apply hap_read_4_byte_uint_at; [assumption | lia]. }
    assert (E3 : load_bytes input (fd + rc) (len (chunk_stored c)) = Done (chunk_stored c)).
    { rewrite ED, <- app_assoc. now apply load_bytes_span. }
    rewrite E1. cbn [bind].
    replace (i * 4 <? 2 ^ 31) with true by (symmetry; apply Z.ltb_lt; lia).
    cbn [bind]. rewrite E2. cbn [bind].
    rewrite (to_size_t_small (rc + len (chunk_stored c)))
      by (change (2 ^ 64) with 18446744073709551616;
          change (2 ^ 32) with 4294967296 in Hrcb; lia).
    assert (Hnext : forall usize, usize = len x ->
               hap_build_chunks (length rest) (i + 1) input pc ps None fd
                 (acc ++ [ {| result := None; compressor := chunk_code c;
                              compressed_chunk_data := fd + rc;
                              compressed_chunk_size := len (chunk_stored c);
                              uncompressed_chunk_data := ru;
                              uncompressed_chunk_size := usize |} ])
                 (rc + len (chunk_stored c)) (to_size_t (ru + usize))
               = Done (HapResult_No_Error,
                       acc ++ descriptors (c :: rest) (x :: contents) (fd + rc) ru None,
                       ru + (len x + len (concat contents)))).
    { intros usize ->. rewrite to_size_t_small by lia.
      rewrite (IH (i + 1) (preC ++ [byte.of_Z (chunk_code c)]) postC
                 (preS ++ le32_bytes (len (chunk_stored c))) postS
                 (preD ++ chunk_stored c) postD).
      - cbn [descriptors]. rewrite <- app_assoc. cbn [app].
        rewrite !Z.add_assoc. reflexivity.
      - rewrite EC, <- app_assoc. reflexivity.
      - rewrite len_app. cbn. lia.
      - rewrite ES, <- !app_assoc. reflexivity.
      - rewrite len_app. cbn. lia.
      - rewrite ED, <- !app_assoc. reflexivity.
      - rewrite len_app. lia.
      - lia.
      - lia.
      - lia.
      - lia.
      - lia.
      - lia. }
    destruct Hc as [[Ecode Ex] | [Ecode [Elen Eun]]]; rewrite Ecode in *.
    + change (kHapCompressorNone =? kHapCompressorSnappy) with false. cbv iota.
      rewrite Hnext by (now rewrite Ex). rewrite len_concat_cons. reflexivity.
    + change (kHapCompressorSnappy =? kHapCompressorSnappy) with true. cbv iota.
      rewrite E3. cbn [bind]. rewrite Elen.
      rewrite (to_size_t_small (len x)) by lia.
      rewrite Hnext by reflexivity. rewrite len_concat_cons. reflexivity.
Qed.
End ChunkedDecode.

Lemma get_chunk_at (done rest : list HapChunkDecodeInfo) (d : HapChunkDecodeInfo) (i : Z) :
  i = Z.of_nat (length done) -> get_chunk (done ++ d :: rest) i = Done d.
Proof.
  intros ->. unfold get_chunk. ztest.
  rewrite Nat2Z.id, nth_error_app2, Nat.sub_diag by lia. reflexivity.
Qed.

Lemma set_chunk_at (done rest : list HapChunkDecodeInfo) (d d' : HapChunkDecodeInfo) (i : Z) :
  i = Z.of_nat (length done) -> set_chunk (done ++ d :: rest) i d' = done ++ d' :: rest.
Proof.
  intros ->. unfold set_chunk. rewrite Nat2Z.id.
  rewrite firstn_app, firstn_all, Nat.sub_diag. cbn [firstn]. rewrite app_nil_r.
  f_equal. f_equal.
  replace (Datatypes.S (length done)) with (length (done ++ [d]))
    by (rewrite length_app; cbn; lia).
  replace (done ++ d :: rest) with ((done ++ [d]) ++ rest)
    by (rewrite <- app_assoc; reflexivity).
  rewrite skipn_app, skipn_all, Nat.sub_diag. reflexivity.
Qed.

Lemma store_bytes_over (pre rest data : list byte) (p : Z) :
  len pre = p -> len data <= len rest ->
  store_bytes (pre ++ rest) p data
  = Done (pre ++ data ++ skipn (Z.to_nat (len data)) rest).
Proof.
  intros <- Hle.
  rewrite <- (firstn_skipn (Z.to_nat (len data)) rest) at 1.
  apply store_bytes_at. unfold len in *. rewrite length_firstn. lia.
Qed.

Section ChunkedRun.
Context {S : snappy_c}.

Lemma run_in_order_descriptors (input : list byte) :
  forall (rest : list stored_chunk) (contents : list (list byte)),
    Forall2 chunk_decodes rest contents ->
    forall (done : list HapChunkDecodeInfo) (i data ru : Z)
           (preD postD o_pre o_rest : list byte),
      i = Z.of_nat (length done) ->
      input = preD ++ chunk_data rest ++ postD -> len preD = data ->
      len o_pre = ru -> len (concat contents) <= len o_rest ->
      run_in_order (hap_decode_chunk input) (length rest) i
        {| chunk_info := done ++ descriptors rest contents data ru None;
           output := o_pre ++ o_rest |}
      = Done {| chunk_info :=
                  done ++ descriptors rest contents data ru (Some HapResult_No_Error);
                output :=
                  o_pre ++ concat contents
                  ++ skipn (Z.to_nat (len (concat contents))) o_rest |}.
Proof.
  induction 1 as [|c x rest contents Hc Hrest IH];
    intros done i data ru preD postD o_pre o_rest Hi ED LD Lo Hfit.
  - reflexivity.
  - change (chunk_data (c :: rest)) with (chunk_stored c ++ chunk_data rest) in ED.
    rewrite len_concat_cons in *.
    pose proof (len_nonneg x) as Hx.
    pose proof (len_nonneg (concat contents)) as Hcc.
    cbn [length run_in_order descriptors].
    assert (E3 : load_bytes input data (len (chunk_stored c)) = Done (chunk_stored c)).
    { rewrite ED, <- app_assoc. now apply load_bytes_span. }
    assert (Hstep :
              hap_decode_chunk input
                {| chunk_info :=
                     done ++ {| result := None; compressor := chunk_code c;
                                compressed_chunk_data := data;
                                compressed_chunk_size := len (chunk_stored c);
                                uncompressed_chunk_data := ru;
                                uncompressed_chunk_size := len x |}
                          :: descriptors rest contents (data + len (chunk_stored c))
                               (ru + len x) None;
                   output := o_pre ++ o_rest |} i
              = Done {| chunk_info :=
                          done ++ {| result := Some HapResult_No_Error;
                                     compressor := chunk_code c;
                                     compressed_chunk_data := data;
                                     compressed_chunk_size := len (chunk_stored c);
                                     uncompressed_chunk_data := ru;
                                     uncompressed_chunk_size := len x |}
                               :: descriptors rest contents (data + len (chunk_stored c))
                                    (ru + len x) None;
                        output := o_pre ++ x ++ skipn (Z.to_nat (len x)) o_rest |}).
    { unfold hap_decode_chunk. cbn [chunk_info output].
      rewrite get_chunk_at by assumption. cbn [bind compressor compressed_chunk_data
        compressed_chunk_size uncompressed_chunk_data uncompressed_chunk_size].
      destruct Hc as [[Ecode Ex] | [Ecode [Elen Eun]]]; rewrite Ecode.
      - change (kHapCompressorNone =? kHapCompressorSnappy) with false.
        change (kHapCompressorNone =? kHapCompressorNone) with true. cbv iota.
        rewrite E3. cbn [bind]. subst x.
        rewrite store_bytes_over by (assumption || lia). cbn [bind].
        now rewrite set_chunk_at by assumption.
      - change (kHapCompressorSnappy =? kHapCompressorSnappy) with true. cbv iota.
        rewrite E3. cbn [bind]. rewrite Eun.
        rewrite store_bytes_over by (assumption || lia). cbn [bind snappy_is_ok].
        now rewrite set_chunk_at by assumption. }
    rewrite Hstep. cbn [bind].
    replace (done ++ {| result := Some HapResult_No_Error; compressor := chunk_code c;
                        compressed_chunk_data := data;
                        compressed_chunk_size := len (chunk_stored c);
                        uncompressed_chunk_data := ru;
                        uncompressed_chunk_size := len x |}
                  :: descriptors rest contents (data + len (chunk_stored c))
                       (ru + len x) None)
      with ((done ++ [ {| result := Some HapResult_No_Error; compressor := chunk_code c;
                          compressed_chunk_data := data;
                          compressed_chunk_size := len (chunk_stored c);
                          uncompressed_chunk_data := ru;
                          uncompressed_chunk_size := len x |} ])
            ++ descriptors rest contents (data + len (chunk_stored c)) (ru + len x) None)
      by (rewrite <- app_assoc; reflexivity).
    replace (o_pre ++ x ++ skipn (Z.to_nat (len x)) o_rest)
      with ((o_pre ++ x) ++ skipn (Z.to_nat (len x)) o_rest)
      by (rewrite <- app_assoc; reflexivity).
    rewrite (IH _ (i + 1) (data + len (chunk_stored c)) (ru + len x)
               (preD ++ chunk_stored c) postD).
    + rewrite <- !app_assoc. cbn [app concat]. rewrite <- !app_assoc.
      rewrite skipn_skipn.
      replace (Z.to_nat (len (concat contents)) + Z.to_nat (len x))%nat
        with (Z.to_nat (len x + len (concat contents))) by lia.
      reflexivity.
    + rewrite length_app. cbn [length]. lia.
    + rewrite ED, <- !app_assoc. reflexivity.
    + rewrite len_app. lia.
    + rewrite len_app. lia.
    + unfold len in *. rewrite length_skipn. lia.
Qed.
End ChunkedRun.

Lemma len_compressor_table (chunks : list stored_chunk) :
  len (compressor_table chunks) = Z.of_nat (length chunks).
Proof. unfold len, compressor_table. now rewrite length_map. Qed.

Lemma len_size_table (chunks : list stored_chunk) :
  len (size_table chunks) = 4 * Z.of_nat (length chunks).
Proof.
  induction chunks as [|c chunks IH]; [reflexivity|].
  change (size_table (c :: chunks))
    with (le32_bytes (len (chunk_stored c)) ++ size_table chunks).
  rewrite len_app, IH. cbn [length]. change (len (le32_bytes _)) with 4. lia.
Qed.

Lemma hap_first_error_descriptors (S : snappy_c) :
  forall (rest : list stored_chunk) (contents : list (list byte)),
    Forall2 chunk_decodes rest contents ->
    forall (done : list HapChunkDecodeInfo) (i data out : Z),
      i = Z.of_nat (length done) ->
      hap_first_error (length rest) i
        (done ++ descriptors rest contents data out (Some HapResult_No_Error))
      = Done HapResult_No_Error.
Proof.
  induction 1 as [|c x rest contents Hc Hrest IH]; intros done i data out Hi.
  - reflexivity.
  - cbn [length hap_first_error descriptors].
    rewrite get_chunk_at by assumption. cbn [bind result].
    match goal with
    | |- hap_first_error _ _ (done ++ ?d :: ?r) = _ =>
      replace (done ++ d :: r) with ((done ++ [d]) ++ r)
        by (rewrite <- app_assoc; reflexivity)
    end.
    apply IH. rewrite length_app. cbn [length]. lia.
Qed.

Section ChunkedFrame.
Context {H : hap_h} {S : snappy_c} {L : stdlib_h} {Info : Type}.

(** X17: a Complex frame that holds a compressor table, a size table and,
    behind the container, the stored chunks one after the other (no offset
    table), decoded with a callback that runs the work function on the
    indices in order, gives No_Error: the output buffer starts with the
    contents of the chunks in table order, the byte count is their total
    length and the texture format is the frame's. *)
Theorem HapDecode_chunked_frame
    (top_hl fmt dic_hl hl_c hl_s : Z) (chunks : list stored_chunk)
    (contents : list (list byte)) (trailing : list byte)
    (next : Info -> Info) (capacity : Z) (m : decode_memory Info)
    (out : list byte) (old : Z) :
  hap_h_ok H = true ->
  complex_frame_ok top_hl fmt dic_hl (chunked_children hl_c hl_s chunks)
    (chunk_data chunks ++ trailing) ->
  chunks <> [] -> Z.of_nat (length chunks) < 2 ^ 29 ->
  Forall2 chunk_decodes chunks contents ->
  len (concat contents) <= capacity -> len (concat contents) <= len out ->
  len (concat contents) < 2 ^ 64 ->
  malloc_succeeds (to_size_t (sizeof_HapChunkDecodeInfo * Z.of_nat (length chunks))) = true ->
  outputBuffer m = Some out -> outputBufferTextureFormat m = Some old ->
  let frame := complex_frame top_hl fmt dic_hl (chunked_children hl_c hl_s chunks)
                 (chunk_data chunks ++ trailing) in
  HapDecode (Some frame) (len frame) (Some (sequential_callback next)) capacity m
  = Done (HapResult_No_Error,
          {| outputBuffer :=
               Some (concat contents ++ skipn (Z.to_nat (len (concat contents))) out);
             outputBufferBytesUsed :=
               option_map (fun _ => len (concat contents)) (outputBufferBytesUsed m);
             outputBufferTextureFormat :=
               Some (hap_texture_format_constant_for_format_identifier fmt);
             info := next (info m) |}).
Proof.
  intros Hok Hframe Hne Hk Hdec Hcap Hfit H64 Hmalloc Hout Hold frame.
  set (k := Z.of_nat (length chunks)) in *.
  assert (Hkpos : 0 < k) by (unfold k; destruct chunks; [congruence | cbn; lia]).
  change (2 ^ 29) with 536870912 in Hk.
  destruct (HapDecode_complex_frame Hok top_hl fmt dic_hl _ _ Hframe
              (sequential_callback next) capacity m out old Hout Hold) as (v & E & Hv).
  destruct (complex_frame_lengths _ _ _ _ _ Hframe) as (Ht & Hd & Lbody & Lframe).
  destruct Hframe as (Hfmt & Htop & Hdic & Hall & H32).
  inversion Hall as [|c1 ? Hc1 Hall1]; subst.
  inversion Hall1 as [|c2 ? Hc2 _]; subst.
  destruct Hc1 as [Hfc _]. destruct Hc2 as [Hfs _].
  cbn [child_header_length child_payload] in Hfc, Hfs.
  assert (Hhc : hl_c = 4 \/ hl_c = 8) by (destruct Hfc as [[-> _] | [-> _]]; auto).
  assert (Hhs : hl_s = 4 \/ hl_s = 8) by (destruct Hfs as [[-> _] | [-> _]]; auto).
  set (start := top_hl + dic_hl) in *.
  assert (Escan : scan_children start 0 (None, None, None) (chunked_children hl_c hl_s chunks)
                  = Some (k, (Some (start + hl_c),
                              Some (start + hl_c + k + hl_s), None))).
  { cbn [scan_children chunked_children]. unfold implied_chunk_count, record_table.
    cbn [child_type child_payload child_header_length].
    change (kHapSectionChunkSecondStageCompressorTable
            =? kHapSectionChunkSecondStageCompressorTable) with true.
    change (kHapSectionChunkSizeTable =? kHapSectionChunkSecondStageCompressorTable)
      with false.
    change (kHapSectionChunkSizeTable =? kHapSectionChunkSizeTable) with true.
    cbv iota. rewrite len_compressor_table, len_size_table. fold k.
    rewrite (Z.mul_comm 4 k), Z.div_mul by lia.
    ztest. rewrite Z.eqb_refl, andb_false_r. reflexivity. }
  destruct (Hv _ _ Escan) as (Hcount & Hcs & Hszs & Hoffs). cbn [fst snd] in Hcs, Hszs, Hoffs.
  assert (Eint : to_int k = k).
  { unfold to_int. change (2 ^ 31) with 2147483648. change (2 ^ 32) with 4294967296.
    rewrite Z.mod_small by lia. lia. }
  rewrite Eint in Hcount.
  assert (Er : instructions_result start (chunked_children hl_c hl_s chunks)
               = HapResult_No_Error)
    by (unfold instructions_result; now rewrite Escan).
  unfold frame. rewrite E, Er. cbn [HapResult_eqb negb].
  rewrite Hcount. replace (k >? 0) with true by (symmetry; ztest; lia).
  (* the chunk table *)
  set (fmtc := hap_texture_format_constant_for_format_identifier fmt).
  set (frame_data := start + len (container_bytes (chunked_children hl_c hl_s chunks))).
  assert (Lcont : len (container_bytes (chunked_children hl_c hl_s chunks))
                  = hl_c + k + hl_s + 4 * k).
  { unfold container_bytes, chunked_children. cbn [flat_map]. rewrite app_nil_r.
    unfold child_bytes, section_bytes. cbn [child_header_length child_type child_payload].
    rewrite !len_app, !len_section_header_bytes by assumption.
    rewrite len_compressor_table, len_size_table. fold k. lia. }
  assert (Etop : exists Htop_b, len Htop_b = top_hl
            /\ complex_frame top_hl fmt dic_hl (chunked_children hl_c hl_s chunks)
                 (chunk_data chunks ++ trailing)
               = Htop_b ++ section_bytes dic_hl kHapSectionDecodeInstructionsContainer
                             (container_bytes (chunked_children hl_c hl_s chunks))
                 ++ chunk_data chunks ++ trailing).
  { eexists. split; [|reflexivity]. now apply len_section_header_bytes. }
  destruct Etop as (Htop_b & LHt & Etop).
  set (Hdic_b := section_header_bytes dic_hl
                   (len (container_bytes (chunked_children hl_c hl_s chunks)))
                   kHapSectionDecodeInstructionsContainer).
  set (Hc_b := section_header_bytes hl_c (len (compressor_table chunks))
                 kHapSectionChunkSecondStageCompressorTable).
  set (Hs_b := section_header_bytes hl_s (len (size_table chunks))
                 kHapSectionChunkSizeTable).
  assert (Eframe : complex_frame top_hl fmt dic_hl (chunked_children hl_c hl_s chunks)
                     (chunk_data chunks ++ trailing)
                   = Htop_b ++ Hdic_b ++ Hc_b ++ compressor_table chunks ++ Hs_b
                     ++ size_table chunks ++ chunk_data chunks ++ trailing).
  { rewrite Etop. f_equal. unfold section_bytes at 1. fold Hdic_b.
    unfold container_bytes, chunked_children. cbn [flat_map]. rewrite app_nil_r.
    unfold child_bytes, section_bytes. cbn [child_header_length child_type child_payload].
    fold Hc_b Hs_b. rewrite <- !app_assoc. reflexivity. }
  assert (LHd : len Hdic_b = dic_hl) by (now apply len_section_header_bytes).
  assert (LHc : len Hc_b = hl_c) by (now apply len_section_header_bytes).
  assert (LHs : len Hs_b = hl_s) by (now apply len_section_header_bytes).
  pose proof (len_nonneg (chunk_data chunks)) as Hdn.
  pose proof (len_nonneg trailing) as Htn.
  pose proof (len_nonneg (concat contents)) as Hcn.
  assert (Hdata32 : len (chunk_data chunks) < 2 ^ 32).
  { rewrite Eframe in H32. rewrite !len_app in H32.
    pose proof (len_nonneg (compressor_table chunks)).
    pose proof (len_nonneg (size_table chunks)). lia. }
  assert (Ebuild :
            hap_build_chunks (Z.to_nat k) 0
              (complex_frame top_hl fmt dic_hl (chunked_children hl_c hl_s chunks)
                 (chunk_data chunks ++ trailing))
              (start + hl_c) (start + hl_c + k + hl_s) None frame_data [] 0 0
            = Done (HapResult_No_Error,
                    descriptors chunks contents frame_data 0 None,
                    len (concat contents))).
  { unfold k at 1. rewrite Nat2Z.id.
    rewrite (hap_build_chunks_descriptors _ (start + hl_c) (start + hl_c + k + hl_s)
               frame_data chunks contents Hdec 0
               (Htop_b ++ Hdic_b ++ Hc_b)
               (Hs_b ++ size_table chunks ++ chunk_data chunks ++ trailing)
               (Htop_b ++ Hdic_b ++ Hc_b ++ compressor_table chunks ++ Hs_b)
               (chunk_data chunks ++ trailing)
               (Htop_b ++ Hdic_b ++ Hc_b ++ compressor_table chunks ++ Hs_b
                ++ size_table chunks)
               trailing [] 0 0).
    - cbn [app]. rewrite Z.add_0_r, Z.add_0_l. reflexivity.
    - rewrite Eframe, <- !app_assoc. reflexivity.
    - rewrite !len_app. unfold start. lia.
    - rewrite Eframe, <- !app_assoc. reflexivity.
    - rewrite !len_app, len_compressor_table. fold k. unfold start. lia.
    - rewrite Eframe, <- !app_assoc. reflexivity.
    - rewrite !len_app, len_compressor_table, len_size_table. fold k.
      unfold frame_data, start. rewrite Lcont. lia.
    - lia.
    - fold k. change (2 ^ 31) with 2147483648. lia.
    - lia.
    - lia.
    - lia.
    - lia. }
  unfold HapDecode_chunks. rewrite Hcs, Hszs, Hoffs, Hcount.
  fold k in Hmalloc. rewrite Hmalloc. cbn [negb].
  fold frame_data. rewrite Ebuild. cbn [bind HapResult_eqb andb].
  replace (len (concat contents) >? capacity) with false by (symmetry; ztest; lia).
  cbn [HapResult_eqb].
  (* the callback *)
  unfold sequential_callback at 1.
  rewrite to_uint32_small by (change (2 ^ 32) with 4294967296; lia).
  unfold k at 1. rewrite Nat2Z.id.
  pose proof (run_in_order_descriptors
                (complex_frame top_hl fmt dic_hl (chunked_children hl_c hl_s chunks)
                   (chunk_data chunks ++ trailing))
                chunks contents Hdec [] 0 frame_data 0
                (Htop_b ++ Hdic_b ++ Hc_b ++ compressor_table chunks ++ Hs_b
                 ++ size_table chunks)
                trailing [] out) as Erun.
  cbn [app] in Erun. rewrite Erun.
  - cbn [bind chunk_info output info].
    unfold k. rewrite Nat2Z.id.
    pose proof (hap_first_error_descriptors S chunks contents Hdec [] 0 frame_data 0 eq_refl)
      as Efirst.
    cbn [app] in Efirst. rewrite Efirst. cbn [bind HapResult_eqb negb].
    unfold HapDecode_return, set_texture_format. cbn. rewrite Hold. reflexivity.
  - reflexivity.
  - rewrite Eframe, <- !app_assoc. reflexivity.
  - rewrite !len_app, len_compressor_table, len_size_table. fold k.
    unfold frame_data, start. rewrite Lcont. lia.
  - reflexivity.
  - assumption.
Qed.
End ChunkedFrame.

Section ChunkedInstances.
Import Fixtures.

Lemma HapDecode_snappy_frame_errors_witness :
@HapDecode hap snappy libc nat
  (Some (section_header_bytes 8 (len [])
           (hap_4_bit_packed_byte kHapCompressorSnappy 0xB) ++ [] ++ []))
  8 (Some callback) 16 (memory (zeros 16))
= Done (HapResult_Internal_Error, set_texture_format (memory (zeros 16)) 0x83F0).
Proof.
apply (@HapDecode_snappy_frame_errors hap snappy libc nat 8 0xB [] [] 8 callback 16
         (memory (zeros 16)) (zeros 16) 0 SNAPPY_INVALID_INPUT 0).
- reflexivity.
- right. vm_compute. intuition discriminate.
- left. reflexivity.
- vm_compute. intuition discriminate.
- reflexivity.
- reflexivity.
- reflexivity.
- left. discriminate.
Defined.

Lemma HapDecode_chunked_frame_witness :
@HapDecode hap snappy libc nat
  (Some (complex_frame 4 0xB 4 (chunked_children 4 4 sample_chunks)
           (chunk_data sample_chunks ++ [])))
  (len (complex_frame 4 0xB 4 (chunked_children 4 4 sample_chunks)
          (chunk_data sample_chunks ++ [])))
  (Some (sequential_callback Datatypes.S)) 16 (memory (zeros 16))
= Done (HapResult_No_Error,
        {| outputBuffer :=
             Some (concat sample_contents
                   ++ skipn (Z.to_nat (len (concat sample_contents))) (zeros 16));
           outputBufferBytesUsed :=
             option_map (fun _ => len (concat sample_contents))
               (outputBufferBytesUsed (memory (zeros 16)));
           outputBufferTextureFormat :=
             Some (@hap_texture_format_constant_for_format_identifier hap 0xB);
           info := Datatypes.S (info (memory (zeros 16))) |}).
Proof.
apply (@HapDecode_chunked_frame hap snappy libc nat 4 0xB 4 4 4 sample_chunks
         sample_contents [] Datatypes.S 16 (memory (zeros 16)) (zeros 16) 0).
- reflexivity.
- unfold complex_frame_ok, header_fits, child_ok, is_format_code.
  split; [left; reflexivity|].
  split; [left; vm_compute; intuition discriminate|].
  split; [left; vm_compute; intuition discriminate|].
  split; [| vm_compute; reflexivity].
  repeat constructor; cbn; try (left; vm_compute; intuition discriminate);
    vm_compute; discriminate.
- discriminate.
- vm_compute. reflexivity.
- constructor; [left; split; reflexivity|].
  constructor; [right; split; [reflexivity | split; vm_compute; reflexivity] | constructor].
- vm_compute. discriminate.
- vm_compute. discriminate.
- vm_compute. reflexivity.
- reflexivity.
- reflexivity.
- reflexivity.
Defined.
End ChunkedInstances.

(** ** The work function, the format of an encoded frame, allocation *)

Lemma store_bytes_len (mem : list byte) (p : Z) (data out : list byte) :
  store_bytes mem p data = Done out -> len out = len mem.
Proof.
  unfold store_bytes. intros E.
  destruct (Z.leb_spec 0 p); [|discriminate].
  destruct (Z.leb_spec (p + len data) (len mem)); [|discriminate].
  cbn [andb] in E. apply Done_inj in E. subst out.
  pose proof (len_nonneg data).
  unfold len in *. rewrite !length_app, length_firstn, length_skipn. lia.
Qed.

Lemma get_chunk_split (chunks : list HapChunkDecodeInfo) (i : Z) (c : HapChunkDecodeInfo) :
  get_chunk chunks i = Done c ->
  exists done rest, chunks = done ++ c :: rest /\ i = Z.of_nat (length done).
Proof.
  unfold get_chunk. intros E.
  destruct (Z.ltb_spec i 0); [discriminate|].
  destruct (nth_error chunks (Z.to_nat i)) as [c0|] eqn:En; [|discriminate].
  apply Done_inj in E. subst c0.
  destruct (nth_error_split _ _ En) as (done & rest & -> & Hl).
  exists done, rest. split; [reflexivity | lia].
Qed.

Lemma get_chunk_other (done rest : list HapChunkDecodeInfo) (c c' : HapChunkDecodeInfo)
    (j : Z) :
  j <> Z.of_nat (length done) ->
  get_chunk (done ++ c' :: rest) j = get_chunk (done ++ c :: rest) j.
Proof.
  intros Hj. unfold get_chunk. destruct (Z.ltb_spec j 0); [reflexivity|].
  destruct (Nat.lt_ge_cases (Z.to_nat j) (length done)) as [Hlt | Hge].
  - now rewrite !nth_error_app1 by assumption.
  - rewrite !nth_error_app2 by assumption.
    destruct (Z.to_nat j - length done)%nat eqn:Ed; [lia | reflexivity].
Qed.

Section ChunkWork.
Context {S : snappy_c}.

(** X18: a call of the work function that [HapDecode] hands to the
    callback changes one entry of the chunk table, the one at its index:
    the table keeps its length, every other entry is as before, and in
    the entry itself the result is set while the compressor, the two data
    pointers and the compressed size are kept.  The output buffer keeps
    its length. *)
Theorem hap_decode_chunk_own_entry (input : list byte) (st st' : decode_store) (index : Z) :
  hap_decode_chunk input st index = Done st' ->
  length (chunk_info st') = length (chunk_info st) /\
  len (output st') = len (output st) /\
  (forall j, j <> index ->
     get_chunk (chunk_info st') j = get_chunk (chunk_info st) j) /\
  exists c c',
    get_chunk (chunk_info st) index = Done c /\
    get_chunk (chunk_info st') index = Done c' /\
    result c' <> None /\
    compressor c' = compressor c /\
    compressed_chunk_data c' = compressed_chunk_data c /\
    compressed_chunk_size c' = compressed_chunk_size c /\
    uncompressed_chunk_data c' = uncompressed_chunk_data c.
Proof.
  unfold hap_decode_chunk. intros E.
  destruct (get_chunk (chunk_info st) index) as [c|] eqn:Ec; cbn [bind] in E;
    [|discriminate].
  destruct (get_chunk_split _ _ _ Ec) as (done & rest & Echunks & Hi).
  rewrite Echunks in E |- *.
  assert (G : forall (c' : HapChunkDecodeInfo) (out : list byte),
             len out = len (output st) ->
             result c' <> None -> compressor c' = compressor c ->
             compressed_chunk_data c' = compressed_chunk_data c ->
             compressed_chunk_size c' = compressed_chunk_size c ->
             uncompressed_chunk_data c' = uncompressed_chunk_data c ->
             st' = {| chunk_info := set_chunk (done ++ c :: rest) index c';
                      output := out |} ->
             length (chunk_info st') = length (done ++ c :: rest) /\
             len (output st') = len (output st) /\
             (forall j, j <> index ->
                get_chunk (chunk_info st') j = get_chunk (done ++ c :: rest) j) /\
             exists c0 c1,
               Done c = Done c0 /\
               get_chunk (chunk_info st') index = Done c1 /\
               result c1 <> None /\
               compressor c1 = compressor c0 /\
               compressed_chunk_data c1 = compressed_chunk_data c0 /\
               compressed_chunk_size c1 = compressed_chunk_size c0 /\
               uncompressed_chunk_data c1 = uncompressed_chunk_data c0).
  { intros c' out Hlen Hr H1 H2 H3 H4 ->. cbn [chunk_info output].
    rewrite set_chunk_at by assumption.
    split; [rewrite !length_app; reflexivity|].
    split; [assumption|].
    split; [intros j Hj; apply get_chunk_other; lia|].
    exists c, c'. rewrite get_chunk_at by assumption. repeat split; assumption. }
  destruct (compressor c =? kHapCompressorSnappy).
  - destruct (load_bytes input (compressed_chunk_data c) (compressed_chunk_size c))
      as [data|]; cbn [bind] in E; [|discriminate].
    destruct (snappy_uncompress data (uncompressed_chunk_size c)) as [sr bytes].
    destruct (store_bytes (output st) (uncompressed_chunk_data c) bytes) as [out|] eqn:Es;
      cbn [bind] in E; [|discriminate].
    apply Done_inj in E. symmetry in E.
    eapply G; [| | | | | | exact E]; cbn; try reflexivity;
      [eapply store_bytes_len; eassumption | discriminate].
  - destruct (compressor c =? kHapCompressorNone).
    + destruct (load_bytes input (compressed_chunk_data c) (compressed_chunk_size c))
        as [data|]; cbn [bind] in E; [|discriminate].
      destruct (store_bytes (output st) (uncompressed_chunk_data c) data) as [out|] eqn:Es;
        cbn [bind] in E; [|discriminate].
      apply Done_inj in E. symmetry in E.
      eapply G; [| | | | | | exact E]; cbn; try reflexivity;
        [eapply store_bytes_len; eassumption | discriminate].
    + apply Done_inj in E. symmetry in E.
      eapply G; [| | | | | | exact E]; cbn; try reflexivity; discriminate.
Qed.
End ChunkWork.

Section EncodedFormat.
Context {H : hap_h} {S : snappy_c}.

(** X19: the texture format of a frame written by [HapEncode] can be
    queried, as long as the frame is shorter than [2 ^ 32] bytes (an
    input of fewer than [2 ^ 32 - 8] bytes): [HapGetFrameTextureFormat]
    on the bytes [HapEncode] reports then returns No_Error and the format
    that was encoded, for both compressor preferences.  [HapEncode] also
    accepts longer inputs; the byte count it reports no longer fits the
    32 bits the query keeps of it. *)
Theorem HapGetFrameTextureFormat_HapEncode
    (x : list byte) (tf compressor : Z) (dst : list byte) (used old : Z) :
  hap_h_ok H = true ->
  0 < len x -> len x + 8 < 2 ^ 32 ->
  is_texture_format tf ->
  compressor = HapCompressorNone \/ compressor = HapCompressorSnappy ->
  HapEncode_headerLength (len x) + HapEncode_maxCompressedLength compressor (len x)
  <= len dst ->
  compressor_obliges compressor x (len dst) ->
  exists frame n,
    HapEncode (Some x) (len x) tf compressor (Some dst) (len dst) (Some used)
    = Done (HapResult_No_Error, Some frame, Some n) /\
    HapGetFrameTextureFormat (Some frame) n (Some old)
    = Done (HapResult_No_Error, Some tf).
Proof.
  intros Hok Hx H32 Htf Hc Hcap Hobl.
  destruct (HapEncode_success Hok x tf compressor dst (Some used)
              Hx Htf Hc Hcap Hobl) as (tail & E & Ltail).
  destruct (format_identifier_of_constant Hok tf Htf) as [Hid Hback].
  pose proof (format_constant_nonzero Hok _ Hid) as Hnz. rewrite Hback in Hnz.
  pose proof (HapEncode_headerLength_cases (len x)) as Hhl.
  assert (Hshort : HapEncode_headerLength (len x) = 4 -> len x <= kHapUInt24Max).
  { unfold HapEncode_headerLength.
    destruct (Z.gtb_spec (len x) kHapUInt24Max); [discriminate | lia]. }
  eexists. eexists. split; [exact E|]. clear E. cbn [option_map].
  set (payload := snd (stored_frame compressor x (len dst))) in *.
  set (sc := fst (stored_frame compressor x (len dst))) in *.
  assert (Hp : 0 < len payload <= len x /\ is_compressor_code sc).
  { unfold payload, sc.
    destruct (stored_frame_cases compressor x (len dst)) as [-> | (_ & -> & Hlc)];
      cbn [fst snd]; (split; [lia|]); [left | right; left]; reflexivity. }
  destruct Hp as [Hp Hsc].
  destruct (packed_byte_nibbles sc _ Hsc Hid) as (Hty & _ & Hbot).
  rewrite to_uint32_small by lia. rewrite to_size_t_small by lia.
  unfold HapGetFrameTextureFormat.
  rewrite read_frame_header; [| | assumption | lia].
  - cbn [bind HapResult_eqb sectionType]. rewrite Hbot, Hback.
    replace (tf =? 0) with false by (symmetry; now apply Z.eqb_neq). reflexivity.
  - unfold header_fits. change kHapUInt24Max with 16777215 in *.
    change (2 ^ 32) with 4294967296 in *.
    destruct Hhl as [E4 | E8]; [left | right]; lia.
Qed.
End EncodedFormat.

Section AllocationFailure.
Context {H : hap_h} {S : snappy_c} {L : stdlib_h} {Info : Type}.

(** X20: when the instructions of a well-formed Complex frame are
    accepted with a positive chunk count and the chunk table cannot be
    allocated, [HapDecode] returns Internal_Error; the texture format is
    written, the output buffer, the byte count and [info] are as they
    were, and the callback is not called. *)
Theorem HapDecode_allocation_failure
    (top_hl fmt dic_hl : Z) (children : list child_section) (frame_data : list byte)
    (callback : HapDecodeCallback Info) (capacity : Z) (m : decode_memory Info)
    (out : list byte) (old : Z) (k cs szs : Z) (offs : option Z) :
  hap_h_ok H = true ->
  complex_frame_ok top_hl fmt dic_hl children frame_data ->
  scan_children (top_hl + dic_hl) 0 (None, None, None) children
  = Some (k, (Some cs, Some szs, offs)) ->
  0 < to_int k ->
  malloc_succeeds (to_size_t (sizeof_HapChunkDecodeInfo * to_int k)) = false ->
  outputBuffer m = Some out -> outputBufferTextureFormat m = Some old ->
  let frame := complex_frame top_hl fmt dic_hl children frame_data in
  HapDecode (Some frame) (len frame) (Some callback) capacity m
  = Done (HapResult_Internal_Error,
          set_texture_format m (hap_texture_format_constant_for_format_identifier fmt)).
Proof.
  intros Hok Hframe Escan Hk Hmalloc Hout Hold frame.
  destruct (HapDecode_complex_frame Hok top_hl fmt dic_hl _ _ Hframe
              callback capacity m out old Hout Hold) as (v & E & Hv).
  destruct (Hv _ _ Escan) as (Hcount & Hcs & Hszs & Hoffs). cbn [fst snd] in Hcs, Hszs.
  unfold frame. rewrite E.
  unfold instructions_result. rewrite Escan. cbn [HapResult_eqb negb].
  rewrite Hcount. replace (to_int k >? 0) with true by (symmetry; ztest; lia).
  unfold HapDecode_chunks. rewrite Hcs, Hszs, Hcount, Hmalloc. reflexivity.
Qed.
End AllocationFailure.

Section WorkInstances.
Import Fixtures.

Lemma hap_decode_chunk_own_entry_witness :
  length (chunk_info
            {| chunk_info :=
                 set_chunk (chunk_info sample_store) 1
                   {| result := Some HapResult_No_Error; compressor := kHapCompressorSnappy;
                      compressed_chunk_data := 29; compressed_chunk_size := 3;
                      uncompressed_chunk_data := 3; uncompressed_chunk_size := 4 |};
               output := [Byte.x00; Byte.x00; Byte.x00; Byte.x77; Byte.x77; Byte.x77;
                          Byte.x77; Byte.x00] |})
  = length (chunk_info sample_store).
Proof.
  apply (@hap_decode_chunk_own_entry snappy
           (complex_frame 4 0xB 4 (chunked_children 4 4 sample_chunks)
              (chunk_data sample_chunks))
           sample_store _ 1).
  vm_compute. reflexivity.
Defined.

Lemma HapGetFrameTextureFormat_HapEncode_witness :
  exists frame n,
    @HapEncode hap snappy (Some (zeros 12)) (len (zeros 12)) 0x83F3 1
      (Some (zeros 64)) (len (zeros 64)) (Some 0)
    = Done (HapResult_No_Error, Some frame, Some n) /\
    @HapGetFrameTextureFormat hap (Some frame) n (Some 0)
    = Done (HapResult_No_Error, Some 0x83F3).
Proof.
  apply (@HapGetFrameTextureFormat_HapEncode hap snappy (zeros 12) 0x83F3 1 (zeros 64) 0 0).
  - reflexivity.
  - reflexivity.
  - reflexivity.
  - right. left. reflexivity.
  - right. reflexivity.
  - vm_compute. discriminate.
  - intros _. vm_compute. split; [reflexivity | discriminate].
Defined.

Lemma HapDecode_allocation_failure_witness :
@HapDecode hap snappy no_memory nat
  (Some (complex_frame 4 0xB 4 (chunked_children 4 4 sample_chunks)
           (chunk_data sample_chunks)))
  (len (complex_frame 4 0xB 4 (chunked_children 4 4 sample_chunks)
          (chunk_data sample_chunks)))
  (Some callback) 16 (memory (zeros 16))
= Done (HapResult_Internal_Error, set_texture_format (memory (zeros 16)) 0x83F0).
Proof.
apply (@HapDecode_allocation_failure hap snappy no_memory nat 4 0xB 4
         (chunked_children 4 4 sample_chunks) (chunk_data sample_chunks) callback 16
         (memory (zeros 16)) (zeros 16) 0 2 12 18 None).
- reflexivity.
- unfold complex_frame_ok, header_fits, child_ok, is_format_code.
  split; [left; reflexivity|].
  split; [left; vm_compute; intuition discriminate|].
  split; [left; vm_compute; intuition discriminate|].
  split; [| vm_compute; reflexivity].
  repeat constructor; cbn; try (left; vm_compute; intuition discriminate);
    vm_compute; discriminate.
- vm_compute. reflexivity.
- vm_compute. reflexivity.
- reflexivity.
- reflexivity.
- reflexivity.
Defined.
End WorkInstances.
